(** * EasyReads backend: admin gate, book-request lifecycle, book CRUD,
      pagination and the rule-based chat fallback.

    A shallow embedding of the Express handlers of the repository:
    - [middleware/adminAuth.js] ([getAdminEmails], [isAdminEmail],
      [requireAdmin]),
    - the router of the [/book-requests] routes and the BookRequest schema
      it works on,
    - [controllers/bookController.js] and the controller of the book
      requests that follows it,
    - [controllers/aiController.js].

    JavaScript strings are modelled as Rocq strings read as sequences of code
    units below 256 (the Latin-1 range); documents, request bodies and query
    strings are finite maps from field names to values; a collection is the
    list of its documents in natural (insertion) order. *)

From Stdlib Require Import ZArith Ascii String List Bool Lia.
From stdpp Require Import base option list gmap strings pretty.

Local Open Scope string_scope.
Local Open Scope Z_scope.

(* ===================================================================== *)
(** ** JavaScript strings *)
(* ===================================================================== *)

Module JsString.

Definition code (c : ascii) : Z := Z.of_nat (nat_of_ascii c).
Definition chr (z : Z) : ascii := ascii_of_nat (Z.to_nat z).

Definition in_range (lo hi : Z) (c : ascii) : bool :=
  (lo <=? code c) && (code c <=? hi).

(** [String.prototype.toLowerCase] on code units below 256: the ASCII
    capitals and the Latin-1 capitals U+00C0..U+00DE (U+00D7 is the
    multiplication sign) move up by 32. *)
Definition lower_char (c : ascii) : ascii :=
  if in_range 65 90 c then chr (code c + 32)
  else if in_range 192 222 c && negb (code c =? 215) then chr (code c + 32)
  else c.

Fixpoint toLowerCase (s : string) : string :=
  match s with
  | EmptyString => EmptyString
  | String c s' => String (lower_char c) (toLowerCase s')
  end.

(** White space and line terminators of ECMAScript below 256:
    TAB, LF, VT, FF, CR, SP and NBSP. *)
Definition is_space (c : ascii) : bool :=
  in_range 9 13 c || (code c =? 32) || (code c =? 160).

Fixpoint trimStart (s : string) : string :=
  match s with
  | EmptyString => EmptyString
  | String c s' => if is_space c then trimStart s' else s
  end.

(** [trimEnd] drops a character when it is a space and everything after
    it has been dropped as well. *)
Fixpoint trimEnd (s : string) : string :=
  match s with
  | EmptyString => EmptyString
  | String c s' =>
      match trimEnd s' with
      | EmptyString => if is_space c then EmptyString else String c EmptyString
      | t => String c t
      end
  end.

Definition trim (s : string) : string := trimEnd (trimStart s).

Definition is_empty (s : string) : bool :=
  match s with EmptyString => true | _ => false end.

Fixpoint startsWith (p s : string) : bool :=
  match p, s with
  | EmptyString, _ => true
  | String a p', String b s' => Ascii.eqb a b && startsWith p' s'
  | String _ _, EmptyString => false
  end.

(** [String.prototype.includes]: [p] occurs somewhere in [s]. *)
Fixpoint includes (s p : string) : bool :=
  startsWith p s ||
  match s with
  | EmptyString => false
  | String _ s' => includes s' p
  end.

(** [String.prototype.split] with a one-character separator; the result
    always has at least one element. *)
Fixpoint split (sep : ascii) (s : string) : list string :=
  match s with
  | EmptyString => [EmptyString]
  | String c s' =>
      if Ascii.eqb c sep then EmptyString :: split sep s'
      else match split sep s' with
           | [] => [String c EmptyString]
           | w :: ws => String c w :: ws
           end
  end.

Definition is_digit (c : ascii) : bool := in_range 48 57 c.
Definition is_hex (c : ascii) : bool :=
  in_range 48 57 c || in_range 97 102 c || in_range 65 70 c.
(** [\w] without the unicode and ignore-case flags. *)
Definition is_word (c : ascii) : bool :=
  in_range 97 122 c || in_range 65 90 c || in_range 48 57 c || (code c =? 95).

Fixpoint forallb_str (p : ascii → bool) (s : string) : bool :=
  match s with
  | EmptyString => true
  | String c s' => p c && forallb_str p s'
  end.

(** [/^[0-9a-fA-F]{24}$/]: the ObjectId format test of the controllers. *)
Definition isObjectIdFormat (s : string) : bool :=
  (Z.of_nat (String.length s) =? 24) && forallb_str is_hex s.

(** *** Numbers.  A JavaScript number with an integer value is a
    double: an integer of at most 53 significant bits.  [to_double] is
    the double nearest to an integer, ties going to the even mantissa.
    The exponent is not bounded here: beyond the largest double
    ([2^1024]), where JavaScript has [Infinity], the model keeps a large
    finite number. *)

Definition to_double (n : Z) : Z :=
  let a := Z.abs n in
  let e := Z.log2 a - 52 in
  if e <=? 0 then n
  else
    let q := a / 2 ^ e in
    let r := a mod 2 ^ e in
    let half := 2 ^ (e - 1) in
    let q' := if r <? half then q
              else if half <? r then q + 1
              else if Z.even q then q else q + 1 in
    Z.sgn n * (q' * 2 ^ e).

(** *** [parseInt] with no radix argument.  [None] is [NaN]; the result
    is the double nearest to the integer read. *)

Definition digit_value (radix : Z) (c : ascii) : option Z :=
  let v :=
    if in_range 48 57 c then Some (code c - 48)
    else if in_range 97 122 c then Some (code c - 87)
    else if in_range 65 90 c then Some (code c - 55)
    else None in
  match v with
  | Some d => if d <? radix then Some d else None
  | None => None
  end.

(** The longest prefix of digits, folded left to right; [seen] tells
    whether at least one digit was read. *)
Fixpoint parse_digits (radix : Z) (s : string) (acc : Z) (seen : bool) : option Z :=
  match s with
  | EmptyString => if seen then Some acc else None
  | String c s' =>
      match digit_value radix c with
      | Some d => parse_digits radix s' (acc * radix + d) true
      | None => if seen then Some acc else None
      end
  end.

Definition strip_hex_prefix (s : string) : option string :=
  match s with
  | String "0" (String "x" r) => Some r
  | String "0" (String "X" r) => Some r
  | _ => None
  end.

Definition parse_unsigned (s : string) : option Z :=
  match strip_hex_prefix s with
  | Some r => parse_digits 16 r 0 false
  | None => parse_digits 10 s 0 false
  end.

Definition parseInt (s : string) : option Z :=
  to_double <$>
  match trimStart s with
  | String "-" r => Z.opp <$> parse_unsigned r
  | String "+" r => parse_unsigned r
  | r => parse_unsigned r
  end.

End JsString.

(** *** [Math.max] and [Math.min] on numbers that may be [NaN]. *)

Definition math_max (a b : option Z) : option Z :=
  match a, b with
  | Some x, Some y => Some (Z.max x y)
  | _, _ => None
  end.

Definition math_min (a b : option Z) : option Z :=
  match a, b with
  | Some x, Some y => Some (Z.min x y)
  | _, _ => None
  end.

(* ===================================================================== *)
(** ** Regular expressions, matched by derivatives *)
(* ===================================================================== *)

Module Regex.

Inductive regex : Type :=
| Fail
| Eps
| Class (p : ascii → bool)
| Seq (r1 r2 : regex)
| Alt (r1 r2 : regex)
| Star (r : regex).

Definition Plus (r : regex) : regex := Seq r (Star r).
Definition Opt (r : regex) : regex := Alt Eps r.

Fixpoint nullable (r : regex) : bool :=
  match r with
  | Fail => false
  | Eps => true
  | Class _ => false
  | Seq r1 r2 => nullable r1 && nullable r2
  | Alt r1 r2 => nullable r1 || nullable r2
  | Star _ => true
  end.

Fixpoint deriv (c : ascii) (r : regex) : regex :=
  match r with
  | Fail => Fail
  | Eps => Fail
  | Class p => if p c then Eps else Fail
  | Seq r1 r2 =>
      if nullable r1 then Alt (Seq (deriv c r1) r2) (deriv c r2)
      else Seq (deriv c r1) r2
  | Alt r1 r2 => Alt (deriv c r1) (deriv c r2)
  | Star r1 => Seq (deriv c r1) (Star r1)
  end.

(** [test] for a pattern anchored at both ends. *)
Fixpoint test (r : regex) (s : string) : bool :=
  match s with
  | EmptyString => nullable r
  | String c s' => test (deriv c r) s'
  end.

(** The language of a pattern: the strings it matches from end to end. *)
Inductive matches : regex → string → Prop :=
| MEps : matches Eps EmptyString
| MClass (p : ascii → bool) (c : ascii) :
    p c = true → matches (Class p) (String c EmptyString)
| MSeq (r1 r2 : regex) (s1 s2 : string) :
    matches r1 s1 → matches r2 s2 → matches (Seq r1 r2) (s1 ++ s2)
| MAltL (r1 r2 : regex) (s : string) : matches r1 s → matches (Alt r1 r2) s
| MAltR (r1 r2 : regex) (s : string) : matches r2 s → matches (Alt r1 r2) s
| MStarNil (r : regex) : matches (Star r) EmptyString
| MStarApp (r : regex) (s1 s2 : string) :
    matches r s1 → matches (Star r) s2 → matches (Star r) (s1 ++ s2).

(** Every character class of the pattern lies within [P]. *)
Fixpoint classes_within (P : ascii → bool) (r : regex) : Prop :=
  match r with
  | Fail | Eps => True
  | Class p => ∀ c, p c = true → P c = true
  | Seq r1 r2 | Alt r1 r2 => classes_within P r1 ∧ classes_within P r2
  | Star r1 => classes_within P r1
  end.

End Regex.


(* ===================================================================== *)
(** ** JavaScript values, documents and the HTTP layer *)
(* ===================================================================== *)

(** The values that travel in JSON bodies and live in documents.  Numbers
    are the doubles with an integer value and [NaN]; fractional numbers
    and the infinities are outside the model. *)
#[warnings="-register-all"]
Inductive jsval : Type :=
| JUndef
| JNull
| JBool (b : bool)
| JNaN
| JNum (n : Z)
| JStr (s : string)
| JDate (t : Z)
| JArr (l : list jsval).

(** Truthiness, as tested by [!v] and [v ? a : b]. *)
Definition truthy (v : jsval) : bool :=
  match v with
  | JUndef | JNull | JNaN => false
  | JBool b => b
  | JNum n => negb (n =? 0)
  | JStr s => negb (JsString.is_empty s)
  | JDate _ | JArr _ => true
  end.

Definition of_number (n : option Z) : jsval :=
  match n with Some z => JNum z | None => JNaN end.

(** A document, a request body, an update object: field name to value.
    A field that is absent reads as [undefined]. *)
Abbreviation doc := (gmap string jsval).

Definition field (d : doc) (k : string) : jsval := default JUndef (d !! k).

(** Writing a field; Mongoose leaves out a field given as [undefined]. *)
Definition set_field (k : string) (v : jsval) (d : doc) : doc :=
  match v with
  | JUndef => d
  | _ => <[k := v]> d
  end.

Definition of_fields (l : list (string * jsval)) : doc :=
  foldr (λ kv d, set_field kv.1 kv.2 d) ∅ l.

(** Errors that a handler forwards with [next(error)]. *)
Inductive JsError : Type :=
| TypeError
| CastError
| ValidationError
| DuplicateKey
| ImmutableField.

(** [process.env], as far as the handlers read it. *)
Record Env := {
  VITE_ADMIN_EMAILS : option string;
  ADMIN_EMAILS : option string;
  OPENAI_API_KEY : option string
}.

(** What a handler takes from its surroundings: the environment, the
    clock ([Date.now()], [new Date()]), the ObjectId the driver gives the
    next inserted document, and the built-ins that are used as given:
    the store's case-insensitive [$regex] match (pattern, then subject),
    [parseFloat], [new Date(v)], [Number(s)] of a string, and
    [String(n)] of a number of magnitude [1e21] or more, which is
    written in exponent notation. *)
Record World := {
  env : Env;
  now : Z;
  fresh_id : string;
  regex_i : string → string → bool;
  parseFloat : jsval → jsval;
  newDate : jsval → jsval;
  toNumber : string → jsval;
  numberToString : Z → string
}.

Record User := { email : option string }.

Record Req := {
  user : option User;
  param_id : string;
  query : gmap string string;
  body : doc
}.

(** [const { k = dflt } = req.query]: a default number is written as its
    string, which [parseInt] reads back. *)
Definition qparam (q : gmap string string) (k dflt : string) : string :=
  default dflt (q !! k).

Inductive Payload : Type :=
| PNone
| PDoc (d : doc)
| PDocs (ds : list doc)
| PText (s : string).

Record Pagination := {
  pg_page : option Z;
  pg_limit : option Z;
  pg_total : Z;
  pg_pages : option Z;
  pg_hasNext : option bool;
  pg_hasPrev : option bool
}.

Record Response := {
  status : Z;
  success : option bool;
  error : option string;
  message : option string;
  data : Payload;
  pagination : option Pagination;
  count : option Z
}.

Inductive Outcome : Type :=
| Respond (r : Response)
| NextError (e : JsError).

Definition status_of (o : Outcome) : option Z :=
  match o with
  | Respond r => Some (status r)
  | NextError _ => None
  end.

(** [res.status(st).json({ success: false, message })] *)
Definition failure (st : Z) (msg : string) : Response :=
  {| status := st; success := Some false; error := None; message := Some msg;
     data := PNone; pagination := None; count := None |}.

(** [res.status(st).json({ success: false, error, message })] *)
Definition refusal (st : Z) (err msg : string) : Response :=
  {| status := st; success := Some false; error := Some err; message := Some msg;
     data := PNone; pagination := None; count := None |}.

(** [res.status(st).json({ success: true, data, message })] *)
Definition success_with (st : Z) (p : Payload) (msg : option string) : Response :=
  {| status := st; success := Some true; error := None; message := msg;
     data := p; pagination := None; count := None |}.

(** The database: the [books] collection and the collection behind the
    [BookRequest] model, which both request sub-APIs import. *)
Record Db := {
  books : list doc;
  requests : list doc
}.

Definition with_books (db : Db) (bs : list doc) : Db :=
  {| books := bs; requests := requests db |}.
Definition with_requests (db : Db) (rs : list doc) : Db :=
  {| books := books db; requests := rs |}.

(* ===================================================================== *)
(** ** middleware/adminAuth.js *)
(* ===================================================================== *)

Module AdminAuth.
Import JsString.

(** [a || b] on environment strings: an unset or empty value is falsy. *)
Definition env_or (a : option string) (b : string) : string :=
  match a with
  | Some s => if is_empty s then b else s
  | None => b
  end.

Definition adminEnv (e : Env) : string :=
  env_or (VITE_ADMIN_EMAILS e) (env_or (ADMIN_EMAILS e) "").

Definition getAdminEmails (e : Env) : list string :=
  let adminEnv := adminEnv e in
  if is_empty adminEnv then []
  else
    List.filter (λ email, (0 <? String.length email)%nat)
      (List.map (λ email, toLowerCase (trim email)) (split "," adminEnv)).

(** [Array.prototype.includes] on strings. *)
Definition array_includes (l : list string) (s : string) : bool :=
  existsb (String.eqb s) l.

Definition isAdminEmail (e : Env) (email : option string) : bool :=
  match email with
  | None => false
  | Some email =>
      if is_empty email then false
      else array_includes (getAdminEmails e) (toLowerCase email)
  end.

(** [requireAdmin]: [None] stands for the call of [next()].  With the
    email a string or absent nothing in the [try] block throws, so the
    500 answer of the [catch] block is not reached. *)
Definition requireAdmin (w : World) (req : Req) : option Response :=
  match user req with
  | None =>
      Some (refusal 401 "Unauthorized"
              "Authentication required. Please provide a valid token.")
  | Some u =>
      match email u with
      | None => Some (refusal 401 "Unauthorized" "User email not found in token.")
      | Some em =>
          if is_empty em then
            Some (refusal 401 "Unauthorized" "User email not found in token.")
          else if negb (isAdminEmail (env w) (Some em)) then
            Some (refusal 403 "Forbidden"
                    ("Access denied. Only administrators can perform this action. Admin email: " ++ em))
          else None
      end
  end.

(** The test every controller inlines:
    [!req.user || !isAdminEmail(req.user.email)]. *)
Definition not_admin (w : World) (req : Req) : bool :=
  match user req with
  | None => true
  | Some u => negb (isAdminEmail (env w) (email u))
  end.

(** What [attachAdminInfo] writes on the request before it calls
    [next()], which it always does. *)
Record AdminInfo := {
  adminEmail : option string;
  isAdmin : bool
}.

Definition attachAdminInfo (w : World) (req : Req) : AdminInfo :=
  match user req with
  | Some u =>
      match email u with
      | Some em =>
          if negb (is_empty em) && isAdminEmail (env w) (Some em)
          then {| adminEmail := Some em; isAdmin := true |}
          else {| adminEmail := None; isAdmin := false |}
      | None => {| adminEmail := None; isAdmin := false |}
      end
  | None => {| adminEmail := None; isAdmin := false |}
  end.

End AdminAuth.


(* ===================================================================== *)
(** ** The object-document mapper, as far as the handlers use it *)
(* ===================================================================== *)

Module Mongoose.
Import JsString.

(** A stored [_id] is the lower-case hexadecimal form of the ObjectId; an
    id given in upper case denotes the same ObjectId. *)
Definition has_id (id : string) (d : doc) : bool :=
  match d !! "_id" with
  | Some (JStr s) => String.eqb s (toLowerCase id)
  | _ => false
  end.

Definition findById (id : string) (c : list doc) : option doc :=
  List.find (has_id id) c.

Fixpoint replaceById (id : string) (d' : doc) (c : list doc) : list doc :=
  match c with
  | [] => []
  | d :: c' => if has_id id d then d' :: c' else d :: replaceById id d' c'
  end.

Fixpoint deleteById (id : string) (c : list doc) : list doc :=
  match c with
  | [] => []
  | d :: c' => if has_id id d then c' else d :: deleteById id c'
  end.

(** [doc.save()] of a new document: the driver assigns the ObjectId. *)
Definition insertOne (w : World) (d : doc) (c : list doc) : doc * list doc :=
  let d' := <["_id" := JStr (fresh_id w)]> d in
  (d', (c ++ [d'])%list).

(** *** Sorting *)

(** The comparison order of the store across types: null and missing
    fields first, then numbers, strings, arrays, booleans and dates.
    Strings compare by code unit; arrays are not compared element-wise. *)
Definition type_rank (v : jsval) : Z :=
  match v with
  | JUndef | JNull => 0
  | JNaN | JNum _ => 1
  | JStr _ => 2
  | JArr _ => 3
  | JBool _ => 4
  | JDate _ => 5
  end.

Definition compare_val (a b : jsval) : comparison :=
  match a, b with
  | JNum x, JNum y => x ?= y
  | JNaN, JNum _ => Lt
  | JNum _, JNaN => Gt
  | JStr x, JStr y => String.compare x y
  | JBool x, JBool y => Bool.compare x y
  | JDate x, JDate y => x ?= y
  | _, _ => type_rank a ?= type_rank b
  end.

(** A sort specification: the paths in order, [true] for descending. *)
Definition SortSpec := list (string * bool).

Fixpoint compare_docs (spec : SortSpec) (a b : doc) : comparison :=
  match spec with
  | [] => Eq
  | (k, desc) :: rest =>
      match compare_val (field a k) (field b k) with
      | Eq => compare_docs rest a b
      | c => if desc : bool then CompOpp c else c
      end
  end.

Fixpoint insert_sorted (spec : SortSpec) (d : doc) (l : list doc) : list doc :=
  match l with
  | [] => [d]
  | x :: l' =>
      match compare_docs spec d x with
      | Gt => x :: insert_sorted spec d l'
      | _ => d :: x :: l'
      end
  end.

(** A stable sort: documents that compare equal keep their natural order. *)
Definition sort_docs (spec : SortSpec) (l : list doc) : list doc :=
  foldr (insert_sorted spec) [] l.

(** Splitting at white space, dropping empty words. *)
Fixpoint words_aux (s : string) (cur : string) : list string :=
  match s with
  | EmptyString => if is_empty cur then [] else [cur]
  | String c s' =>
      if is_space c then
        (if is_empty cur then words_aux s' EmptyString
         else cur :: words_aux s' EmptyString)
      else words_aux s' (cur ++ String c EmptyString)%string
  end.

(** [Query.prototype.sort] given a string: a space delimited list of
    paths, each ascending unless prefixed with [-]. *)
Definition parse_sort (s : string) : SortSpec :=
  List.map (λ f, match f with
                 | String "-" f' => (f', true)
                 | _ => (f, false)
                 end) (words_aux s EmptyString).

(** *** Queries *)

(** [find(filter).sort(..).skip(..).limit(..).select(..)]: the order of
    the chained calls does not matter.  [None] in [q_skip] or [q_limit]
    is [NaN]; [0] is the value of a query that sets no skip, and of one
    that sets no limit. *)
Record Query := {
  q_filter : doc → bool;
  q_sort : SortSpec;
  q_skip : option Z;
  q_limit : option Z;
  q_exclude : list string
}.

Definition exclude (ks : list string) (d : doc) : doc :=
  foldr (λ k d, delete k d) d ks.

(** A limit of [0] is no limit; the store reads a negative limit as its
    absolute value. *)
Definition take_limit (n : Z) (l : list doc) : list doc :=
  if n =? 0 then l else take (Z.to_nat (Z.abs n)) l.

(** The driver refuses a skip or limit that is not a number and a
    negative skip. *)
Definition exec (q : Query) (c : list doc) : option (list doc) :=
  match q_skip q, q_limit q with
  | Some s, Some n =>
      if s <? 0 then None
      else Some (List.map (exclude (q_exclude q))
                   (take_limit n
                      (drop (Z.to_nat s)
                         (sort_docs (q_sort q) (List.filter (q_filter q) c)))))
  | _, _ => None
  end.

Definition countDocuments (f : doc → bool) (c : list doc) : Z :=
  Z.of_nat (length (List.filter f c)).

(** The filter [{ k: v }] on a string field. *)
Definition field_is (k v : string) (d : doc) : bool :=
  match field d k with
  | JStr s => String.eqb s v
  | _ => false
  end.

End Mongoose.


(** *** Schemas: strict paths, casting, validators *)

Module Schema.
Import JsString.

Inductive SchemaType : Type := SString | SDate | SNumber.

(** A path of a schema.  An immutable path can be given when a document
    is created and is left out of every later update. *)
Record Path := {
  p_name : string;
  p_type : SchemaType;
  p_required : bool;
  p_enum : list string;
  p_default : option (World → jsval);
  p_immutable : bool
}.

(** The names of the paths of a schema. *)
Definition path_names (schema : list Path) : list string :=
  List.map p_name schema.

Definition is_path (schema : list Path) (k : string) : bool :=
  existsb (String.eqb k) (path_names schema).

(** Casting a value to the type of its path; [None] is a cast error.
    A date given as a string is read by [new Date], a number given as a
    string by [Number]; the empty string is no number. *)
Definition cast (w : World) (ty : SchemaType) (v : jsval) : option jsval :=
  match ty, v with
  | _, JUndef => Some JUndef
  | _, JNull => Some JNull
  | SString, JStr s => Some (JStr s)
  | SString, JNum n => Some (JStr (pretty n))
  | SString, JBool b => Some (JStr (if b then "true" else "false"))
  | SString, JNaN => Some (JStr "NaN")
  | SString, (JDate _ | JArr _) => None
  | SDate, JDate t => Some (JDate t)
  | SDate, JNum n => Some (JDate n)
  | SDate, JStr s =>
      match newDate w (JStr s) with
      | JDate t => Some (JDate t)
      | _ => None
      end
  | SDate, (JBool _ | JNaN | JArr _) => None
  | SNumber, JNum n => Some (JNum n)
  | SNumber, JBool b => Some (JNum (if b then 1 else 0))
  | SNumber, JDate t => Some (JNum t)
  | SNumber, JStr s =>
      if is_empty s then Some JNull
      else match toNumber w s with
           | JNum n => Some (JNum n)
           | _ => None
           end
  | SNumber, (JNaN | JArr _) => None
  end.

(** Casting a value to an ObjectId, written as its lower-case
    hexadecimal string; [None] is a cast error.  A string must have the
    24 hexadecimal digits; any other value is converted to a string
    first, which for an array of one element is that element's. *)
Fixpoint cast_id (v : jsval) : option string :=
  match v with
  | JStr s => if isObjectIdFormat s then Some (toLowerCase s) else None
  | JArr (x :: []) => cast_id x
  | _ => None
  end.

(** [new Model(obj)]: strict mode keeps the paths of the schema only,
    casts what is given and fills in defaults. *)
Fixpoint construct (w : World) (schema : list Path) (obj : doc) : option doc :=
  match schema with
  | [] => Some ∅
  | p :: rest =>
      d ← construct w rest obj;
      match field obj (p_name p) with
      | JUndef =>
          Some (match p_default p with
                | Some dflt => set_field (p_name p) (dflt w) d
                | None => d
                end)
      | v => v' ← cast w (p_type p) v; Some (set_field (p_name p) v' d)
      end
  end.

(** The [required] validator refuses a missing value, [null] and the
    empty string. *)
Definition is_missing (v : jsval) : bool :=
  match v with
  | JUndef | JNull => true
  | JStr s => is_empty s
  | _ => false
  end.

Definition enum_ok (allowed : list string) (v : jsval) : bool :=
  match allowed, v with
  | [], _ => true
  | _, JStr s => existsb (String.eqb s) allowed
  | _, (JUndef | JNull) => true
  | _, _ => false
  end.

(** Validation of a whole document, run by [save()]. *)
Definition validate (schema : list Path) (d : doc) : bool :=
  forallb (λ p, (negb (p_required p) || negb (is_missing (field d (p_name p))))
                && enum_ok (p_enum p) (field d (p_name p))) schema.

(** [new Model(obj).save()] on a schema with [timestamps: true] and the
    version key.  The [_id] is the one the object gives, or else the
    driver's; a value that cannot be cast, on [_id] or on a path, and a
    document that fails validation are reported by [save()] as a
    validation error, an [_id] that is already stored as a duplicate
    key.  The insert writes [createdAt] (the one given, or else now),
    [updatedAt] (the same instant) and the version key 0. *)
Definition save_new (w : World) (schema : list Path) (obj : doc) (c : list doc)
  : JsError + (doc * list doc) :=
  match (match field obj "_id" with
         | JUndef => Some (fresh_id w)
         | v => cast_id v
         end),
        construct w schema obj with
  | Some id, Some d =>
      if negb (validate schema d) then inl ValidationError
      else if existsb (Mongoose.has_id id) c then inl DuplicateKey
      else
        let created := match field d "createdAt" with
                       | JDate t => JDate t
                       | _ => JDate (now w)
                       end in
        let d' := <["_id" := JStr id]>
                    (<["__v" := JNum 0]>
                       (<["updatedAt" := created]> (<["createdAt" := created]> d))) in
        inr (d', (c ++ [d'])%list)
  | _, _ => inl ValidationError
  end.

(** Equality of values, as [save()] uses it to tell whether an
    assignment changed a path. *)
Fixpoint jsval_eqb (a b : jsval) : bool :=
  match a, b with
  | JUndef, JUndef | JNull, JNull | JNaN, JNaN => true
  | JBool x, JBool y => Bool.eqb x y
  | JNum x, JNum y => x =? y
  | JStr x, JStr y => String.eqb x y
  | JDate x, JDate y => x =? y
  | JArr l, JArr m =>
      (fix all2 (l m : list jsval) : bool :=
         match l, m with
         | [], [] => true
         | x :: l', y :: m' => jsval_eqb x y && all2 l' m'
         | _, _ => false
         end) l m
  | _, _ => false
  end.

(** [doc.k = v] on a loaded document, for a value of the type of the
    path: in strict mode an assignment to a key that is not a path of
    the schema does not reach the document; it is neither saved nor
    serialised. *)
Definition assign (schema : list Path) (k : string) (v : jsval) (d : doc) : doc :=
  if is_path schema k then <[k := v]> d else d.

(** Some path of the schema has another value in [d'] than in [d]. *)
Definition modified (schema : list Path) (d d' : doc) : bool :=
  negb (forallb (λ p, jsval_eqb (field d (p_name p)) (field d' (p_name p))) schema).

(** [doc.save()] of the loaded document [d] after assignments that made
    it [d']: the whole document is validated; when a path was modified
    the timestamps set [updatedAt], and the document is written. *)
Definition save (w : World) (schema : list Path) (id : string) (d d' : doc)
    (c : list doc) : JsError + (doc * list doc) :=
  if negb (validate schema d') then inl ValidationError
  else
    let d'' := if modified schema d d' then <["updatedAt" := JDate (now w)]> d'
               else d' in
    inr (d'', Mongoose.replaceById id d'' c).

(** The part of an update object that strict mode keeps, cast to the
    types of its paths; keys given as [undefined] and immutable paths
    are left out. *)
Fixpoint cast_update (w : World) (schema : list Path) (upd : doc) : option doc :=
  match schema with
  | [] => Some ∅
  | p :: rest =>
      d ← cast_update w rest upd;
      if p_immutable p then Some d
      else
        v' ← cast w (p_type p) (field upd (p_name p));
        Some (set_field (p_name p) v' d)
  end.

(** [{ $inc: { k: n } }] as strict mode casts it: the increment of a key
    that is not a path of the schema is dropped. *)
Definition cast_inc (schema : list Path) (k : string) (n : Z) : option (string * Z) :=
  if is_path schema k then Some (k, n) else None.

(** The store's [$inc]: a missing field counts from zero; a field that
    is not a number is refused. *)
Definition apply_inc (inc : option (string * Z)) (d : doc) : option doc :=
  match inc with
  | None => Some d
  | Some (k, n) =>
      match d !! k with
      | None => Some (<[k := JNum n]> d)
      | Some (JNum m) => Some (<[k := JNum (m + n)]> d)
      | Some _ => None
      end
  end.

(** Update validators ([runValidators: true]) look at the paths that the
    update sets. *)
Definition validate_update (schema : list Path) (upd : doc) : bool :=
  forallb (λ p, match upd !! p_name p with
                | None => true
                | Some v => (negb (p_required p) || negb (is_missing v))
                            && enum_ok (p_enum p) v
                end) schema.

(** What an update says about [_id]: [None] when the value cannot be
    cast, otherwise whether it leaves the [_id] of document [id] as it
    is.  The store refuses to change the [_id] of a document. *)
Definition keeps_id (id : string) (upd : doc) : option bool :=
  match field upd "_id" with
  | JUndef => Some true
  | JNull => Some false
  | v => String.eqb (toLowerCase id) <$> cast_id v
  end.

(** [Model.findByIdAndUpdate(id, upd, { new: true, runValidators })] with
    an optional [$inc], on a schema with [timestamps: true]: the error,
    or the updated document when one has that id.  The update is cast
    and validated before the store is asked; the timestamps set
    [updatedAt] in every update. *)
Definition findByIdAndUpdate (w : World) (schema : list Path) (runValidators : bool)
    (id : string) (upd : doc) (inc : option (string * Z)) (c : list doc)
  : (JsError + option doc) * list doc :=
  if negb (isObjectIdFormat id) then (inl CastError, c)
  else
    match cast_update w schema upd, keeps_id id upd with
    | Some set, Some keeps =>
        if runValidators && negb (validate_update schema set)
        then (inl ValidationError, c)
        else
          match Mongoose.findById id c with
          | None => (inr None, c)
          | Some d =>
              if negb keeps then (inl ImmutableField, c)
              else
                match apply_inc inc d with
                | None => (inl TypeError, c)
                | Some d1 =>
                    let d' := <["updatedAt" := JDate (now w)]> (set ∪ d1) in
                    (inr (Some d'), Mongoose.replaceById id d' c)
                end
          end
    | _, _ => (inl CastError, c)
    end.

End Schema.


(* ===================================================================== *)
(** ** routes/bookRequests.js: the [/book-requests] router *)
(* ===================================================================== *)

Module BookRequestRoutes.
Import JsString Mongoose Schema.

(** The schema of [Model/BookRequestSchema.js]: the nine paths it
    declares, and the two that its options add: [createdAt], which
    [timestamps: true] adds as an immutable date ([updatedAt] is
    declared), and the version key [__v].  The [_id] is kept apart. *)
Definition bookRequestSchema : list Path :=
  [ {| p_name := "bookName"; p_type := SString; p_required := true;
       p_enum := []; p_default := None; p_immutable := false |};
    {| p_name := "author"; p_type := SString; p_required := true;
       p_enum := []; p_default := None; p_immutable := false |};
    {| p_name := "ISBN"; p_type := SString; p_required := false;
       p_enum := []; p_default := None; p_immutable := false |};
    {| p_name := "requestedBy"; p_type := SString; p_required := true;
       p_enum := []; p_default := None; p_immutable := false |};
    {| p_name := "requestedByUid"; p_type := SString; p_required := true;
       p_enum := []; p_default := None; p_immutable := false |};
    {| p_name := "status"; p_type := SString; p_required := false;
       p_enum := ["pending"; "approved"; "rejected"];
       p_default := Some (λ _, JStr "pending"); p_immutable := false |};
    {| p_name := "adminNotes"; p_type := SString; p_required := false;
       p_enum := []; p_default := None; p_immutable := false |};
    {| p_name := "requestedAt"; p_type := SDate; p_required := false;
       p_enum := []; p_default := Some (λ w, JDate (now w));
       p_immutable := false |};
    {| p_name := "updatedAt"; p_type := SDate; p_required := false;
       p_enum := []; p_default := Some (λ w, JDate (now w));
       p_immutable := false |};
    {| p_name := "createdAt"; p_type := SDate; p_required := false;
       p_enum := []; p_default := None; p_immutable := true |};
    {| p_name := "__v"; p_type := SNumber; p_required := false;
       p_enum := []; p_default := None; p_immutable := false |} ].

Definition error_message (e : JsError) : string :=
  match e with
  | TypeError => "TypeError"
  | CastError => "Cast failed"
  | ValidationError => "Validation failed"
  | DuplicateKey => "E11000 duplicate key error"
  | ImmutableField => "Performing an update on the path '_id' would modify the immutable field '_id'"
  end.

(** [res.status(st).json(payload)] *)
Definition json (st : Z) (p : Payload) : Response :=
  {| status := st; success := None; error := None; message := None;
     data := p; pagination := None; count := None |}.

(** [res.status(st).json({ message })] *)
Definition json_message (st : Z) (msg : string) : Response :=
  {| status := st; success := None; error := None; message := Some msg;
     data := PNone; pagination := None; count := None |}.

(** [res.status(st).json({ message, error: error.message })] *)
Definition json_error (st : Z) (msg : string) (e : JsError) : Response :=
  {| status := st; success := None; error := Some (error_message e);
     message := Some msg; data := PNone; pagination := None; count := None |}.

(** [router.get('/:id')] *)
Definition get_by_id (w : World) (req : Req) (db : Db) : Outcome * Db :=
  if negb (isObjectIdFormat (param_id req)) then
    (Respond (json_error 500 "Error fetching book request" CastError), db)
  else
    match findById (param_id req) (requests db) with
    | None => (Respond (json_message 404 "Book request not found"), db)
    | Some request => (Respond (json 200 (PDoc request)), db)
    end.

(** [router.post('/')] *)
Definition post (w : World) (req : Req) (db : Db) : Outcome * Db :=
  match save_new w bookRequestSchema (body req) (requests db) with
  | inl e => (Respond (json_error 400 "Error creating book request" e), db)
  | inr (savedRequest, rs) =>
      (Respond (json 201 (PDoc savedRequest)), with_requests db rs)
  end.

(** [router.put('/:id')] *)
Definition put (w : World) (req : Req) (db : Db) : Outcome * Db :=
  let upd := <["updatedAt" := JNum (now w)]> (body req) in
  match findByIdAndUpdate w bookRequestSchema true (param_id req) upd None
          (requests db) with
  | (inl e, _) => (Respond (json_error 400 "Error updating book request" e), db)
  | (inr None, _) => (Respond (json_message 404 "Book request not found"), db)
  | (inr (Some updatedRequest), rs) =>
      (Respond (json 200 (PDoc updatedRequest)), with_requests db rs)
  end.

(** [router.patch('/:id/status')] *)
Definition patch_status (w : World) (req : Req) (db : Db) : Outcome * Db :=
  let status := field (body req) "status" in
  let adminNotes := field (body req) "adminNotes" in
  let upd := of_fields [("status", status); ("adminNotes", adminNotes);
                        ("updatedAt", JNum (now w))] in
  match findByIdAndUpdate w bookRequestSchema true (param_id req) upd None
          (requests db) with
  | (inl e, _) => (Respond (json_error 400 "Error updating request status" e), db)
  | (inr None, _) => (Respond (json_message 404 "Book request not found"), db)
  | (inr (Some updatedRequest), rs) =>
      (Respond (json 200 (PDoc updatedRequest)), with_requests db rs)
  end.

(** [router.delete('/:id')] *)
Definition delete_request (w : World) (req : Req) (db : Db) : Outcome * Db :=
  if negb (isObjectIdFormat (param_id req)) then
    (Respond (json_error 500 "Error deleting book request" CastError), db)
  else
    match findById (param_id req) (requests db) with
    | None => (Respond (json_message 404 "Book request not found"), db)
    | Some deletedRequest =>
        (Respond {| status := 200; success := None; error := None;
                    message := Some "Book request deleted successfully";
                    data := PDoc deletedRequest; pagination := None;
                    count := None |},
         with_requests db (deleteById (param_id req) (requests db)))
    end.

(** The query of [router.get('/')]: every request, or those with the
    status asked for, newest first; no skip and no limit. *)
Definition allQuery (q : gmap string string) : Query :=
  let status := qparam q "status" "" in
  {| q_filter := λ d, is_empty status || field_is "status" status d;
     q_sort := [("requestedAt", true)];
     q_skip := Some 0;
     q_limit := Some 0;
     q_exclude := [] |}.

(** [router.get('/')] *)
Definition get_all (w : World) (req : Req) (db : Db) : Outcome * Db :=
  match exec (allQuery (query req)) (requests db) with
  | None => (Respond (json_error 500 "Error fetching book requests" CastError), db)
  | Some requests' => (Respond (json 200 (PDocs requests')), db)
  end.

(** [router.get('/user/:uid')]; the uid is the route parameter. *)
Definition get_by_user (uid : string) (db : Db) : Outcome * Db :=
  let q := {| q_filter := field_is "requestedByUid" uid;
              q_sort := [("requestedAt", true)];
              q_skip := Some 0;
              q_limit := Some 0;
              q_exclude := [] |} in
  match exec q (requests db) with
  | None => (Respond (json_error 500 "Error fetching user requests" CastError), db)
  | Some requests' => (Respond (json 200 (PDocs requests')), db)
  end.

(** The value [new Model(obj)] gives the path [p]. *)
Definition constructed (w : World) (p : Path) (obj : doc) : option jsval :=
  match field obj (p_name p) with
  | JUndef => Some (match p_default p with Some dflt => dflt w | None => JUndef end)
  | v => cast w (p_type p) v
  end.

(** The fields the schema requires. *)
Definition required_fields : list string :=
  ["bookName"; "author"; "requestedBy"; "requestedByUid"].

(** The paths an update can write: all but the immutable ones. *)
Definition updatable_paths : list string :=
  path_names (List.filter (λ p, negb (p_immutable p)) bookRequestSchema).

End BookRequestRoutes.


(* ===================================================================== *)
(** ** Helpers shared by the controllers *)
(* ===================================================================== *)

Module Handler.
Import JsString.

(** A handler body that may finish early: with a response ([return
    res.status(..).json(..)]) or with an exception caught by the
    [try]/[catch] around it and forwarded with [next(error)]. *)
Definition Early (A : Type) : Type := (Outcome + A)%type.

#[global] Instance Early_ret : MRet Early := λ A a, inr a.
#[global] Instance Early_bind : MBind Early :=
  λ A B f m, match m with inl o => inl o | inr a => f a end.

Definition respond {A} (r : Response) : Early A := inl (Respond r).
Definition throw {A} (e : JsError) : Early A := inl (NextError e).

(** [if (c) return res...] *)
Definition reject_if (c : bool) (r : Response) : Early unit :=
  if c then respond r else mret tt.

(** [if (!v || !v.trim()) return res...]: past the test [v] is a string
    with something other than white space in it; [trim] of a truthy
    value that is not a string throws. *)
Definition filled (v : jsval) (r : Response) : Early string :=
  if negb (truthy v) then respond r
  else match v with
       | JStr s => if is_empty (trim s) then respond r else mret s
       | _ => throw TypeError
       end.

(** [v ? v.trim() : dflt] *)
Definition trim_or (v : jsval) (dflt : jsval) : Early jsval :=
  if negb (truthy v) then mret dflt
  else match v with
       | JStr s => mret (JStr (trim s))
       | _ => throw TypeError
       end.

(** [v || dflt] *)
Definition js_or (v dflt : jsval) : jsval := if truthy v then v else dflt.

(** [parseInt(v)]: the argument is converted to a string first.  A
    number below [1e21] in magnitude is written with digits that read
    back as the same double; from [1e21] on it is written in exponent
    notation, of which only the digit before the point is read.  Of an
    array only its first element can contribute digits. *)
Fixpoint parseInt_val (w : World) (v : jsval) : option Z :=
  match v with
  | JStr s => parseInt s
  | JNum n =>
      if Z.abs n <? 10 ^ 21 then Some (to_double n) else parseInt (numberToString w n)
  | JArr (x :: _) => parseInt_val w x
  | _ => None
  end.

(** A handler runs against the database; an early exit leaves it as it
    was. *)
Definition run (db : Db) (h : Early (Outcome * Db)) : Outcome * Db :=
  match h with
  | inl o => (o, db)
  | inr r => r
  end.

(** [req.user.email], read after the admin test has passed. *)
Definition user_email (req : Req) : jsval :=
  match user req with
  | Some u => match email u with Some e => JStr e | None => JUndef end
  | None => JUndef
  end.

(** The three lines every paginated handler repeats. *)
Definition pageNum (page : string) : option Z :=
  math_max (Some 1) (parseInt page).
Definition limitNum (limit : string) : option Z :=
  math_min (Some 100) (math_max (Some 1) (parseInt limit)).
Definition skip_of (pageNum limitNum : option Z) : option Z :=
  match pageNum, limitNum with
  | Some p, Some l => Some ((p - 1) * l)
  | _, _ => None
  end.

(** [Math.ceil(total / limitNum)]; a limit of zero or [NaN] gives no
    integer. *)
Definition pages_of (total : Z) (limitNum : option Z) : option Z :=
  match limitNum with
  | Some l => if l =? 0 then None else Some (- ((- total) / l))
  | None => None
  end.

(** [a < b] and [a > b] on numbers: false when either is [NaN]. *)
Definition num_lt (a b : option Z) : bool :=
  match a, b with
  | Some x, Some y => x <? y
  | _, _ => false
  end.

End Handler.


(* ===================================================================== *)
(** ** controllers/bookRequestController.js *)
(* ===================================================================== *)

(** The controller imports the model of [Model/BookRequestSchema.js],
    the one the router works on.  Its schema has none of the fields
    [title], [requesterEmail], [upvotes], [respondedBy] and [respondedAt]
    that this controller writes: in strict mode what the controller
    writes to them does not reach the stored document, and what it
    saves is validated against the paths the schema does declare.
    Filters, sort keys and documents read from the store are not bound
    by the schema: a stored document is returned with all its fields. *)

Module BookRequestController.
Import JsString Regex Mongoose Schema Handler AdminAuth.

(** The model the controller imports is the one of the router:
    [Model/BookRequestSchema.js]. *)
Definition BookRequest : list Path := BookRequestRoutes.bookRequestSchema.

Definition word : regex := Class is_word.
Definition dot_or_dash : regex :=
  Class (λ c, Ascii.eqb c "." || Ascii.eqb c "-")%bool.
Definition dot : regex := Class (λ c, Ascii.eqb c ".").
Definition at_sign : regex := Class (λ c, Ascii.eqb c "@").

(** [/^\w+([\.-]?\w+)*@\w+([\.-]?\w+)*(\.\w{2,3})+$/] *)
Definition emailRegex : regex :=
  Seq (Plus word)
   (Seq (Star (Seq (Opt dot_or_dash) (Plus word)))
    (Seq at_sign
     (Seq (Plus word)
      (Seq (Star (Seq (Opt dot_or_dash) (Plus word)))
           (Plus (Seq dot (Seq word (Seq word (Opt word))))))))).

(** The characters of an accepted address besides the [@]: word
    characters, the dot and the dash. *)
Definition email_char (c : ascii) : bool :=
  is_word c || Ascii.eqb c "." || Ascii.eqb c "-".

Definition createBookRequest (w : World) (req : Req) (db : Db) : Outcome * Db :=
  let b := body req in
  let description := field b "description" in
  let requesterName := field b "requesterName" in
  let isbn := field b "isbn" in
  let genre := field b "genre" in
  let publishYear := field b "publishYear" in
  run db (
    title ← filled (field b "title") (failure 400 "Book title is required");
    author ← filled (field b "author") (failure 400 "Book author is required");
    requesterEmail ← filled (field b "requesterEmail")
                       (failure 400 "Requester email is required");
    reject_if (negb (test emailRegex requesterEmail))
      (failure 400 "Please provide a valid email address");;
    description' ← trim_or description (JStr "");
    requesterName' ← trim_or requesterName (JStr "Anonymous");
    isbn' ← trim_or isbn (JStr "");
    let bookRequest := of_fields
      [ ("title", JStr (trim title));
        ("author", JStr (trim author));
        ("description", description');
        ("requesterEmail", JStr (trim (toLowerCase requesterEmail)));
        ("requesterName", requesterName');
        ("isbn", isbn');
        ("genre", js_or genre (JStr "Other"));
        ("publishYear", if truthy publishYear
                        then of_number (parseInt_val w publishYear) else JNull);
        ("status", JStr "pending") ] in
    match save_new w BookRequest bookRequest (requests db) with
    | inl e => throw e
    | inr (saved, rs) =>
        mret (Respond (success_with 201 (PDoc saved)
                 (Some "Book request submitted successfully. Admins will review it soon!")),
              with_requests db rs)
    end).

(** The assignments of [approveBookRequest] to the loaded document. *)
Definition approve (w : World) (by_email : jsval) (notes : option string)
    (request : doc) : doc :=
  let r1 := assign BookRequest "status" (JStr "approved") request in
  let r2 := assign BookRequest "respondedBy" by_email r1 in
  let r3 := assign BookRequest "respondedAt" (JDate (now w)) r2 in
  match notes with
  | Some n => assign BookRequest "adminNotes" (JStr n) r3
  | None => r3
  end.

(** [await request.save(); res.status(200).json({ data: request, .. })] *)
Definition save_and_answer (w : World) (db : Db) (id : string) (request request' : doc)
    (msg : string) : Early (Outcome * Db) :=
  match save w BookRequest id request request' (requests db) with
  | inl e => throw e
  | inr (saved, rs) =>
      mret (Respond (success_with 200 (PDoc saved) (Some msg)), with_requests db rs)
  end.

Definition approveBookRequest (w : World) (req : Req) (db : Db) : Outcome * Db :=
  run db (
    reject_if (not_admin w req)
      (refusal 403 "Forbidden" "Only administrators can approve book requests.");;
    let id := param_id req in
    let adminNotes := field (body req) "adminNotes" in
    reject_if (negb (isObjectIdFormat id)) (failure 400 "Invalid request ID format");;
    match findById id (requests db) with
    | None => respond (failure 404 "Book request not found")
    | Some request =>
        notes ← (if truthy adminNotes
                 then match adminNotes with
                      | JStr s => mret (Some (trim s))
                      | _ => throw TypeError
                      end
                 else mret None);
        save_and_answer w db id request (approve w (user_email req) notes request)
          "Book request approved successfully"
    end).

(** The assignments of [rejectBookRequest] to the loaded document. *)
Definition reject (w : World) (by_email : jsval) (notes : string)
    (request : doc) : doc :=
  let r1 := assign BookRequest "status" (JStr "rejected") request in
  let r2 := assign BookRequest "respondedBy" by_email r1 in
  let r3 := assign BookRequest "respondedAt" (JDate (now w)) r2 in
  assign BookRequest "adminNotes" (JStr notes) r3.

Definition rejectBookRequest (w : World) (req : Req) (db : Db) : Outcome * Db :=
  run db (
    reject_if (not_admin w req)
      (refusal 403 "Forbidden" "Only administrators can reject book requests.");;
    let id := param_id req in
    reject_if (negb (isObjectIdFormat id)) (failure 400 "Invalid request ID format");;
    adminNotes ← filled (field (body req) "adminNotes")
                   (failure 400 "Rejection reason (adminNotes) is required");
    match findById id (requests db) with
    | None => respond (failure 404 "Book request not found")
    | Some request =>
        save_and_answer w db id request
          (reject w (user_email req) (trim adminNotes) request)
          "Book request rejected"
    end).

Definition markRequestFulfilled (w : World) (req : Req) (db : Db) : Outcome * Db :=
  run db (
    reject_if (not_admin w req)
      (refusal 403 "Forbidden" "Only administrators can mark requests as fulfilled.");;
    let id := param_id req in
    reject_if (negb (isObjectIdFormat id)) (failure 400 "Invalid request ID format");;
    match findById id (requests db) with
    | None => respond (failure 404 "Book request not found")
    | Some request =>
        save_and_answer w db id request
          (assign BookRequest "status" (JStr "fulfilled") request)
          "Request marked as fulfilled"
    end).

(** [findByIdAndUpdate(id, { $inc: { upvotes: 1 } }, { new: true })] *)
Definition upvoteRequest (w : World) (req : Req) (db : Db) : Outcome * Db :=
  run db (
    let id := param_id req in
    reject_if (negb (isObjectIdFormat id)) (failure 400 "Invalid request ID format");;
    match findByIdAndUpdate w BookRequest false id ∅ (cast_inc BookRequest "upvotes" 1)
            (requests db) with
    | (inl e, _) => throw e
    | (inr None, _) => respond (failure 404 "Book request not found")
    | (inr (Some request), rs) =>
        mret (Respond (success_with 200 (PDoc request)
                 (Some "Request upvoted successfully")),
              with_requests db rs)
    end).

Definition paged (st : Z) (ds : list doc) (p : Pagination) : Response :=
  {| status := st; success := Some true; error := None; message := None;
     data := PDocs ds; pagination := Some p; count := None |}.

(** The query that [getPendingRequests] builds from [req.query]. *)
Definition pendingQuery (q : gmap string string) : Query :=
  let pageNum := pageNum (qparam q "page" "1") in
  let limitNum := limitNum (qparam q "limit" "10") in
  {| q_filter := field_is "status" "pending";
     q_sort := parse_sort (qparam q "sort" "-upvotes");
     q_skip := skip_of pageNum limitNum;
     q_limit := limitNum;
     q_exclude := ["adminNotes"] |}.

Definition getPendingRequests (w : World) (req : Req) (db : Db) : Outcome * Db :=
  let q := query req in
  let pageNum := pageNum (qparam q "page" "1") in
  let limitNum := limitNum (qparam q "limit" "10") in
  match exec (pendingQuery q) (requests db) with
  | None => (NextError CastError, db)
  | Some requests' =>
      let total := countDocuments (field_is "status" "pending") (requests db) in
      (Respond (paged 200 requests'
                  {| pg_page := pageNum; pg_limit := limitNum; pg_total := total;
                     pg_pages := pages_of total limitNum;
                     pg_hasNext := None; pg_hasPrev := None |}), db)
  end.

(** The query that [getBookRequests] builds from [req.query]. *)
Definition requestsQuery (q : gmap string string) : Query :=
  let status := qparam q "status" "" in
  let pageNum := pageNum (qparam q "page" "1") in
  let limitNum := limitNum (qparam q "limit" "10") in
  {| q_filter := λ d, is_empty status || field_is "status" status d;
     q_sort := parse_sort (qparam q "sort" "-createdAt");
     q_skip := skip_of pageNum limitNum;
     q_limit := limitNum;
     q_exclude := ["__v"] |}.

Definition getBookRequests (w : World) (req : Req) (db : Db) : Outcome * Db :=
  if not_admin w req then
    (Respond (refusal 403 "Forbidden" "Only administrators can view book requests."), db)
  else
    let q := requestsQuery (query req) in
    let pageNum := pageNum (qparam (query req) "page" "1") in
    let limitNum := limitNum (qparam (query req) "limit" "10") in
    match exec q (requests db) with
    | None => (NextError CastError, db)
    | Some requests' =>
        let total := countDocuments (q_filter q) (requests db) in
        (Respond (paged 200 requests'
                    {| pg_page := pageNum; pg_limit := limitNum; pg_total := total;
                       pg_pages := pages_of total limitNum;
                       pg_hasNext := Some (num_lt pageNum (pages_of total limitNum));
                       pg_hasPrev := Some (num_lt (Some 1) pageNum) |}), db)
    end.

(** The query that [getUserRequests] builds for the caller's email. *)
Definition userRequestsQuery (em : string) (q : gmap string string) : Query :=
  let pageNum := pageNum (qparam q "page" "1") in
  let limitNum := limitNum (qparam q "limit" "10") in
  {| q_filter := field_is "requesterEmail" (toLowerCase em);
     q_sort := parse_sort "-createdAt";
     q_skip := skip_of pageNum limitNum;
     q_limit := limitNum;
     q_exclude := ["__v"] |}.

Definition getUserRequests (w : World) (req : Req) (db : Db) : Outcome * Db :=
  match user_email req with
  | JStr (String c em') =>
      let em := String c em' in
      let q := userRequestsQuery em (query req) in
      let pageNum := pageNum (qparam (query req) "page" "1") in
      let limitNum := limitNum (qparam (query req) "limit" "10") in
      match exec q (requests db) with
      | None => (NextError CastError, db)
      | Some requests' =>
          let total := countDocuments (q_filter q) (requests db) in
          (Respond (paged 200 requests'
                      {| pg_page := pageNum; pg_limit := limitNum; pg_total := total;
                         pg_pages := pages_of total limitNum;
                         pg_hasNext := None; pg_hasPrev := None |}), db)
      end
  | _ => (Respond (failure 401 "Authentication required"), db)
  end.

Definition getBookRequestById (w : World) (req : Req) (db : Db) : Outcome * Db :=
  run db (
    reject_if (not_admin w req)
      (refusal 403 "Forbidden" "Only administrators can view book requests.");;
    let id := param_id req in
    reject_if (negb (isObjectIdFormat id)) (failure 400 "Invalid request ID format");;
    match findById id (requests db) with
    | None => respond (failure 404 "Book request not found")
    | Some request => mret (Respond (success_with 200 (PDoc request) None), db)
    end).

End BookRequestController.


(* ===================================================================== *)
(** ** controllers/bookController.js *)
(* ===================================================================== *)

Module BookController.
Import JsString Mongoose Handler AdminAuth.

(** Modelled from the spec: [Model/BookSchema.js] is not part of the
    sources.  The paths are the fields of a Book in the data model; the
    ISBN is a unique key. *)
Definition bookPaths : list string :=
  [ "name"; "author"; "ISBN"; "image_link"; "amazon_link"; "description";
    "genre"; "pages"; "publishDate"; "publisher"; "language"; "price";
    "discount"; "tags"; "rating"; "reviewCount"; "availability"; "copies";
    "downloads"; "views"; "featured" ].

(** Strict mode: the part of an object on the paths [ks]. *)
Definition restrict (ks : list string) (d : doc) : doc :=
  foldr (λ k acc, set_field k (field d k) acc) ∅ ks.

(** The unique index: some document other than [id] holds this ISBN. *)
Definition isbn_taken (isbn : jsval) (except : option string) (c : list doc) : bool :=
  match isbn with
  | JStr s =>
      existsb (λ d, field_is "ISBN" s d &&
                    match except with
                    | Some id => negb (has_id id d)
                    | None => true
                    end) c
  | _ => false
  end.

(** [{ k: { $regex: q, $options: 'i' } }] *)
Definition regex_on (w : World) (q k : string) (d : doc) : bool :=
  match field d k with
  | JStr s => regex_i w q s
  | _ => false
  end.

Definition text_filter (w : World) (q : string) (d : doc) : bool :=
  regex_on w q "name" d || regex_on w q "author" d || regex_on w q "description" d.

Definition paged (ds : list doc) (p : Pagination) : Response :=
  {| status := 200; success := Some true; error := None; message := None;
     data := PDocs ds; pagination := Some p; count := None |}.

Definition counted (ds : list doc) : Response :=
  {| status := 200; success := Some true; error := None; message := None;
     data := PDocs ds; pagination := None; count := Some (Z.of_nat (length ds)) |}.

Definition list_outcome (db : Db) (q : Query) (reply : list doc → Response)
  : Outcome * Db :=
  match exec q (books db) with
  | None => (NextError CastError, db)
  | Some ds => (Respond (reply ds), db)
  end.

(** The query that [getAllBooks] builds from [req.query]. *)
Definition allBooksQuery (w : World) (q : gmap string string) : Query :=
  let genre := qparam q "genre" "" in
  let search := qparam q "search" "" in
  let sortBy := qparam q "sortBy" "createdAt" in
  let order := qparam q "order" "desc" in
  let pageNum := pageNum (qparam q "page" "1") in
  let limitNum := limitNum (qparam q "limit" "10") in
  {| q_filter := λ d, (is_empty genre || field_is "genre" genre d)
                      && (is_empty search || text_filter w search d);
     q_sort := [(sortBy, negb (String.eqb order "asc"))];
     q_skip := skip_of pageNum limitNum;
     q_limit := limitNum;
     q_exclude := ["__v"] |}.

Definition getAllBooks (w : World) (req : Req) (db : Db) : Outcome * Db :=
  let q := allBooksQuery w (query req) in
  let pageNum := pageNum (qparam (query req) "page" "1") in
  let limitNum := limitNum (qparam (query req) "limit" "10") in
  let total := countDocuments (q_filter q) (books db) in
  list_outcome db q (λ ds, paged ds
    {| pg_page := pageNum; pg_limit := limitNum; pg_total := total;
       pg_pages := pages_of total limitNum;
       pg_hasNext := Some (num_lt pageNum (pages_of total limitNum));
       pg_hasPrev := Some (num_lt (Some 1) pageNum) |}).

(** The query that [searchBooks] builds: [.limit(parseInt(limit))]. *)
Definition searchQuery (w : World) (q : gmap string string) : Query :=
  {| q_filter := text_filter w (qparam q "q" "");
     q_sort := [];
     q_skip := Some 0;
     q_limit := parseInt (qparam q "limit" "20");
     q_exclude := ["__v"] |}.

Definition searchBooks (w : World) (req : Req) (db : Db) : Outcome * Db :=
  let q := qparam (query req) "q" "" in
  if is_empty q || is_empty (trim q) then
    (Respond (failure 400 "Search query is required"), db)
  else list_outcome db (searchQuery w (query req)) counted.

(** The query of [getBooksByGenre]; the genre is a route parameter. *)
Definition genreQuery (genre : string) (q : gmap string string) : Query :=
  let pageNum := pageNum (qparam q "page" "1") in
  let limitNum := limitNum (qparam q "limit" "10") in
  {| q_filter := field_is "genre" genre;
     q_sort := [("rating", true)];
     q_skip := skip_of pageNum limitNum;
     q_limit := limitNum;
     q_exclude := ["__v"] |}.

(** The query of [getBooksByAuthor]; the author is a route parameter. *)
Definition authorQuery (w : World) (author : string) (q : gmap string string) : Query :=
  let pageNum := pageNum (qparam q "page" "1") in
  let limitNum := limitNum (qparam q "limit" "10") in
  {| q_filter := regex_on w author "author";
     q_sort := [("publishDate", true)];
     q_skip := skip_of pageNum limitNum;
     q_limit := limitNum;
     q_exclude := ["__v"] |}.

(** The query of [getTrendingBooks]. *)
Definition trendingQuery (q : gmap string string) : Query :=
  {| q_filter := λ _, true;
     q_sort := [("rating", true); ("downloads", true); ("views", true);
                ("createdAt", true)];
     q_skip := Some 0;
     q_limit := limitNum (qparam q "limit" "10");
     q_exclude := ["__v"] |}.


(** The query of [getFeaturedBooks]. *)
Definition featuredQuery (q : gmap string string) : Query :=
  {| q_filter := λ d, match field d "featured" with JBool b => b | _ => false end;
     q_sort := [("createdAt", true)];
     q_skip := Some 0;
     q_limit := limitNum (qparam q "limit" "10");
     q_exclude := ["__v"] |}.

Definition getFeaturedBooks (w : World) (req : Req) (db : Db) : Outcome * Db :=
  list_outcome db (featuredQuery (query req)) counted.

(** The query of [getAvailableBooks]. *)
Definition availableQuery (q : gmap string string) : Query :=
  let pageNum := pageNum (qparam q "page" "1") in
  let limitNum := limitNum (qparam q "limit" "10") in
  {| q_filter := λ d, match field d "availability" with JBool b => b | _ => false end;
     q_sort := [("createdAt", true)];
     q_skip := skip_of pageNum limitNum;
     q_limit := limitNum;
     q_exclude := ["__v"] |}.

Definition getAvailableBooks (w : World) (req : Req) (db : Db) : Outcome * Db :=
  let q := availableQuery (query req) in
  let pageNum := pageNum (qparam (query req) "page" "1") in
  let limitNum := limitNum (qparam (query req) "limit" "10") in
  let total := countDocuments (q_filter q) (books db) in
  list_outcome db q (λ ds, paged ds
    {| pg_page := pageNum; pg_limit := limitNum; pg_total := total;
       pg_pages := pages_of total limitNum;
       pg_hasNext := None; pg_hasPrev := None |}).

(** [tags.map(t => t.trim()).filter(t => t)] *)
Fixpoint trim_tags (tags : list jsval) : Early (list jsval) :=
  match tags with
  | [] => mret []
  | JStr s :: rest =>
      rest' ← trim_tags rest;
      mret (if is_empty (trim s) then rest' else JStr (trim s) :: rest')
  | _ :: _ => throw TypeError
  end.

(** [v ? f(v) : dflt] *)
Definition if_truthy (v : jsval) (f : jsval → jsval) (dflt : jsval) : jsval :=
  if truthy v then f v else dflt.

Definition createBook (w : World) (req : Req) (db : Db) : Outcome * Db :=
  let b := body req in
  run db (
    reject_if (not_admin w req)
      (refusal 403 "Forbidden"
         "Only administrators can create books. Please login with an admin account.");;
    name ← filled (field b "name") (failure 400 "Book title (name) is required");
    author ← filled (field b "author") (failure 400 "Author name is required");
    ISBN ← filled (field b "ISBN") (failure 400 "ISBN is required");
    image_link ← filled (field b "image_link") (failure 400 "Image link is required");
    amazon_link ← filled (field b "amazon_link") (failure 400 "Amazon link is required");
    reject_if (existsb (field_is "ISBN" ISBN) (books db))
      (failure 409 "A book with this ISBN already exists");;
    description ← trim_or (field b "description") JUndef;
    publisher ← trim_or (field b "publisher") JUndef;
    tags ← match field b "tags" with
           | JArr ts => trim_tags ts
           | _ => mret []
           end;
    let book := of_fields
      [ ("name", JStr (trim name));
        ("author", JStr (trim author));
        ("ISBN", JStr (trim ISBN));
        ("image_link", JStr (trim image_link));
        ("amazon_link", JStr (trim amazon_link));
        ("description", description);
        ("genre", js_or (field b "genre") (JStr "Other"));
        ("pages", if_truthy (field b "pages") (λ v, of_number (parseInt_val w v)) JUndef);
        ("publishDate", if_truthy (field b "publishDate") (newDate w) JUndef);
        ("publisher", publisher);
        ("language", js_or (field b "language") (JStr "English"));
        ("price", if_truthy (field b "price") (parseFloat w) JUndef);
        ("discount", if_truthy (field b "discount") (parseFloat w) (JNum 0));
        ("tags", JArr tags) ] in
    reject_if (isbn_taken (JStr (trim ISBN)) None (books db))
      (failure 409 "A book with this ISBN already exists");;
    let '(saved, bs) := insertOne w book (books db) in
    mret (Respond (success_with 201 (PDoc saved) (Some "Book created successfully")),
          with_books db bs)).

(** [if (d.k) d.k = d.k.trim()] *)
Definition trim_field (k : string) (d : doc) : Early doc :=
  let v := field d k in
  if truthy v then
    match v with
    | JStr s => mret (<[k := JStr (trim s)]> d)
    | _ => throw TypeError
    end
  else mret d.

(** [if (d.k) d.k = f(d.k)] *)
Definition convert_field (k : string) (f : jsval → jsval) (d : doc) : doc :=
  if truthy (field d k) then <[k := f (field d k)]> d else d.

(** The [copies] and [availability] lines of [updateBook]. *)
Definition convert_copies (w : World) (d : doc) : doc :=
  match field d "copies" with
  | JUndef => d
  | v =>
      let copies := parseInt_val w v in
      <["availability" := JBool (num_lt (Some 0) copies)]>
        (<["copies" := of_number copies]> d)
  end.

(** [Book.findByIdAndUpdate(id, set, ..).select('-__v')] under the unique
    index on the ISBN. *)
Definition updateById (id : string) (set : doc) (db : Db) (msg : string)
  : Early (Outcome * Db) :=
  match findById id (books db) with
  | None => respond (failure 404 "Book not found")
  | Some d =>
      reject_if (isbn_taken (field set "ISBN") (Some id) (books db))
        (failure 409 "A book with this ISBN already exists");;
      let book := set ∪ d in
      mret (Respond (success_with 200 (PDoc (exclude ["__v"] book)) (Some msg)),
            with_books db (replaceById id book (books db)))
  end.

Definition updateBook (w : World) (req : Req) (db : Db) : Outcome * Db :=
  run db (
    reject_if (not_admin w req)
      (refusal 403 "Forbidden"
         "Only administrators can update books. Please login with an admin account.");;
    let id := param_id req in
    reject_if (negb (isObjectIdFormat id)) (failure 400 "Invalid book ID format");;
    let updateData := delete "__v" (delete "_id" (body req)) in
    u1 ← trim_field "name" updateData;
    u2 ← trim_field "author" u1;
    u3 ← trim_field "description" u2;
    u4 ← trim_field "ISBN" u3;
    let u5 := convert_field "pages" (λ v, of_number (parseInt_val w v)) u4 in
    let u6 := convert_field "price" (parseFloat w) u5 in
    let u7 := convert_field "discount" (parseFloat w) u6 in
    let u8 := convert_copies w u7 in
    updateById id (restrict bookPaths u8) db "Book updated successfully").

Definition allowedFields : list string :=
  [ "name"; "author"; "ISBN"; "description"; "genre"; "image_link";
    "amazon_link"; "publishDate"; "pages"; "rating"; "reviewCount";
    "availability"; "copies"; "price"; "discount"; "tags"; "featured";
    "publisher"; "language"; "downloads"; "views" ].

Definition patchBook (w : World) (req : Req) (db : Db) : Outcome * Db :=
  run db (
    reject_if (not_admin w req)
      (refusal 403 "Forbidden"
         "Only administrators can update books. Please login with an admin account.");;
    let id := param_id req in
    reject_if (negb (isObjectIdFormat id)) (failure 400 "Invalid book ID format");;
    let updateData := delete "__v" (delete "_id" (body req)) in
    let updates := restrict allowedFields updateData in
    reject_if (bool_decide (dom updates = ∅)) (failure 400 "No valid fields to update");;
    u1 ← trim_field "name" updates;
    u2 ← trim_field "author" u1;
    u3 ← trim_field "description" u2;
    updateById id u3 db "Book updated successfully").

Definition deleteBook (w : World) (req : Req) (db : Db) : Outcome * Db :=
  run db (
    reject_if (not_admin w req)
      (refusal 403 "Forbidden"
         "Only administrators can delete books. Please login with an admin account.");;
    let id := param_id req in
    reject_if (negb (isObjectIdFormat id)) (failure 400 "Invalid book ID format");;
    match findById id (books db) with
    | None => respond (failure 404 "Book not found")
    | Some book =>
        mret (Respond (success_with 200 (PDoc book) (Some "Book deleted successfully")),
              with_books db (deleteById id (books db)))
    end).

(** [ids.filter(id => id.match(..))] keeps every id: all are strings in
    the ObjectId format.  [match] on a value that is not a string throws. *)
Fixpoint all_valid_ids (ids : list jsval) : Early (list string) :=
  match ids with
  | [] => mret []
  | JStr s :: rest =>
      rest' ← all_valid_ids rest;
      mret (if isObjectIdFormat s then s :: rest' else rest')
  | _ :: _ => throw TypeError
  end.

Definition deleteMultipleBooks (w : World) (req : Req) (db : Db) : Outcome * Db :=
  run db (
    reject_if (not_admin w req)
      (refusal 403 "Forbidden"
         "Only administrators can delete books. Please login with an admin account.");;
    match field (body req) "ids" with
    | JArr (i :: is') =>
        let ids := i :: is' in
        validIds ← all_valid_ids ids;
        reject_if (negb (length validIds =? length ids)%nat)
          (failure 400 "Some book IDs are invalid");;
        let keep := List.filter (λ d, negb (existsb (λ id, has_id id d) validIds))
                      (books db) in
        let deletedCount := Z.of_nat (length (books db) - length keep) in
        mret (Respond {| status := 200; success := Some true; error := None;
                         message := Some (pretty deletedCount ++ " book(s) deleted successfully");
                         data := PNone; pagination := None;
                         count := Some deletedCount |},
              with_books db keep)
    | _ => respond (failure 400 "Array of book IDs is required")
    end).

End BookController.

(* ===================================================================== *)
(** ** controllers/aiController.js *)
(* ===================================================================== *)

Module AiController.
Import JsString.

(** How [openai.chat.completions.create] ends: with the content of the
    first choice, or by throwing. *)
Inductive Completion : Type :=
| Completed (content : string)
| Threw.

(** A computation that may call the completion endpoint: every call over
    the network is a [CallOpenAI] node. *)
Inductive Net (A : Type) : Type :=
| Done (a : A)
| CallOpenAI (userContent : string) (k : Completion → Net A).
Arguments Done {A} a.
Arguments CallOpenAI {A} userContent k.

Fixpoint calls {A} (answer : string → Completion) (p : Net A) : nat :=
  match p with
  | Done _ => 0
  | CallOpenAI m k => S (calls answer (k (answer m)))
  end.

Definition nl : string := String (ascii_of_nat 10) EmptyString.

Definition fictionReply : string :=
  "You can find fiction books in the Books page under the Fiction category. You can also browse all books on the Home page or use the Books page to filter by category.".
Definition scienceReply : string :=
  "Science books are available in the Books page under the Science category. Browse the Home page to see featured science books, or visit the Books page to explore all science titles.".
Definition ebookReply : string :=
  "E-books are available on the Digital Books page and also shown on the Home page. You can preview e-books directly from Google Books. Just click the Preview button on any e-book card.".
Definition audiobookReply : string :=
  "Audiobooks are available on the Digital Books page and also shown on the Home page. You can listen to previews by clicking the Listen button on any audiobook card.".
Definition findReply : string :=
  "You can find books in several ways:" ++ nl ++
  "1. Browse by category on the Books page" ++ nl ++
  "2. Check recommendations on the Home page" ++ nl ++
  "3. Search for specific titles" ++ nl ++
  "4. View e-books and audiobooks on the Digital Books page".
Definition howReply : string :=
  "EasyReads is easy to use! Here's how:" ++ nl ++
  "1. Browse books by category on the Books page" ++ nl ++
  "2. Check out recommendations on the Home page" ++ nl ++
  "3. View e-books and audiobooks on Digital Books" ++ nl ++
  "4. Request books that aren't available on the Requests page" ++ nl ++
  "5. Use the search to find specific titles".
Definition recommendReply : string :=
  "I can help you find great books! Here are some options:" ++ nl ++
  "1. Check the Recommendations section on the Home page - it shows books based on categories you've visited" ++ nl ++
  "2. Browse by category: Fiction, Science, Biography, Fantasy, History, Technology, or Romance" ++ nl ++
  "3. Explore e-books and audiobooks on the Digital Books page" ++ nl ++ nl ++
  "What genre are you interested in?".
Definition categoryReply : string :=
  "EasyReads offers books in 7 main categories:" ++ nl ++
  "1. Fiction" ++ nl ++ "2. Science" ++ nl ++ "3. Biography" ++ nl ++
  "4. Fantasy" ++ nl ++ "5. History" ++ nl ++ "6. Technology" ++ nl ++
  "7. Romance" ++ nl ++ nl ++
  "You can browse all categories on the Books page or Home page.".
Definition requestReply : string :=
  "If a book you want isn't available, you can request it! Go to the Requests page and fill out the book request form with the book name, author, and optional ISBN. Admins will review your request and notify you when it's available.".
(** The check marks of the source text are written in UTF-8. *)
Definition featureReply : string :=
  "EasyReads offers:" ++ nl ++
  "✅ Browse books by category" ++ nl ++
  "✅ Personalized recommendations" ++ nl ++
  "✅ E-books and audiobooks" ++ nl ++
  "✅ Book previews" ++ nl ++
  "✅ Request unavailable books" ++ nl ++
  "✅ Admin dashboard for management" ++ nl ++ nl ++
  "Explore the Home page to see all features!".
Definition greetingReply : string :=
  "Hello! I'm here to help you with EasyReads. You can ask me about:" ++ nl ++
  "- Finding books" ++ nl ++ "- Book categories" ++ nl ++
  "- E-books and audiobooks" ++ nl ++ "- How to use the platform" ++ nl ++
  "- Book recommendations" ++ nl ++ nl ++
  "What would you like to know?".
Definition defaultReply : string :=
  "I'm here to help you with EasyReads! You can ask me about:" ++ nl ++
  "- Finding books by category" ++ nl ++ "- E-books and audiobooks" ++ nl ++
  "- Book recommendations" ++ nl ++ "- How to use the platform" ++ nl ++
  "- Requesting books" ++ nl ++ nl ++
  "What would you like to know?".

Definition generateAIResponse (userMessage : string) : string :=
  let lowerMessage := toLowerCase userMessage in
  let has := includes lowerMessage in
  if has "find" || has "search" || has "book" then
    if has "fiction" then fictionReply
    else if has "science" then scienceReply
    else if has "ebook" || has "e-book" then ebookReply
    else if has "audiobook" then audiobookReply
    else findReply
  else if has "how" && (has "use" || has "work") then howReply
  else if has "recommend" || has "suggest" then recommendReply
  else if has "category" || has "categories" then categoryReply
  else if has "request" || has "not available" then requestReply
  else if has "feature" || has "what can" then featureReply
  else if has "hello" || has "hi" || has "hey" then greetingReply
  else defaultReply.

(** The module-level [openai] client: created when the key is set and
    the constructor does not throw. *)
Definition key_set (e : Env) : bool :=
  match OPENAI_API_KEY e with
  | Some k => negb (is_empty k)
  | None => false
  end.

Definition init_client (e : Env) (constructed : bool) : bool :=
  key_set e && constructed.

(** [res.json({ success: true, response })] *)
Definition reply (text : string) : Response :=
  {| status := 200; success := Some true; error := None; message := None;
     data := PText text; pagination := None; count := None |}.

Definition chatWithAI (openai : bool) (w : World) (req : Req) : Net Response :=
  match field (body req) "message" with
  | JStr message =>
      if is_empty message || (String.length (trim message) =? 0)%nat then
        Done {| status := 400; success := Some false;
                error := Some "Message is required and must be a non-empty string";
                message := None; data := PNone; pagination := None; count := None |}
      else if negb openai || negb (key_set (env w)) then
        Done (reply (generateAIResponse (trim message)))
      else
        CallOpenAI (trim message) (λ completion,
          match completion with
          | Completed content => Done (reply content)
          | Threw => Done (reply (generateAIResponse (trim message)))
          end)
  | _ =>
      Done {| status := 400; success := Some false;
              error := Some "Message is required and must be a non-empty string";
              message := None; data := PNone; pagination := None; count := None |}
  end.

End AiController.

(* ===================================================================== *)
(** ** Sample data used by the examples *)
(* ===================================================================== *)

Module Sample.
Import JsString.

Definition admin_env : Env :=
  {| VITE_ADMIN_EMAILS := Some "admin@easyreads.com,admin2@example.com";
     ADMIN_EMAILS := None; OPENAI_API_KEY := None |}.

Definition unset_env : Env :=
  {| VITE_ADMIN_EMAILS := None; ADMIN_EMAILS := Some ""; OPENAI_API_KEY := None |}.

(** The leading digit and the exponent of a large number, as
    [Number.prototype.toString] writes them; the digits of the fraction
    are left out. *)
Definition exponent_notation (n : Z) : string :=
  let digits : string := pretty (Z.abs n) in
  (if n <? 0 then "-" else "")
  ++ match digits with
     | String c rest => String c ("e+" ++ pretty (String.length rest))
     | EmptyString => "0"
     end.

(** A world whose regular-expression match is the substring test, which
    is what a pattern without metacharacters means, and whose [Number]
    reads plain decimal numerals. *)
Definition world : World :=
  {| env := admin_env; now := 1700000000000;
     fresh_id := "65a000000000000000000002";
     regex_i := λ p s, includes (toLowerCase s) (toLowerCase p);
     parseFloat := λ v, v; newDate := λ v, v;
     toNumber := λ s, if forallb_str is_digit s then of_number (parseInt s) else JNaN;
     numberToString := exponent_notation |}.

Definition request_id : string := "65a000000000000000000001".

Definition anonymous (id : string) (b : doc) : Req :=
  {| user := None; param_id := id; query := ∅; body := b |}.

Definition signed_in (em : string) (id : string) (b : doc) : Req :=
  {| user := Some {| email := Some em |}; param_id := id; query := ∅; body := b |}.

Definition asking (q : gmap string string) : Req :=
  {| user := None; param_id := ""; query := q; body := ∅ |}.

(** A pending request with the fields the request controller reads; the
    store can hold such a document, the schema of the model does not
    describe it. *)
Definition pending_request : doc :=
  of_fields [ ("_id", JStr request_id); ("title", JStr "Dune");
              ("author", JStr "Frank Herbert");
              ("requesterEmail", JStr "reader@example.com");
              ("status", JStr "pending"); ("upvotes", JNum 3) ].

Definition db : Db := {| books := []; requests := [pending_request] |}.

Definition admin : string := "admin@easyreads.com".

(** A shelf of 150 books, all with the word "book" in the name. *)
Definition shelf : list doc :=
  List.map (λ n, of_fields [("_id", JStr (pretty n)); ("name", JStr "A book")])
    (seq 0 150).

Definition library : Db := {| books := shelf; requests := [] |}.

(** [?q=book&limit=500&page=0] *)
Definition greedy_query : gmap string string :=
  list_to_map [("q", "book"); ("limit", "500"); ("page", "0")].

(** Two stores with the same two pending requests; they differ in the
    admin notes of the first request only. *)
Definition noted (title notes : string) : doc :=
  of_fields [ ("title", JStr title); ("status", JStr "pending");
              ("upvotes", JNum 0); ("adminNotes", JStr notes) ].

Definition store1 : Db :=
  {| books := []; requests := [noted "Dune" "a"; noted "Emma" "m"] |}.
Definition store2 : Db :=
  {| books := []; requests := [noted "Dune" "z"; noted "Emma" "m"] |}.

(** [?sort=adminNotes] *)
Definition by_notes : gmap string string := list_to_map [("sort", "adminNotes")].

(** A request to the [/book-requests] router whose [requestedBy] is not
    an email address. *)
Definition router_body : doc :=
  of_fields [ ("bookName", JStr "Dune"); ("author", JStr "Frank Herbert");
              ("requestedBy", JStr "not-an-email");
              ("requestedByUid", JStr "uid-1") ].

(** A status change sent to the router by a caller with no identity. *)
Definition status_body : doc :=
  of_fields [ ("status", JStr "approved"); ("adminNotes", JStr "ok") ].

(** The admin acting on the sample request, with a note. *)
Definition admin_call (notes : string) : Req :=
  signed_in admin request_id (of_fields [("adminNotes", JStr notes)]).

(** A request as the router's POST stores it, and a store that holds
    it. *)
Definition router_request : doc :=
  of_fields [ ("_id", JStr request_id); ("bookName", JStr "Dune");
              ("author", JStr "Frank Herbert");
              ("requestedBy", JStr "reader@example.com");
              ("requestedByUid", JStr "uid-1"); ("status", JStr "pending");
              ("requestedAt", JDate 1600000000000);
              ("updatedAt", JDate 1600000000000);
              ("createdAt", JDate 1600000000000); ("__v", JNum 0) ].

Definition router_db : Db := {| books := []; requests := [router_request] |}.


End Sample.

(* ===================================================================== *)
(** ** Definitions that follow the words of the specification *)
(* ===================================================================== *)

Module Spec.
Import JsString.

(** The admin set in the words of the specification: split the value on
    commas, trim and lower-case each entry, drop the empty entries. *)
Definition admin_set_spec (value : string) : list string :=
  List.filter (λ entry, negb (is_empty entry))
    (List.map (λ entry, toLowerCase (trim entry)) (split "," value)).

(** The handlers behind the admin gate: the mutating book endpoints and
    the three transitions of a book request. *)
Definition gated_handlers : list (World → Req → Db → Outcome * Db) :=
  [ BookController.createBook; BookController.updateBook;
    BookController.patchBook; BookController.deleteBook;
    BookController.deleteMultipleBooks;
    BookRequestController.approveBookRequest;
    BookRequestController.rejectBookRequest;
    BookRequestController.markRequestFulfilled ].

(** A request document carries a transition's stamp: its status, the
    acting admin's email and the time of the transition. *)
Definition stamped (w : World) (admin : string) (st : string) (d : doc) : Prop :=
  field d "status" = JStr st
  ∧ field d "respondedBy" = JStr admin
  ∧ field d "respondedAt" = JDate (now w).

(** A stored request that has the four fields the schema requires, as
    every request written through the model has. *)
Definition complete (d : doc) : bool :=
  forallb (λ k, negb (Schema.is_missing (field d k)))
    BookRequestRoutes.required_fields.

(** The caller of [req] is the authenticated admin [admin]. *)
Definition acting_admin (w : World) (req : Req) (admin : string) : Prop :=
  (∃ u, user req = Some u ∧ email u = Some admin)
  ∧ AdminAuth.isAdminEmail (env w) (Some admin) = true.


(** The value of the upvote counter; a request that was never upvoted
    has none and counts as zero. *)
Definition upvotes_of (d : doc) : Z :=
  match d !! "upvotes" with
  | Some (JNum n) => n
  | _ => 0
  end.

(** A sequence of upvote calls, each in its own world and with its own
    caller, run one after the other. *)
Fixpoint upvote_each (calls : list (World * Req)) (db : Db) : list Outcome * Db :=
  match calls with
  | [] => ([], db)
  | (w, req) :: rest =>
      let '(o, db1) := BookRequestController.upvoteRequest w req db in
      let '(os, db2) := upvote_each rest db1 in
      (o :: os, db2)
  end.

(** A body field that is a string, or is absent (or otherwise falsy). *)
Definition text_or_falsy (v : jsval) : Prop :=
  truthy v = false ∨ ∃ s, v = JStr s.

(** A requester email that does not match the pattern; an absent one
    does not match either. *)
Definition malformed_email (v : jsval) : Prop :=
  ∀ s, v = JStr s → Regex.test BookRequestController.emailRegex s = false.

(** The fixed canned responses. *)
Definition canned : list string :=
  [ AiController.fictionReply; AiController.scienceReply; AiController.ebookReply;
    AiController.audiobookReply; AiController.findReply; AiController.howReply;
    AiController.recommendReply; AiController.categoryReply;
    AiController.requestReply; AiController.featureReply;
    AiController.greetingReply; AiController.defaultReply ].

(** The keyword table: a row applies to a message that contains, for
    each of its groups, one of the keywords of the group; the answer is
    the one of the first row that applies, and the default when none
    does. *)
Record Row := { groups : list (list string); answer : string }.

Definition applies (m : string) (r : Row) : bool :=
  forallb (λ g, existsb (includes m) g) (groups r).

Definition search_words : list string := ["find"; "search"; "book"].

Definition table : list Row :=
  [ {| groups := [search_words; ["fiction"]]; answer := AiController.fictionReply |};
    {| groups := [search_words; ["science"]]; answer := AiController.scienceReply |};
    {| groups := [search_words; ["ebook"; "e-book"]];
       answer := AiController.ebookReply |};
    {| groups := [search_words; ["audiobook"]];
       answer := AiController.audiobookReply |};
    {| groups := [search_words]; answer := AiController.findReply |};
    {| groups := [["how"]; ["use"; "work"]]; answer := AiController.howReply |};
    {| groups := [["recommend"; "suggest"]];
       answer := AiController.recommendReply |};
    {| groups := [["category"; "categories"]];
       answer := AiController.categoryReply |};
    {| groups := [["request"; "not available"]];
       answer := AiController.requestReply |};
    {| groups := [["feature"; "what can"]]; answer := AiController.featureReply |};
    {| groups := [["hello"; "hi"; "hey"]]; answer := AiController.greetingReply |} ].

Definition table_reply (m : string) : string :=
  match List.find (applies m) table with
  | Some r => answer r
  | None => AiController.defaultReply
  end.

(** The titles of the documents in a response, in order. *)
Definition titles (o : Outcome) : list jsval :=
  match o with
  | Respond r =>
      match data r with
      | PDocs ds => List.map (λ d, field d "title") ds
      | _ => []
      end
  | NextError _ => []
  end.

(** A document without its admin notes. *)
Definition strip : doc → doc := delete "adminNotes".

(** The documents in a response. *)
Definition listed (o : Outcome) : list doc :=
  match o with
  | Respond r => match data r with PDocs ds => ds | _ => [] end
  | NextError _ => []
  end.

End Spec.

(* ===================================================================== *)
(** ** Reading a response *)
(* ===================================================================== *)

Module Outcomes.

(** The document a response carries. *)
Definition doc_of (o : Outcome) : option doc :=
  match o with
  | Respond r => match data r with PDoc d => Some d | _ => None end
  | NextError _ => None
  end.


(** The pagination envelope of a response. *)
Definition envelope (o : Outcome) : option Pagination :=
  match o with
  | Respond r => pagination r
  | NextError _ => None
  end.

(** The body of a call that adds a book, and the admin who sends it. *)
Definition book_body : doc :=
  of_fields [ ("name", JStr " Dune "); ("author", JStr "Frank Herbert");
              ("ISBN", JStr " 9780441013593"); ("image_link", JStr "http://img/dune");
              ("amazon_link", JStr "http://amzn/dune") ].

Definition adding_book : Req := Sample.signed_in Sample.admin "" book_body.

(** A stored book, and a store that holds it and one more. *)
Definition stored_book (id isbn : string) : doc :=
  of_fields [ ("_id", JStr id); ("name", JStr "Emma"); ("ISBN", JStr isbn);
              ("copies", JNum 2); ("availability", JBool true) ].

Definition two_books : Db :=
  {| books := [ stored_book "65a00000000000000000000a" "111";
                stored_book "65a00000000000000000000b" "222" ];
     requests := [Sample.pending_request] |}.

(** A value that is a string. *)
Definition is_text (v : jsval) : Prop := ∃ s, v = JStr s.

(** A value that names book [d]: a string equal, letter case apart, to
    the [_id] of [d]. *)
Definition names_book (d : doc) (v : jsval) : Prop :=
  ∃ s, v = JStr s ∧ Mongoose.has_id s d = true.

(** What a chat computation ends with, and the user messages it sent to
    the completion endpoint on the way, when the endpoint behaves as
    [answer]. *)
Fixpoint finish {A} (answer : string → AiController.Completion)
    (p : AiController.Net A) : A :=
  match p with
  | AiController.Done a => a
  | AiController.CallOpenAI m k => finish answer (k (answer m))
  end.

Fixpoint asked {A} (answer : string → AiController.Completion)
    (p : AiController.Net A) : list string :=
  match p with
  | AiController.Done _ => []
  | AiController.CallOpenAI m k => m :: asked answer (k (answer m))
  end.

(** A value that is a well-formed id: a string in the ObjectId format. *)
Definition is_object_id (v : jsval) : Prop :=
  ∃ s, v = JStr s ∧ JsString.isObjectIdFormat s = true.

(** The handlers that write books, and those that write requests. *)
Definition book_writers : list (World → Req → Db → Outcome * Db) :=
  [ BookController.createBook; BookController.updateBook;
    BookController.patchBook; BookController.deleteBook;
    BookController.deleteMultipleBooks ].

Definition request_writers : list (World → Req → Db → Outcome * Db) :=
  [ BookRequestController.createBookRequest;
    BookRequestController.approveBookRequest;
    BookRequestController.rejectBookRequest;
    BookRequestController.markRequestFulfilled;
    BookRequestController.upvoteRequest ].

(** An outcome that reports a write: status 200 or 201. *)
Definition reports_write (o : Outcome) : bool :=
  match status_of o with
  | Some st => (st =? 200) || (st =? 201)
  | None => false
  end.

(** The result [res] of a handler run on [db] kept the collection [proj],
    and kept all of [db] unless it reports a write. *)
Definition kept (proj : Db → list doc) (db : Db) (res : Outcome * Db) : Prop :=
  proj res.2 = proj db ∧ (reports_write res.1 = false → res.2 = db).

(** A handler body all of whose normal exits keep [proj]. *)
Definition framed (proj : Db → list doc) (db : Db)
    (h : Handler.Early (Outcome * Db)) : Prop :=
  ∀ res, h = inr res → kept proj db res.

End Outcomes.

(** One step of a handler body: the bind of an early exit and the
    tests whose outcome is known. *)
Ltac handler_step :=
  cbv zeta;
  cbn [Handler.reject_if mbind mret Handler.Early_bind Handler.Early_ret
       Handler.run Handler.respond Handler.throw negb].

(** A key that is, or with the disequalities at hand is not, one of an
    explicit list of keys. *)
Ltac key_listed :=
  apply list_elem_of_In; cbn; intuition (reflexivity || discriminate).
Ltac key_not_listed :=
  rewrite list_elem_of_In; cbn; intuition (congruence || discriminate).

(* ===================================================================== *)
(** ** Properties of the admin gate *)
(* ===================================================================== *)

Section AdminGate.
Import JsString AdminAuth Spec.

Lemma length_pos_not_empty (s : string) :
  (0 <? String.length s)%nat = negb (is_empty s).
Proof. by destruct s. Qed.

Lemma getAdminEmails_spec (e : Env) :
  getAdminEmails e = admin_set_spec (adminEnv e).
Proof.
  unfold getAdminEmails, admin_set_spec.
  destruct (adminEnv e) as [|c s] eqn:Hv; [reflexivity|].
  cbn [is_empty]. apply List.filter_ext. intros a. apply length_pos_not_empty.
Qed.

Lemma array_includes_In (l : list string) (s : string) :
  array_includes l s = true ↔ In s l.
Proof.
  unfold array_includes. rewrite existsb_exists. split.
  - intros (x & Hx & Heq). apply String.eqb_eq in Heq. by subst.
  - intros Hin. exists s. split; [done|]. apply String.eqb_refl.
Qed.

Lemma toLowerCase_empty (s : string) : toLowerCase s = "" → s = "".
Proof. by destruct s. Qed.

Lemma admin_set_spec_nonempty (value s : string) :
  In s (admin_set_spec value) → s ≠ "".
Proof.
  unfold admin_set_spec. rewrite filter_In. intros [_ Hne] ->. discriminate.
Qed.

(** C3, as amended: [isAdminEmail] holds exactly when the lower-cased
    input (not trimmed) is in the set obtained from the environment value
    by splitting on commas, trimming and lower-casing each entry and
    dropping empty entries; with the value empty or unset the set is
    empty and the check is false for every email. *)
Theorem isAdminEmail_membership (e : Env) :
  (∀ email : string,
      isAdminEmail e (Some email) = true
      ↔ In (toLowerCase email) (admin_set_spec (adminEnv e)))
  ∧ (adminEnv e = "" →
     admin_set_spec (adminEnv e) = [] ∧ ∀ email, isAdminEmail e email = false).
Proof.
  split.
  - intros email. unfold isAdminEmail.
    destruct (is_empty email) eqn:Hem.
    + split; [discriminate|]. intros Hin.
      apply admin_set_spec_nonempty in Hin. destruct email; [done|discriminate].
    + by rewrite array_includes_In, getAdminEmails_spec.
  - intros Hv. split; [by rewrite Hv|].
    intros [email|]; [|reflexivity]. unfold isAdminEmail.
    destruct (is_empty email); [reflexivity|].
    unfold getAdminEmails. by rewrite Hv.
Qed.

Lemma isAdminEmail_membership_witness :
  adminEnv Sample.unset_env = ""
  ∧ ∀ email, isAdminEmail Sample.unset_env email = false.
Proof.
  split; [reflexivity|].
  exact (proj2 (proj2 (isAdminEmail_membership Sample.unset_env) eq_refl)).
Defined.

(** C3, as stated, fails: the input is lower-cased but not trimmed, so an
    admin email with a leading space is in the set after trimming and is
    still refused. *)
Lemma isAdminEmail_input_not_trimmed :
  In (toLowerCase (trim " admin@easyreads.com"))
     (admin_set_spec (adminEnv Sample.admin_env))
  ∧ isAdminEmail Sample.admin_env (Some " admin@easyreads.com") = false.
Proof. split; [left; reflexivity | reflexivity]. Qed.

End AdminGate.

(* ===================================================================== *)
(** ** The admin gate in front of the mutating handlers *)
(* ===================================================================== *)

Section GatedHandlers.
Import JsString AdminAuth Handler Spec.

Lemma not_admin_cases (w : World) (req : Req) :
  not_admin w req = true
  ↔ user req = None
    ∨ ∃ u, user req = Some u ∧ isAdminEmail (env w) (email u) = false.
Proof.
  unfold not_admin. destruct (user req) as [u|]; split.
  - intros H. right. exists u. split; [done|]. by apply negb_true_iff.
  - intros [H|(u' & [= <-] & H)]; [done|]. by apply negb_true_iff.
  - by left.
  - done.
Qed.

Lemma run_refused (db : Db) (r : Response) (k : Early (Outcome * Db)) :
  run db (reject_if true r;; k) = (Respond r, db).
Proof. reflexivity. Qed.

(** C1, as amended: each admin-gated controller answers a call without an
    authenticated identity, and a call whose identity is not an admin,
    with the 403 permission error and leaves the database as it was; the
    401 answers belong to the [requireAdmin] middleware, which gives them
    when the identity or its email is missing, answers 403 to an email
    that is not an admin's, and in none of these cases calls [next]. *)
Theorem admin_gate_refuses (w : World) (req : Req) (db : Db) :
  (user req = None
   ∨ ∃ u, user req = Some u ∧ isAdminEmail (env w) (email u) = false) →
  (∀ h, In h gated_handlers →
        ∃ r, h w req db = (Respond r, db) ∧ status r = 403)
  ∧ ∃ r, requireAdmin w req = Some r
         ∧ (user req = None → status r = 401)
         ∧ (∀ u, user req = Some u → email u = None ∨ email u = Some "" →
                 status r = 401)
         ∧ (∀ u em, user req = Some u → email u = Some em → em ≠ "" →
                    status r = 403).
Proof.
  intros Hid. split.
  - apply not_admin_cases in Hid. intros h Hh.
    unfold gated_handlers in Hh. cbn [In] in Hh.
    repeat (destruct Hh as [<-|Hh]); try done;
      eexists; (split; [|shelve]);
      match goal with
      | |- ?f w req db = _ => unfold f
      end; rewrite Hid; apply run_refused.
    Unshelve. all: reflexivity.
  - unfold requireAdmin.
    destruct Hid as [->|(u & -> & Hu)].
    { eexists. split; [reflexivity|]. repeat split; intros; done. }
    destruct (email u) as [[|c em]|] eqn:He.
    + eexists. split; [reflexivity|].
      repeat split; intros; simplify_eq; done.
    + cbn [is_empty]. rewrite Hu. eexists. split; [reflexivity|].
      repeat split; intros; simplify_eq; try done.
      match goal with H : _ ∨ _ |- _ => destruct H; simplify_eq end.
    + eexists. split; [reflexivity|].
      repeat split; intros; simplify_eq; done.
Qed.

Lemma admin_gate_refuses_witness :
  user (Sample.anonymous Sample.request_id ∅) = None
  ∧ ∃ r, BookController.deleteBook Sample.world
           (Sample.anonymous Sample.request_id ∅) Sample.db = (Respond r, Sample.db)
         ∧ status r = 403.
Proof.
  split; [reflexivity|].
  apply (admin_gate_refuses Sample.world (Sample.anonymous Sample.request_id ∅)
           Sample.db).
  - left; reflexivity.
  - unfold gated_handlers. cbn [In]. tauto.
Defined.

(** C1, as stated, fails: [createBook] answers a call without an
    authenticated identity with 403, not 401. *)
Lemma createBook_anonymous_is_403 :
  status_of (BookController.createBook Sample.world
               (Sample.anonymous "" ∅) Sample.db).1 = Some 403
  ∧ status_of (BookController.createBook Sample.world
                 (Sample.anonymous "" ∅) Sample.db).1 ≠ Some 401.
Proof. split; [reflexivity | discriminate]. Qed.

End GatedHandlers.

(* ===================================================================== *)
(** ** Finding and replacing documents by id *)
(* ===================================================================== *)

Section Collections.
Import JsString Mongoose.

Lemma has_id_insert_ne (id k : string) (v : jsval) (d : doc) :
  k ≠ "_id" → has_id id (<[k := v]> d) = has_id id d.
Proof. intros Hk. unfold has_id. by rewrite lookup_insert_ne. Qed.

Lemma has_id_set_field_ne (id k : string) (v : jsval) (d : doc) :
  k ≠ "_id" → has_id id (set_field k v d) = has_id id d.
Proof. intros Hk. destruct v; cbn [set_field]; by rewrite ?has_id_insert_ne. Qed.

Lemma findById_has_id (id : string) (c : list doc) (d : doc) :
  findById id c = Some d → has_id id d = true.
Proof. intros H. by apply find_some in H as [_ H]. Qed.

Lemma findById_replaceById (id : string) (c : list doc) (d d' : doc) :
  findById id c = Some d → has_id id d' = true →
  findById id (replaceById id d' c) = Some d'.
Proof.
  unfold findById. intros Hf Hd'.
  induction c as [|x c IH]; [discriminate|].
  cbn [List.find replaceById] in *. destruct (has_id id x) eqn:Hx.
  - cbn [List.find]. by rewrite Hd'.
  - cbn [List.find]. rewrite Hx. by apply IH.
Qed.

Lemma replaceById_found (id : string) (c : list doc) (d : doc) :
  findById id c = Some d → replaceById id d c = c.
Proof.
  unfold findById. induction c as [|x c IH]; [done|].
  cbn [List.find replaceById]. destruct (has_id id x).
  - by intros [= ->].
  - intros H. by rewrite IH.
Qed.

Lemma replaceById_again (id : string) (c : list doc) (d1 d2 : doc) :
  has_id id d1 = true →
  replaceById id d2 (replaceById id d1 c) = replaceById id d2 c.
Proof.
  intros H1. induction c as [|x c IH]; [done|].
  cbn [replaceById]. destruct (has_id id x) eqn:Hx.
  - cbn [replaceById]. by rewrite H1.
  - cbn [replaceById]. by rewrite Hx, IH.
Qed.

Lemma field_insert_eq (k : string) (v : jsval) (d : doc) :
  field (<[k := v]> d) k = v.
Proof. unfold field. by rewrite lookup_insert_eq. Qed.

Lemma field_insert_ne (k k' : string) (v : jsval) (d : doc) :
  k ≠ k' → field (<[k := v]> d) k' = field d k'.
Proof. intros Hk. unfold field. by rewrite lookup_insert_ne. Qed.

End Collections.

(* ===================================================================== *)
(** ** The book-request lifecycle *)
(* ===================================================================== *)

Section Lifecycle.
Import JsString Mongoose Schema Handler AdminAuth BookRequestRoutes
  BookRequestController Spec.

Lemma is_empty_true (s : string) : is_empty s = true ↔ s = "".
Proof. destruct s; split; done. Qed.

Lemma is_empty_false (s : string) : is_empty s = false ↔ s ≠ "".
Proof. destruct s; split; done. Qed.

Lemma trim_nonempty (s : string) : trim s ≠ "" → s ≠ "".
Proof. intros H ->. by apply H. Qed.

Lemma acting_admin_passes (w : World) (req : Req) (admin : string) :
  acting_admin w req admin →
  not_admin w req = false ∧ user_email req = JStr admin.
Proof.
  intros [(u & Hu & He) Ha]. unfold not_admin, user_email.
  rewrite Hu, He, Ha. done.
Qed.

Lemma filled_text (s : string) (r : Response) :
  trim s ≠ "" → filled (JStr s) r = inr s.
Proof.
  intros Ht. unfold filled.
  destruct s as [|c s]; [done|]. cbn [truthy is_empty negb].
  apply is_empty_false in Ht. by rewrite Ht.
Qed.


Lemma assign_path (k : string) (v : jsval) (d : doc) :
  is_path BookRequest k = true → assign BookRequest k v d = <[k := v]> d.
Proof. intros H. unfold assign. by rewrite H. Qed.

Lemma assign_no_path (k : string) (v : jsval) (d : doc) :
  is_path BookRequest k = false → assign BookRequest k v d = d.
Proof. intros H. unfold assign. by rewrite H. Qed.

(** Of the four assignments of approve and reject, those to [status]
    and [adminNotes] reach the document. *)
Lemma approve_assigns (w : World) (by_email : jsval) (notes : option string) (d : doc) :
  approve w by_email notes d
  = match notes with
    | Some n => <["adminNotes" := JStr n]> (<["status" := JStr "approved"]> d)
    | None => <["status" := JStr "approved"]> d
    end.
Proof.
  unfold approve. cbv zeta.
  rewrite (assign_no_path "respondedAt"), (assign_no_path "respondedBy"),
    (assign_path "status") by reflexivity.
  destruct notes; [by rewrite assign_path by reflexivity|done].
Qed.

Lemma reject_assigns (w : World) (by_email : jsval) (notes : string) (d : doc) :
  reject w by_email notes d
  = <["adminNotes" := JStr notes]> (<["status" := JStr "rejected"]> d).
Proof.
  unfold reject. cbv zeta.
  rewrite (assign_no_path "respondedAt"), (assign_no_path "respondedBy"),
    (assign_path "status") by reflexivity.
  by rewrite assign_path by reflexivity.
Qed.

(** The validators of the schema: the four required fields and the
    values of the status. *)
Lemma validate_request (d : doc) :
  validate BookRequest d
  = complete d && enum_ok ["pending"; "approved"; "rejected"] (field d "status").
Proof.
  unfold validate, complete, BookRequest, bookRequestSchema, required_fields.
  cbn [forallb p_name p_required p_enum negb orb].
  change (enum_ok [] ?v) with true.
  destruct (is_missing (field d "bookName")), (is_missing (field d "author")),
    (is_missing (field d "requestedBy")), (is_missing (field d "requestedByUid"));
    cbn [negb andb]; try reflexivity.
  by rewrite !andb_true_r.
Qed.

Lemma complete_insert (k : string) (v : jsval) (d : doc) :
  k ∉ required_fields → complete (<[k := v]> d) = complete d.
Proof.
  intros Hk. unfold complete, required_fields in *. cbn [forallb].
  rewrite !field_insert_ne; [done|..]; intros ->; apply Hk; key_listed.
Qed.

Lemma validate_approve (w : World) (by_email : jsval) (notes : option string) (d : doc) :
  validate BookRequest (approve w by_email notes d) = complete d.
Proof.
  rewrite approve_assigns, validate_request. destruct notes.
  - rewrite !complete_insert by key_not_listed.
    rewrite field_insert_ne, field_insert_eq by done. apply andb_true_r.
  - rewrite !complete_insert by key_not_listed.
    rewrite field_insert_eq. apply andb_true_r.
Qed.

Lemma validate_reject (w : World) (by_email : jsval) (notes : string) (d : doc) :
  validate BookRequest (reject w by_email notes d) = complete d.
Proof.
  rewrite reject_assigns, validate_request.
  rewrite !complete_insert by key_not_listed.
  rewrite field_insert_ne, field_insert_eq by done. apply andb_true_r.
Qed.

Lemma validate_fulfilled (d : doc) :
  validate BookRequest (assign BookRequest "status" (JStr "fulfilled") d) = false.
Proof.
  rewrite assign_path, validate_request, field_insert_eq by reflexivity.
  apply andb_false_r.
Qed.

(** What [save()] answers and writes, by the validity of the document. *)
Lemma save_and_answer_valid (w : World) (db : Db) (id : string) (d d' : doc)
    (msg : string) :
  validate BookRequest d' = true →
  ∃ d'', save_and_answer w db id d d' msg
         = inr (Respond (success_with 200 (PDoc d'') (Some msg)),
                with_requests db (replaceById id d'' (requests db)))
         ∧ (d'' = d' ∨ d'' = <["updatedAt" := JDate (now w)]> d')
         ∧ (modified BookRequest d d' = false → d'' = d').
Proof.
  intros Hv. unfold save_and_answer, save. rewrite Hv. cbn [negb].
  destruct (modified BookRequest d d'); eexists; (split; [reflexivity|]);
    split; auto; done.
Qed.

Lemma save_and_answer_invalid (w : World) (db : Db) (id : string) (d d' : doc)
    (msg : string) :
  validate BookRequest d' = false →
  save_and_answer w db id d d' msg = throw ValidationError.
Proof. intros Hv. unfold save_and_answer, save. by rewrite Hv. Qed.

Lemma approve_notes (v : jsval) :
  text_or_falsy v →
  ∃ n, (if truthy v
        then match v with
             | JStr s => mret (Some (trim s))
             | _ => throw TypeError
             end
        else mret None) = (inr n : Early (option string)).
Proof.
  intros [->|[s ->]]; [by eexists|]. destruct (truthy (JStr s)); by eexists.
Qed.

(** C5 is not what the code does.  The model's schema has no
    [respondedBy] and no [respondedAt], and [fulfilled] is not a value of
    its status.  For an acting admin and an existing request: approve
    and reject, on a request that has the fields the schema requires,
    answer 200 with the stored request, whose status is the new one and
    whose [respondedBy] and [respondedAt] are what they were before the
    call, so no stamp is written; on a request that lacks a required
    field they forward a validation error and store nothing; fulfil
    forwards a validation error on every request and leaves the
    database as it was. *)
Theorem transitions_leave_no_stamp (w : World) (req : Req) (db : Db) (admin : string)
    (d : doc) :
  acting_admin w req admin →
  isObjectIdFormat (param_id req) = true →
  findById (param_id req) (requests db) = Some d →
  let id := param_id req in
  let notes := field (body req) "adminNotes" in
  (text_or_falsy notes →
   if complete d
   then ∃ r d', approveBookRequest w req db
                = (Respond r, with_requests db (replaceById id d' (requests db)))
                ∧ status r = 200 ∧ data r = PDoc d'
                ∧ findById id (replaceById id d' (requests db)) = Some d'
                ∧ field d' "status" = JStr "approved"
                ∧ d' !! "respondedBy" = d !! "respondedBy"
                ∧ d' !! "respondedAt" = d !! "respondedAt"
   else approveBookRequest w req db = (NextError ValidationError, db))
  ∧ ((∃ s, notes = JStr s ∧ trim s ≠ "") →
     if complete d
     then ∃ r d', rejectBookRequest w req db
                  = (Respond r, with_requests db (replaceById id d' (requests db)))
                  ∧ status r = 200 ∧ data r = PDoc d'
                  ∧ findById id (replaceById id d' (requests db)) = Some d'
                  ∧ field d' "status" = JStr "rejected"
                  ∧ d' !! "respondedBy" = d !! "respondedBy"
                  ∧ d' !! "respondedAt" = d !! "respondedAt"
     else rejectBookRequest w req db = (NextError ValidationError, db))
  ∧ markRequestFulfilled w req db = (NextError ValidationError, db).
Proof.
  intros Hadmin Hid Hfind id notes. subst id notes.
  apply acting_admin_passes in Hadmin as [Hna Hem].
  pose proof (findById_has_id _ _ _ Hfind) as Hhas.
  split; [|split].
  - intros Hnotes. unfold approveBookRequest. handler_step.
    rewrite Hna. handler_step. rewrite Hid. handler_step.
    rewrite Hfind, Hem.
    destruct (approve_notes _ Hnotes) as [n ->]. handler_step.
    destruct (complete d) eqn:Hc.
    + destruct (save_and_answer_valid w db (param_id req) d
                  (approve w (JStr admin) n d)
                  "Book request approved successfully") as (d'' & -> & Hd'' & _).
      { by rewrite validate_approve. }
      cbn [run]. exists (success_with 200 (PDoc d'')
                           (Some "Book request approved successfully")), d''.
      split; [reflexivity|]. split; [reflexivity|]. split; [reflexivity|].
      rewrite approve_assigns in Hd''.
      split.
      { apply (findById_replaceById _ _ d); [done|].
        destruct Hd'' as [->| ->], n; by rewrite !has_id_insert_ne. }
      unfold field.
      destruct Hd'' as [->| ->], n; (split; [|split]); by simplify_map_eq.
    + rewrite save_and_answer_invalid by (by rewrite validate_approve). done.
  - intros (s & Hs & Ht). unfold rejectBookRequest. handler_step.
    rewrite Hna. handler_step. rewrite Hid. handler_step.
    rewrite Hs, (filled_text _ _ Ht). handler_step.
    rewrite Hfind, Hem.
    destruct (complete d) eqn:Hc.
    + destruct (save_and_answer_valid w db (param_id req) d
                  (reject w (JStr admin) (trim s) d)
                  "Book request rejected") as (d'' & -> & Hd'' & _).
      { by rewrite validate_reject. }
      cbn [run]. exists (success_with 200 (PDoc d'') (Some "Book request rejected")), d''.
      split; [reflexivity|]. split; [reflexivity|]. split; [reflexivity|].
      rewrite reject_assigns in Hd''.
      split.
      { apply (findById_replaceById _ _ d); [done|].
        destruct Hd'' as [->| ->]; by rewrite !has_id_insert_ne. }
      unfold field.
      destruct Hd'' as [->| ->]; (split; [|split]); by simplify_map_eq.
    + rewrite save_and_answer_invalid by (by rewrite validate_reject). done.
  - unfold markRequestFulfilled. handler_step.
    rewrite Hna. handler_step. rewrite Hid. handler_step.
    rewrite Hfind. by rewrite save_and_answer_invalid by apply validate_fulfilled.
Qed.

Lemma sample_admin (notes : string) :
  acting_admin Sample.world (Sample.admin_call notes) Sample.admin.
Proof. split; [by eexists|reflexivity]. Qed.

Lemma transitions_leave_no_stamp_witness :
  acting_admin Sample.world (Sample.admin_call " ordered ") Sample.admin
  ∧ (∃ r d', approveBookRequest Sample.world (Sample.admin_call " ordered ")
               Sample.router_db
             = (Respond r, with_requests Sample.router_db
                  (replaceById Sample.request_id d' (requests Sample.router_db)))
             ∧ status r = 200 ∧ data r = PDoc d'
             ∧ findById Sample.request_id
                 (replaceById Sample.request_id d' (requests Sample.router_db))
               = Some d'
             ∧ field d' "status" = JStr "approved"
             ∧ d' !! "respondedBy" = None
             ∧ d' !! "respondedAt" = None)
  ∧ markRequestFulfilled Sample.world (Sample.admin_call " ordered ") Sample.router_db
    = (NextError ValidationError, Sample.router_db).
Proof.
  pose proof (transitions_leave_no_stamp Sample.world
                (Sample.admin_call " ordered ") Sample.router_db Sample.admin
                Sample.router_request (sample_admin _) eq_refl eq_refl)
    as (Happrove & _ & Hfulfil).
  split; [apply sample_admin|]. split; [|exact Hfulfil].
  apply Happrove. right. by eexists.
Defined.

(** C5, as stated, fails: after the admin approves the sample request the
    stored request has status [approved] and neither [respondedBy] nor
    [respondedAt]; and marking it as fulfilled is refused, so that it
    stays pending. *)
Lemma approved_request_is_not_stamped :
  (λ d, (field d "status", field d "respondedBy", field d "respondedAt"))
    <$> findById Sample.request_id
          (requests (approveBookRequest Sample.world
                       (Sample.admin_call "ok") Sample.router_db).2)
  = Some (JStr "approved", JUndef, JUndef)
  ∧ (¬ ∃ d, findById Sample.request_id
              (requests (approveBookRequest Sample.world
                           (Sample.admin_call "ok") Sample.router_db).2) = Some d
            ∧ stamped Sample.world Sample.admin "approved" d)
  ∧ (λ d, field d "status")
      <$> findById Sample.request_id
            (requests (markRequestFulfilled Sample.world
                         (Sample.admin_call "ok") Sample.router_db).2)
    = Some (JStr "pending").
Proof.
  assert ((λ d, (field d "status", field d "respondedBy", field d "respondedAt"))
            <$> findById Sample.request_id
                  (requests (approveBookRequest Sample.world
                               (Sample.admin_call "ok") Sample.router_db).2)
          = Some (JStr "approved", JUndef, JUndef)) as H by (vm_compute; reflexivity).
  split; [exact H|]. split; [|by vm_compute].
  intros (d & Hd & _ & Hby & _). rewrite Hd in H. cbn in H.
  injection H as _ H _. congruence.
Qed.

End Lifecycle.

Section Rejection.
Import JsString Mongoose Schema Handler AdminAuth BookRequestRoutes
  BookRequestController Spec.




End Rejection.

Section Upvotes.
Import JsString Mongoose Schema Handler BookRequestRoutes BookRequestController Spec.

(** [upvotes] is no path of the schema: the increment is dropped, and
    the update that is left sets [updatedAt]. *)
Lemma upvote_update (w : World) (id : string) (c : list doc) (d : doc) :
  isObjectIdFormat id = true →
  findById id c = Some d →
  findByIdAndUpdate w BookRequest false id ∅ (cast_inc BookRequest "upvotes" 1) c
  = (inr (Some (<["updatedAt" := JDate (now w)]> d)),
     replaceById id (<["updatedAt" := JDate (now w)]> d) c).
Proof.
  intros Hid Hfind. unfold findByIdAndUpdate. rewrite Hid. cbn [negb].
  change (cast_update w BookRequest ∅) with (Some (∅ : doc)).
  change (keeps_id id ∅) with (Some true).
  change (cast_inc BookRequest "upvotes" 1) with (@None (string * Z)).
  cbn [andb negb apply_inc]. rewrite Hfind.
  by rewrite (left_id_L ∅ (∪)).
Qed.

Lemma upvoteRequest_found (w : World) (req : Req) (db : Db) (d : doc) :
  isObjectIdFormat (param_id req) = true →
  findById (param_id req) (requests db) = Some d →
  upvoteRequest w req db
  = (Respond (success_with 200 (PDoc (<["updatedAt" := JDate (now w)]> d))
                (Some "Request upvoted successfully")),
     with_requests db (replaceById (param_id req)
                         (<["updatedAt" := JDate (now w)]> d) (requests db))).
Proof.
  intros Hid Hfind. unfold upvoteRequest. handler_step. rewrite Hid. handler_step.
  by rewrite (upvote_update w _ _ d Hid Hfind).
Qed.

(** C8 is not what the code does.  The model's schema has no [upvotes],
    so the increment never reaches the store.  On an existing request,
    any sequence of upvote calls, whoever the callers are, answers 200
    every time and leaves the counter, like every field of the request
    but one, as it was; the one field that changes is [updatedAt], which
    becomes the time of the last call.  Every other request and the
    books stay as they were. *)
Theorem upvotes_are_not_counted (calls : list (World * Req)) (db : Db) (id : string)
    (d : doc) :
  isObjectIdFormat id = true →
  findById id (requests db) = Some d →
  Forall (λ c, param_id c.2 = id) calls →
  ∃ d', (upvote_each calls db).2
        = with_requests db (replaceById id d' (requests db))
        ∧ findById id (replaceById id d' (requests db)) = Some d'
        ∧ upvotes_of d' = upvotes_of d
        ∧ delete "updatedAt" d' = delete "updatedAt" d
        ∧ field d' "updatedAt"
          = default (field d "updatedAt") (last ((λ c, JDate (now c.1)) <$> calls))
        ∧ Forall (λ o, status_of o = Some 200) (upvote_each calls db).1
        ∧ length (upvote_each calls db).1 = length calls.
Proof.
  intros Hid Hfind Hcalls.
  revert db d Hfind.
  induction Hcalls as [|[w req] calls Hreq _ IH]; intros db d Hfind.
  - exists d. cbn [upvote_each snd fst length].
    rewrite (replaceById_found _ _ _ Hfind). destruct db.
    repeat split; try done.
  - cbn [snd] in Hreq. cbn [upvote_each]. subst id.
    rewrite (upvoteRequest_found w req db d Hid Hfind).
    pose proof (findById_has_id _ _ _ Hfind) as Hhas.
    set (d1 := <["updatedAt" := JDate (now w)]> d) in *.
    assert (has_id (param_id req) d1 = true) as Hhas1
      by (unfold d1; by rewrite has_id_insert_ne).
    specialize (IH (with_requests db (replaceById (param_id req) d1 (requests db))) d1).
    destruct IH as (d' & Hdb & Hf' & Hup & Hrest & Hlast & Hall & Hlen).
    { by apply (findById_replaceById _ _ d). }
    destruct (upvote_each calls _) as [os db2]. cbn [fst snd] in *.
    cbn [with_requests requests books] in Hdb, Hf'.
    rewrite replaceById_again in Hdb, Hf' by done.
    exists d'. split; [by rewrite Hdb|]. split; [done|].
    split; [|split; [|split; [|split]]].
    + rewrite Hup. unfold upvotes_of, d1. by rewrite lookup_insert_ne.
    + rewrite Hrest. unfold d1. by rewrite delete_insert_eq.
    + rewrite Hlast. unfold d1. rewrite field_insert_eq. cbn [fmap list_fmap fst].
      destruct calls as [|c calls]; [done|]. rewrite fmap_cons, last_cons_cons.
      destruct (last _) eqn:E; [done|]. by apply last_None in E.
    + by constructor.
    + cbn [length]. by rewrite Hlen.
Qed.

Lemma upvotes_are_not_counted_witness :
  isObjectIdFormat Sample.request_id = true
  ∧ ∃ d', (upvote_each (replicate 4 (Sample.world, Sample.anonymous Sample.request_id ∅))
             Sample.db).2
          = with_requests Sample.db
              (replaceById Sample.request_id d' (requests Sample.db))
          ∧ upvotes_of Sample.pending_request = 3
          ∧ upvotes_of d' = 3.
Proof.
  split; [reflexivity|].
  destruct (upvotes_are_not_counted
              (replicate 4 (Sample.world, Sample.anonymous Sample.request_id ∅))
              Sample.db Sample.request_id Sample.pending_request)
    as (d' & Hdb & _ & Hup & _).
  - reflexivity.
  - reflexivity.
  - by repeat constructor.
  - exists d'. split; [exact Hdb|]. split; [reflexivity|exact Hup].
Defined.

End Upvotes.

Section Creation.
Import JsString Regex Mongoose Handler BookRequestController Spec.

Lemma filled_cases (v : jsval) (r : Response) :
  text_or_falsy v →
  filled v r = inl (Respond r) ∨ ∃ s, v = JStr s ∧ filled v r = inr s.
Proof.
  intros [Hf|[s ->]]; unfold filled.
  - left. by rewrite Hf.
  - destruct (truthy (JStr s)); cbn [negb]; [|by left].
    destruct (is_empty (trim s)); [by left|]. right. by eexists.
Qed.

(** C7, as amended: [createBookRequest], given title, author and email
    as strings (or not at all), answers 400 whenever the requester email
    does not match the pattern, and stores nothing.  The POST route of
    the [/book-requests] router makes no such test. *)
Theorem createBookRequest_malformed_email (w : World) (req : Req) (db : Db) :
  text_or_falsy (field (body req) "title") →
  text_or_falsy (field (body req) "author") →
  text_or_falsy (field (body req) "requesterEmail") →
  malformed_email (field (body req) "requesterEmail") →
  ∃ r, createBookRequest w req db = (Respond r, db) ∧ status r = 400.
Proof.
  intros Ht Ha He Hbad. unfold createBookRequest. handler_step.
  destruct (filled_cases _ (failure 400 "Book title is required") Ht)
    as [->|(t & _ & ->)]; handler_step; [by eexists|].
  destruct (filled_cases _ (failure 400 "Book author is required") Ha)
    as [->|(a & _ & ->)]; handler_step; [by eexists|].
  destruct (filled_cases _ (failure 400 "Requester email is required") He)
    as [->|(e & Hv & ->)]; handler_step; [by eexists|].
  rewrite (Hbad e Hv). handler_step. by eexists.
Qed.

Lemma createBookRequest_malformed_email_witness :
  malformed_email (JStr "reader(at)example.com")
  ∧ ∃ r, createBookRequest Sample.world
           (Sample.anonymous ""
              (of_fields [ ("title", JStr "Dune"); ("author", JStr "Frank Herbert");
                           ("requesterEmail", JStr "reader(at)example.com") ]))
           Sample.db = (Respond r, Sample.db)
         ∧ status r = 400.
Proof.
  assert (malformed_email (JStr "reader(at)example.com")) as Hbad.
  { intros s [= <-]. reflexivity. }
  split; [exact Hbad|].
  apply createBookRequest_malformed_email.
  - right. by eexists.
  - right. by eexists.
  - right. by eexists.
  - exact Hbad.
Defined.

(** C7, as stated, fails: the POST route of the [/book-requests] router
    stores a request whose requester is not an email address and
    answers 201. *)
Lemma router_post_takes_any_requester :
  test emailRegex "not-an-email" = false
  ∧ field Sample.router_body "requestedBy" = JStr "not-an-email"
  ∧ status_of (BookRequestRoutes.post Sample.world
                 (Sample.anonymous "" Sample.router_body) Sample.db).1 = Some 201
  ∧ length (requests (BookRequestRoutes.post Sample.world
                        (Sample.anonymous "" Sample.router_body) Sample.db).2)
    = S (length (requests Sample.db)).
Proof. repeat split; vm_compute; reflexivity. Qed.

End Creation.

Section RouterMutations.
Import JsString Mongoose BookRequestRoutes Spec.

(** C2 fails on the [/book-requests] router: a caller with no identity
    changes the status and the admin notes of the sample request with
    [PATCH /:id/status]; [PUT /:id] does the same, and [DELETE /:id]
    removes the request. *)
Theorem router_mutates_without_admin :
  let req := Sample.anonymous Sample.request_id Sample.status_body in
  user req = None
  ∧ field Sample.pending_request "status" = JStr "pending"
  ∧ status_of (patch_status Sample.world req Sample.db).1 = Some 200
  ∧ (λ d, (field d "status", field d "adminNotes"))
      <$> findById Sample.request_id
            (requests (patch_status Sample.world req Sample.db).2)
    = Some (JStr "approved", JStr "ok")
  ∧ requests (put Sample.world req Sample.db).2
    = requests (patch_status Sample.world req Sample.db).2
  ∧ requests (delete_request Sample.world req Sample.db).2 = [].
Proof. repeat split; vm_compute; reflexivity. Qed.

End RouterMutations.

(* ===================================================================== *)
(** ** Pagination *)
(* ===================================================================== *)

Section Pagination.
Import JsString Mongoose Handler BookController Spec.

Lemma pageNum_at_least_one (page : string) (n : Z) :
  parseInt page = Some n → pageNum page = Some (Z.max 1 n) ∧ 1 ≤ Z.max 1 n.
Proof. intros H. unfold pageNum. rewrite H. cbn. split; [done|lia]. Qed.

Lemma limitNum_clamped (limit : string) (n : Z) :
  parseInt limit = Some n →
  limitNum limit = Some (Z.min 100 (Z.max 1 n))
  ∧ 1 ≤ Z.min 100 (Z.max 1 n) ≤ 100.
Proof. intros H. unfold limitNum. rewrite H. cbn. split; [done|lia]. Qed.

Lemma limitNum_500 : limitNum "500" = Some 100.
Proof. reflexivity. Qed.

Lemma pageNum_0 : pageNum "0" = Some 1.
Proof. reflexivity. Qed.

(** [parseInt] gives a double: past [2^53] the integer read is rounded,
    and of a number written in exponent notation only the leading digit
    is read. *)
Lemma parseInt_gives_a_double :
  parseInt "9007199254740993" = Some 9007199254740992
  ∧ parseInt "9007199254740995" = Some 9007199254740996
  ∧ parseInt_val Sample.world (JNum (10 ^ 21)) = Some 1
  ∧ parseInt_val Sample.world (JNum (2 ^ 69)) = Some (2 ^ 69).
Proof. repeat split; by vm_compute. Qed.

(** The handlers that compute [pageNum] and [limitNum] pass the clamped
    values on to the store.  (The listings by rating, price range and
    year repeat the same three lines.) *)
Lemma paginated_queries_clamp (w : World) (q : gmap string string) (g : string) :
  let limit := limitNum (qparam q "limit" "10") in
  let skip := skip_of (pageNum (qparam q "page" "1")) limit in
  (q_limit (allBooksQuery w q) = limit ∧ q_skip (allBooksQuery w q) = skip)
  ∧ (q_limit (genreQuery g q) = limit ∧ q_skip (genreQuery g q) = skip)
  ∧ (q_limit (availableQuery q) = limit ∧ q_skip (availableQuery q) = skip)
  ∧ (q_limit (authorQuery w g q) = limit ∧ q_skip (authorQuery w g q) = skip)
  ∧ (q_limit (BookRequestController.pendingQuery q) = limit
     ∧ q_skip (BookRequestController.pendingQuery q) = skip)
  ∧ (q_limit (BookRequestController.requestsQuery q) = limit
     ∧ q_skip (BookRequestController.requestsQuery q) = skip)
  ∧ (q_limit (BookRequestController.userRequestsQuery g q) = limit
     ∧ q_skip (BookRequestController.userRequestsQuery g q) = skip)
  ∧ q_limit (trendingQuery q) = limit
  ∧ q_limit (featuredQuery q) = limit.
Proof. repeat split. Qed.

(** C4 fails on text search: [searchBooks] hands [parseInt(limit)] to the
    store as it is.  With [limit=500] the effective limit is 500 and all
    150 books of the sample shelf come back, where [getAllBooks] on the
    same query uses limit 100 and page 1. *)
Theorem searchBooks_limit_not_clamped :
  q_limit (searchQuery Sample.world Sample.greedy_query) = Some 500
  ∧ length (listed (searchBooks Sample.world (Sample.asking Sample.greedy_query)
                      Sample.library).1) = 150%nat
  ∧ q_limit (allBooksQuery Sample.world Sample.greedy_query) = Some 100
  ∧ q_skip (allBooksQuery Sample.world Sample.greedy_query) = Some 0
  ∧ length (listed (getAllBooks Sample.world (Sample.asking Sample.greedy_query)
                      Sample.library).1) = 100%nat.
Proof. repeat split; vm_compute; reflexivity. Qed.

End Pagination.

(* ===================================================================== *)
(** ** The chat fallback *)
(* ===================================================================== *)

Section ChatFallback.
Import JsString AiController Spec.

Lemma generateAIResponse_canned (m : string) : In (generateAIResponse m) canned.
Proof.
  unfold generateAIResponse, canned. cbv zeta.
  repeat match goal with
         | |- context [if ?c then _ else _] => destruct c
         end; cbn [In]; tauto.
Qed.

(** The nested tests of [generateAIResponse] are the keyword table, read
    from its first row down. *)
Lemma generateAIResponse_table (s : string) :
  generateAIResponse s = table_reply (toLowerCase s).
Proof.
  unfold generateAIResponse, table_reply, table, applies, search_words. cbv zeta.
  generalize (toLowerCase s). intros m.
  cbn [List.find forallb existsb groups answer].
  repeat (match goal with
          | |- context [includes m ?k] => destruct (includes m k)
          end;
          cbn [orb andb]);
    reflexivity.
Qed.

(** C9, as amended: with no API key configured (the client was never
    created, or the key is not set), the chat handler makes no call to
    the completion endpoint.  A message that is a string with something
    other than white space in it is answered 200 with the response of
    the keyword table for the trimmed, lower-cased message: the answer
    of the first row that applies, from the top, and the default when
    no row applies; it is one of the fixed canned responses and depends
    on the message only.  A message of white space only is answered
    400. *)
Theorem chat_without_key (openai : bool) (w : World) (req : Req) (s : string) :
  openai = false ∨ key_set (env w) = false →
  field (body req) "message" = JStr s →
  (∀ answer, calls answer (chatWithAI openai w req) = 0%nat)
  ∧ (if is_empty (trim s)
     then ∃ r, chatWithAI openai w req = Done r ∧ status r = 400
     else chatWithAI openai w req
          = Done (reply (table_reply (toLowerCase (trim s))))
          ∧ In (table_reply (toLowerCase (trim s))) canned
          ∧ ∀ openai' w' req',
              (openai' = false ∨ key_set (env w') = false) →
              field (body req') "message" = JStr s →
              chatWithAI openai' w' req' = chatWithAI openai w req).
Proof.
  intros Hkey Hmsg.
  assert (∀ o' w' req',
            (o' = false ∨ key_set (env w') = false) →
            field (body req') "message" = JStr s →
            chatWithAI o' w' req'
            = if is_empty (trim s)
              then Done {| status := 400; success := Some false;
                           error := Some "Message is required and must be a non-empty string";
                           message := None; data := PNone; pagination := None;
                           count := None |}
              else Done (reply (table_reply (toLowerCase (trim s))))) as Hrun.
  { intros o' w' req' Hk Hm. unfold chatWithAI. rewrite Hm.
    rewrite <- generateAIResponse_table.
    destruct s as [|c s']; [done|]. cbn [is_empty orb].
    destruct (trim (String c s')) as [|c' t] eqn:Htrim; [done|].
    cbn [String.length Nat.eqb is_empty].
    destruct Hk as [->| ->]; [done|]. by rewrite orb_true_r. }
  rewrite (Hrun openai w req Hkey Hmsg).
  split; [by destruct (is_empty (trim s))|].
  destruct (is_empty (trim s)) eqn:He.
  - by eexists.
  - split; [done|]. split.
    + rewrite <- generateAIResponse_table. apply generateAIResponse_canned.
    + intros o' w' req' Hk Hm. rewrite (Hrun o' w' req' Hk Hm), ?He. done.
Qed.

Lemma chat_without_key_witness :
  key_set (env Sample.world) = false
  ∧ chatWithAI true Sample.world
      (Sample.anonymous "" (of_fields [("message", JStr " Hello there! ")]))
    = Done (reply greetingReply).
Proof.
  split; [reflexivity|].
  exact (proj1 (proj2 (chat_without_key true Sample.world
                         (Sample.anonymous ""
                            (of_fields [("message", JStr " Hello there! ")]))
                         " Hello there! " (or_intror eq_refl) eq_refl))).
Defined.

(** C9, as stated, fails on two counts.  A message that contains "hello"
    need not yield the greeting: "hello, can you find me a book?" also
    contains "find", a keyword of a row above the greeting's, and is
    answered with the reply of that row.  And a message that is not
    empty need not be answered from the table: three spaces are
    answered 400. *)
Lemma chat_hello_is_not_always_greeted :
  key_set (env Sample.world) = false
  ∧ includes (toLowerCase "hello, can you find me a book?") "hello" = true
  ∧ chatWithAI true Sample.world
      (Sample.anonymous ""
         (of_fields [("message", JStr "hello, can you find me a book?")]))
    = Done (reply findReply)
  ∧ findReply ≠ greetingReply
  ∧ (∃ r, chatWithAI true Sample.world
            (Sample.anonymous "" (of_fields [("message", JStr "   ")])) = Done r
          ∧ status r = 400).
Proof.
  split; [reflexivity|]. split; [reflexivity|]. split; [by vm_compute|].
  split; [discriminate|]. eexists. split; [by vm_compute|reflexivity].
Qed.

End ChatFallback.

(* ===================================================================== *)
(** ** The public listing of pending requests *)
(* ===================================================================== *)

Section PendingListing.
Import JsString Mongoose Handler BookRequestController Spec.

Lemma exclude_notes (d : doc) : exclude ["adminNotes"] d = strip d.
Proof. reflexivity. Qed.

Lemma field_strip (d : doc) (k : string) :
  k ≠ "adminNotes" → field (strip d) k = field d k.
Proof. intros Hk. unfold field, strip. by rewrite lookup_delete_ne. Qed.

Lemma strip_strip (d : doc) : strip (strip d) = strip d.
Proof. unfold strip. apply delete_delete_eq. Qed.

Lemma compare_docs_strip (spec : SortSpec) (a b : doc) :
  "adminNotes" ∉ List.map fst spec →
  compare_docs spec (strip a) (strip b) = compare_docs spec a b.
Proof.
  induction spec as [|[k desc] spec IH]; [done|].
  cbn [List.map fst]. intros Hk. apply not_elem_of_cons in Hk as [Hk Hrest].
  cbn [compare_docs]. rewrite !field_strip, IH by done. done.
Qed.

Lemma insert_sorted_strip (spec : SortSpec) (d : doc) (l : list doc) :
  "adminNotes" ∉ List.map fst spec →
  insert_sorted spec (strip d) (List.map strip l)
  = List.map strip (insert_sorted spec d l).
Proof.
  intros Hk. induction l as [|x l IH]; [done|].
  cbn [List.map insert_sorted]. rewrite compare_docs_strip by done.
  destruct (compare_docs spec d x); cbn [List.map]; by rewrite ?IH.
Qed.

Lemma sort_docs_strip (spec : SortSpec) (l : list doc) :
  "adminNotes" ∉ List.map fst spec →
  sort_docs spec (List.map strip l) = List.map strip (sort_docs spec l).
Proof.
  intros Hk. unfold sort_docs. induction l as [|x l IH]; [done|].
  cbn [List.map foldr]. by rewrite IH, insert_sorted_strip.
Qed.

Lemma field_is_strip (k v : string) (d : doc) :
  k ≠ "adminNotes" → field_is k v (strip d) = field_is k v d.
Proof. intros Hk. unfold field_is. by rewrite field_strip. Qed.

Lemma filter_pending_strip (l : list doc) :
  List.filter (field_is "status" "pending") (List.map strip l)
  = List.map strip (List.filter (field_is "status" "pending") l).
Proof.
  induction l as [|x l IH]; [done|].
  cbn [List.map List.filter]. rewrite field_is_strip by done.
  destruct (field_is "status" "pending" x); cbn [List.map]; by rewrite IH.
Qed.

Lemma take_limit_map (n : Z) (l : list doc) :
  take_limit n (List.map strip l) = List.map strip (take_limit n l).
Proof.
  unfold take_limit. destruct (n =? 0); [done|]. apply firstn_map.
Qed.

Lemma exec_pending_strip (q : gmap string string) (c : list doc) :
  "adminNotes" ∉ List.map fst (parse_sort (qparam q "sort" "-upvotes")) →
  exec (pendingQuery q) (List.map strip c) = exec (pendingQuery q) c.
Proof.
  intros Hk. unfold exec.
  destruct (q_skip (pendingQuery q)) as [s|]; [|done].
  destruct (q_limit (pendingQuery q)) as [n|]; [|done].
  destruct (s <? 0); [done|]. f_equal.
  cbn [pendingQuery q_filter q_sort q_exclude].
  rewrite filter_pending_strip, sort_docs_strip by done.
  rewrite skipn_map, take_limit_map, List.map_map.
  apply List.map_ext. intros d. by rewrite !exclude_notes, strip_strip.
Qed.

Lemma count_pending_strip (c : list doc) :
  countDocuments (field_is "status" "pending") (List.map strip c)
  = countDocuments (field_is "status" "pending") c.
Proof.
  unfold countDocuments. by rewrite filter_pending_strip, List.length_map.
Qed.

(** With a sort that does not name [adminNotes] the listing is the same
    for two stores that differ in admin notes only. *)
Lemma pending_listing_hides_notes (w : World) (req : Req) (db1 db2 : Db) :
  List.map strip (requests db1) = List.map strip (requests db2) →
  "adminNotes" ∉ List.map fst (parse_sort (qparam (query req) "sort" "-upvotes")) →
  (getPendingRequests w req db1).1 = (getPendingRequests w req db2).1.
Proof.
  intros Hsame Hk. unfold getPendingRequests. cbv zeta.
  rewrite <- (exec_pending_strip _ (requests db1)),
          <- (exec_pending_strip _ (requests db2)) by done.
  rewrite <- (count_pending_strip (requests db1)),
          <- (count_pending_strip (requests db2)).
  rewrite Hsame.
  by destruct (exec _ (List.map strip (requests db2))).
Qed.

(** The listing never carries an [adminNotes] field. *)
Lemma pending_listing_strips_field (w : World) (req : Req) (db : Db) :
  Forall (λ d : doc, d !! "adminNotes" = None) (listed (getPendingRequests w req db).1).
Proof.
  unfold getPendingRequests, exec. cbv zeta.
  destruct (q_skip _) as [s|]; [|by constructor].
  destruct (q_limit _) as [n|]; [|by constructor].
  destruct (s <? 0); [by constructor|].
  cbn [fst listed data paged]. apply Forall_forall. intros d Hd.
  apply list_elem_of_In, in_map_iff in Hd as (d0 & <- & _).
  cbn [pendingQuery q_exclude]. rewrite exclude_notes. apply lookup_delete_eq.
Qed.

(** C10 fails when the caller sorts by the hidden field: the two sample
    stores differ in the admin notes of one request only, and with
    [?sort=adminNotes] the listing returns the same two requests in
    opposite orders. *)
Theorem pending_listing_order_reveals_notes :
  List.map (delete "adminNotes") (requests Sample.store1)
  = List.map (delete "adminNotes") (requests Sample.store2)
  ∧ titles (getPendingRequests Sample.world (Sample.asking Sample.by_notes)
              Sample.store1).1 = [JStr "Dune"; JStr "Emma"]
  ∧ titles (getPendingRequests Sample.world (Sample.asking Sample.by_notes)
              Sample.store2).1 = [JStr "Emma"; JStr "Dune"]
  ∧ (getPendingRequests Sample.world (Sample.asking Sample.by_notes) Sample.store1).1
    ≠ (getPendingRequests Sample.world (Sample.asking Sample.by_notes) Sample.store2).1.
Proof.
  assert (titles (getPendingRequests Sample.world (Sample.asking Sample.by_notes)
                    Sample.store1).1 = [JStr "Dune"; JStr "Emma"]) as H1
    by (vm_compute; reflexivity).
  assert (titles (getPendingRequests Sample.world (Sample.asking Sample.by_notes)
                    Sample.store2).1 = [JStr "Emma"; JStr "Dune"]) as H2
    by (vm_compute; reflexivity).
  split; [vm_compute; reflexivity|]. split; [exact H1|]. split; [exact H2|].
  intros Heq. rewrite Heq, H2 in H1. discriminate.
Qed.

End PendingListing.

(* ===================================================================== *)
(** ** Who counts as an admin *)
(* ===================================================================== *)

Section AdminDecisions.
Import JsString AdminAuth Spec.

(** X1: The middleware, the test inlined in the controllers and
    [attachAdminInfo] let the same callers through: those whose token
    carries an email that [isAdminEmail] accepts.  For them
    [attachAdminInfo] records that email, for everyone else none. *)
Theorem admin_decisions_agree (w : World) (req : Req) :
  (requireAdmin w req = None ↔ not_admin w req = false)
  ∧ (isAdmin (attachAdminInfo w req) = true ↔ not_admin w req = false)
  ∧ (not_admin w req = false ↔
     ∃ u em, user req = Some u ∧ email u = Some em
             ∧ isAdminEmail (env w) (Some em) = true
             ∧ adminEmail (attachAdminInfo w req) = Some em)
  ∧ (not_admin w req = true → adminEmail (attachAdminInfo w req) = None).
Proof.
  unfold requireAdmin, not_admin, attachAdminInfo.
  destruct (user req) as [u|].
  2:{ split; [done|]. split; [done|]. split; [|done].
      split; [done|]. intros (? & ? & ? & _). congruence. }
  destruct (email u) as [[|c em]|] eqn:He; cbn [is_empty negb andb].
  - cbn [isAdminEmail is_empty negb]. split; [done|]. split; [done|]. split; [|done].
    split; [done|]. intros (u0 & em & Hu & He' & Ha & _).
    assert (em = "") as -> by congruence. done.
  - destruct (isAdminEmail (env w) (Some (String c em))) eqn:Ha; cbn [negb].
    + split; [by split|]. split; [by split|]. split; [|done].
      split; [|done]. intros _. by exists u, (String c em).
    + split; [done|]. split; [done|]. split; [|done].
      split; [done|]. intros (u0 & em0 & Hu & He' & Ha' & _).
      assert (em0 = String c em) as -> by congruence. congruence.
  - cbn [isAdminEmail negb]. split; [done|]. split; [done|]. split; [|done].
    split; [done|]. intros (u0 & em & Hu & He' & _). congruence.
Qed.

End AdminDecisions.

(* ===================================================================== *)
(** ** The email pattern *)
(* ===================================================================== *)

Section EmailPattern.
Import JsString Regex BookRequestController Spec.

Lemma append_nil_r (s : string) : (s ++ "")%string = s.
Proof.
  induction s as [|c s IH]; [done|].
  change (String c (s ++ "") = String c s). by rewrite IH.
Qed.

Lemma append_assoc (a b c : string) : ((a ++ b) ++ c)%string = (a ++ (b ++ c))%string.
Proof.
  induction a as [|x a IH]; [done|].
  change (String x ((a ++ b) ++ c) = String x (a ++ (b ++ c))). by rewrite IH.
Qed.

Lemma nullable_matches (r : regex) : nullable r = true → matches r "".
Proof.
  induction r as [| |p|r1 IH1 r2 IH2|r1 IH1 r2 IH2|r IH]; cbn [nullable]; intros H;
    try discriminate.
  - constructor.
  - apply andb_true_iff in H as [H1 H2].
    change "" with ("" ++ "")%string. constructor; auto.
  - apply orb_true_iff in H as [H|H]; [apply MAltL|apply MAltR]; auto.
  - constructor.
Qed.

Lemma deriv_matches (c : ascii) (r : regex) (s : string) :
  matches (deriv c r) s → matches r (String c s).
Proof.
  revert s.
  induction r as [| |p|r1 IH1 r2 IH2|r1 IH1 r2 IH2|r IH]; cbn [deriv]; intros s H.
  - inversion H.
  - inversion H.
  - destruct (p c) eqn:Hp; inversion H; subst. by constructor.
  - destruct (nullable r1) eqn:Hn.
    + inversion H as [| | | ? ? ? HL | ? ? ? HR | |]; subst.
      * inversion HL as [| |? ? s1 s2 H1 H2| | | |]; subst.
        change (String c (s1 ++ s2)) with (String c s1 ++ s2)%string.
        constructor; auto.
      * change (String c s) with ("" ++ String c s)%string.
        constructor; [by apply nullable_matches|auto].
    + inversion H as [| |? ? s1 s2 H1 H2| | | |]; subst.
      change (String c (s1 ++ s2)) with (String c s1 ++ s2)%string.
      constructor; auto.
  - inversion H; subst; [apply MAltL|apply MAltR]; auto.
  - inversion H as [| |? ? s1 s2 H1 H2| | | |]; subst.
    change (String c (s1 ++ s2)) with (String c s1 ++ s2)%string.
    constructor; auto.
Qed.

(** What the derivative matcher accepts is in the language of the
    pattern. *)
Lemma test_matches (r : regex) (s : string) : test r s = true → matches r s.
Proof.
  revert r. induction s as [|c s IH]; intros r; cbn [test].
  - apply nullable_matches.
  - intros H. by apply deriv_matches, IH.
Qed.

Lemma forallb_str_app (p : ascii → bool) (a b : string) :
  forallb_str p (a ++ b) = forallb_str p a && forallb_str p b.
Proof.
  induction a as [|c a IH]; [done|].
  change (p c && forallb_str p (a ++ b) = p c && forallb_str p a && forallb_str p b).
  by rewrite IH, andb_assoc.
Qed.

Lemma matches_within (P : ascii → bool) (r : regex) (s : string) :
  classes_within P r → matches r s → forallb_str P s = true.
Proof.
  intros Hr Hm. induction Hm; cbn [classes_within] in Hr.
  - done.
  - cbn. by rewrite (Hr _ H).
  - destruct Hr. rewrite forallb_str_app, IHHm1, IHHm2; done.
  - destruct Hr. auto.
  - destruct Hr. auto.
  - done.
  - rewrite forallb_str_app, IHHm1, IHHm2; done.
Qed.

Lemma matches_seq_inv (r1 r2 : regex) (s : string) :
  matches (Seq r1 r2) s →
  ∃ s1 s2, s = (s1 ++ s2)%string ∧ matches r1 s1 ∧ matches r2 s2.
Proof. intros H. inversion H; subst. eauto. Qed.

Lemma matches_class_inv (p : ascii → bool) (s : string) :
  matches (Class p) s → ∃ c, s = String c "" ∧ p c = true.
Proof. intros H. inversion H; subst. eauto. Qed.

Lemma matches_opt_class_inv (p : ascii → bool) (s : string) :
  matches (Opt (Class p)) s → s = "" ∨ ∃ c, s = String c "" ∧ p c = true.
Proof.
  intros H. inversion H as [| | |? ? ? HL|? ? ? HR| |]; subst.
  - inversion HL. by left.
  - right. by apply matches_class_inv.
Qed.

Lemma matches_plus_head (p : ascii → bool) (s : string) :
  matches (Plus (Class p)) s → ∃ c rest, s = String c rest ∧ p c = true.
Proof.
  intros H. apply matches_seq_inv in H as (s1 & s2 & -> & H1 & _).
  apply matches_class_inv in H1 as (c & -> & Hc). by exists c, s2.
Qed.

Lemma matches_star_last (r : regex) (s : string) :
  matches (Star r) s →
  s = "" ∨ ∃ u t, s = (u ++ t)%string ∧ matches (Star r) u ∧ matches r t.
Proof.
  intros H. remember (Star r) as r0 eqn:Hr0.
  induction H as [| | | | | |r' s1 s2 H1 _ H2 IH2]; try discriminate; [by left|].
  injection Hr0 as ->. right. destruct (IH2 eq_refl) as [->|(u & t & -> & Hu & Ht)].
  - exists "", s1. rewrite append_nil_r. repeat split; [constructor|done].
  - exists (s1 ++ u)%string, t. rewrite append_assoc.
    repeat split; [by constructor|done].
Qed.

Lemma matches_plus_last (r : regex) (s : string) :
  matches (Plus r) s →
  ∃ u t, s = (u ++ t)%string ∧ matches (Star r) u ∧ matches r t.
Proof.
  intros H. apply matches_seq_inv in H as (a & b & -> & Ha & Hb).
  apply matches_star_last in Hb as [->|(u & t & -> & Hu & Ht)].
  - exists "", a. rewrite append_nil_r. repeat split; [constructor|done].
  - exists (a ++ u)%string, t. rewrite append_assoc.
    repeat split; [by constructor|done].
Qed.

(** [\.\w{2,3}]: a dot and two or three word characters. *)
Lemma matches_tld (t : string) :
  matches (Seq dot (Seq word (Seq word (Opt word)))) t →
  ∃ tld, t = String "." tld ∧ forallb_str is_word tld = true
         ∧ (String.length tld = 2 ∨ String.length tld = 3)%nat.
Proof.
  intros H.
  apply matches_seq_inv in H as (d & t1 & -> & Hd & H).
  apply matches_seq_inv in H as (a & t2 & -> & Ha & H).
  apply matches_seq_inv in H as (b & t3 & -> & Hb & Hc).
  apply matches_class_inv in Hd as (cd & -> & Hcd).
  apply matches_class_inv in Ha as (ca & -> & Hca).
  apply matches_class_inv in Hb as (cb & -> & Hcb).
  apply Ascii.eqb_eq in Hcd as ->.
  apply matches_opt_class_inv in Hc as [->|(cc & -> & Hcc)].
  - exists (String ca (String cb "")). cbn. rewrite Hca, Hcb. auto.
  - exists (String ca (String cb (String cc ""))). cbn. rewrite Hca, Hcb, Hcc. auto.
Qed.

Lemma email_char_word (c : ascii) : is_word c = true → email_char c = true.
Proof. intros H. unfold email_char. by rewrite H. Qed.

Lemma email_char_sep (c : ascii) :
  (Ascii.eqb c "." || Ascii.eqb c "-")%bool = true → email_char c = true.
Proof.
  intros H. unfold email_char.
  apply orb_true_iff in H as [->| ->]; by rewrite ?orb_true_r.
Qed.

Lemma email_char_dot (c : ascii) : Ascii.eqb c "." = true → email_char c = true.
Proof. intros H. unfold email_char. by rewrite H, orb_true_r. Qed.

(** X2: The addresses the pattern accepts: a local part and a domain made of
    word characters, dots and dashes, each starting with a word
    character, one [@] between them, and at the end a dot followed by
    two or three word characters. *)
Theorem emailRegex_shape (s : string) :
  test emailRegex s = true →
  ∃ loc domain tld,
    s = (loc ++ String "@" (domain ++ String "." tld))%string
    ∧ forallb_str email_char loc = true
    ∧ forallb_str email_char domain = true
    ∧ (∃ c rest, loc = String c rest ∧ is_word c = true)
    ∧ (∃ c rest, domain = String c rest ∧ is_word c = true)
    ∧ forallb_str is_word tld = true
    ∧ (String.length tld = 2 ∨ String.length tld = 3)%nat.
Proof.
  intros H. apply test_matches in H. unfold emailRegex in H.
  apply matches_seq_inv in H as (w1 & s1 & -> & Hw1 & H).
  apply matches_seq_inv in H as (a1 & s2 & -> & Ha1 & H).
  apply matches_seq_inv in H as (at' & s3 & -> & Hat & H).
  apply matches_seq_inv in H as (w2 & s4 & -> & Hw2 & H).
  apply matches_seq_inv in H as (a2 & s5 & -> & Ha2 & H).
  apply matches_plus_last in H as (u & t & -> & Hu & Ht).
  apply matches_tld in Ht as (tld & -> & Htld & Hlen).
  apply matches_class_inv in Hat as (c & -> & Hc). apply Ascii.eqb_eq in Hc as ->.
  exists (w1 ++ a1)%string, (w2 ++ (a2 ++ u))%string, tld.
  assert (classes_within email_char (Plus word)) as Kw.
  { repeat split; exact email_char_word. }
  assert (classes_within email_char
            (Star (Seq (Opt dot_or_dash) (Plus word)))) as Ka.
  { repeat split; try exact email_char_word; exact email_char_sep. }
  assert (classes_within email_char
            (Star (Seq dot (Seq word (Seq word (Opt word)))))) as Kt.
  { repeat split; try exact email_char_word; exact email_char_dot. }
  split; [by rewrite !append_assoc|].
  split.
  { rewrite forallb_str_app, (matches_within _ _ _ Kw Hw1),
      (matches_within _ _ _ Ka Ha1). done. }
  split.
  { rewrite !forallb_str_app, (matches_within _ _ _ Kw Hw2),
      (matches_within _ _ _ Ka Ha2), (matches_within _ _ _ Kt Hu). done. }
  split.
  { apply matches_plus_head in Hw1 as (c & rest & -> & Hc).
    by exists c, (rest ++ a1)%string. }
  split.
  { apply matches_plus_head in Hw2 as (c & rest & -> & Hc).
    by exists c, (rest ++ (a2 ++ u))%string. }
  done.
Qed.

Lemma emailRegex_shape_witness :
  test emailRegex "jane.doe@mail.example.org" = true
  ∧ ∃ loc domain tld,
      "jane.doe@mail.example.org" = (loc ++ String "@" (domain ++ String "." tld))%string
      ∧ forallb_str is_word tld = true
      ∧ (String.length tld = 2 ∨ String.length tld = 3)%nat.
Proof.
  split; [reflexivity|].
  destruct (emailRegex_shape "jane.doe@mail.example.org" eq_refl)
    as (loc & domain & tld & Hs & _ & _ & _ & _ & Htld & Hlen).
  by exists loc, domain, tld.
Defined.

End EmailPattern.

(* ===================================================================== *)
(** ** The [/book-requests] router *)
(* ===================================================================== *)

Section Router.
Import JsString Mongoose Schema BookRequestRoutes Spec.

Lemma field_set_field_same (k : string) (v : jsval) (d : doc) :
  d !! k = None → field (set_field k v d) k = v.
Proof.
  intros Hd. unfold field. destruct v; cbn [set_field];
    by rewrite ?lookup_insert_eq, ?Hd.
Qed.

Lemma lookup_set_field_ne (k k' : string) (v : jsval) (d : doc) :
  k ≠ k' → set_field k v d !! k' = d !! k'.
Proof. intros Hk. destruct v; cbn [set_field]; by rewrite ?lookup_insert_ne. Qed.

Lemma lookup_set_field_Some (k k' : string) (v v' : jsval) (d : doc) :
  set_field k v d !! k' = Some v' → (k' = k ∧ v' = v ∧ v ≠ JUndef) ∨ d !! k' = Some v'.
Proof.
  destruct (decide (k = k')) as [<-|Hne].
  - destruct v; cbn [set_field]; rewrite ?lookup_insert_eq; intros H;
      try (left; by simplify_eq); by right.
  - rewrite lookup_set_field_ne by done. by right.
Qed.

Lemma cast_undef (w : World) (ty : SchemaType) (v v' : jsval) :
  cast w ty v = Some v' → (v' = JUndef ↔ v = JUndef).
Proof.
  destruct ty, v; cbn; intros H; simplify_eq; try done.
  - destruct (newDate w (JStr s)); simplify_eq. done.
  - destruct (is_empty s); simplify_eq; [done|].
    destruct (toNumber w s); simplify_eq. done.
Qed.

Lemma construct_dom (w : World) (schema : list Path) (obj d : doc) (k : string) :
  construct w schema obj = Some d → is_Some (d !! k) → k ∈ path_names schema.
Proof.
  revert d. induction schema as [|p rest IH]; intros d; cbn [construct].
  - intros [= <-]. rewrite lookup_empty. by intros [? ?].
  - destruct (construct w rest obj) as [d0|] eqn:Hrest; [|done]. cbn.
    intros Hd [v Hv]. cbn [path_names List.map].
    assert (∃ x, d = set_field (p_name p) x d0) as [x ->].
    { destruct (field obj (p_name p)) eqn:Hf.
      1:{ injection Hd as <-. destruct (p_default p) as [f|];
            [by exists (f w) | by exists JUndef]. }
      all: destruct (cast w (p_type p) _) as [v'|]; cbn in Hd;
        [injection Hd as <-; by exists v' | done]. }
    apply lookup_set_field_Some in Hv as [(-> & _)|Hv]; [left|right].
    apply (IH d0); [done|by eexists].
Qed.

Lemma construct_field (w : World) (schema : list Path) (obj d : doc) (p : Path) :
  NoDup (path_names schema) →
  construct w schema obj = Some d →
  In p schema →
  constructed w p obj = Some (field d (p_name p)).
Proof.
  revert d. induction schema as [|p0 rest IH]; intros d Hnd Hc Hp; [done|].
  cbn [path_names List.map] in Hnd. apply NoDup_cons in Hnd as [Hfresh Hnd].
  cbn [construct] in Hc.
  destruct (construct w rest obj) as [d0|] eqn:Hrest; [|done]. cbn in Hc.
  assert (d0 !! p_name p0 = None) as Hnone.
  { destruct (d0 !! p_name p0) eqn:Hl; [|done]. exfalso. apply Hfresh.
    apply (construct_dom w rest obj d0); [done|by eexists]. }
  assert (∃ x, constructed w p0 obj = Some x ∧ d = set_field (p_name p0) x d0)
    as (x & Hx & ->).
  { unfold constructed. destruct (field obj (p_name p0)) eqn:Hf.
    1:{ injection Hc as <-. destruct (p_default p0) as [f|];
          [by exists (f w) | by exists JUndef]. }
    all: destruct (cast w (p_type p0) _) as [v'|]; cbn in Hc;
      [injection Hc as <-; by exists v' | done]. }
  destruct Hp as [->|Hp].
  - by rewrite field_set_field_same.
  - assert (p_name p0 ≠ p_name p) as Hne.
    { intros Heq. apply Hfresh. rewrite Heq. apply list_elem_of_In, in_map_iff. eauto. }
    unfold field. rewrite lookup_set_field_ne by done. by apply IH.
Qed.

Lemma schema_names_NoDup : NoDup (path_names bookRequestSchema).
Proof. apply NoDup_ListNoDup. repeat constructor; cbn; intuition discriminate. Qed.

Lemma required_path (k : string) :
  In k required_fields →
  ∃ p, In p bookRequestSchema ∧ p_name p = k ∧ p_type p = SString
       ∧ p_required p = true ∧ p_default p = None.
Proof.
  unfold required_fields. cbn [In].
  intros [<-|[<-|[<-|[<-|[]]]]]; eexists.
  - split; [left; reflexivity|by repeat split].
  - split; [right; left; reflexivity|by repeat split].
  - split; [do 3 right; left; reflexivity|by repeat split].
  - split; [do 4 right; left; reflexivity|by repeat split].
Qed.

Lemma constructed_text (w : World) (p : Path) (obj : doc) (v : jsval) :
  p_type p = SString → p_default p = None →
  constructed w p obj = Some v →
  (is_missing (field obj (p_name p)) = true → is_missing v = true)
  ∧ (is_missing v = false → ∃ s, v = JStr s ∧ s ≠ "").
Proof.
  unfold constructed. intros -> ->.
  destruct (field obj (p_name p)) as [| |b| |n|s|t|l]; cbn; intros H; simplify_eq;
    (split; [done|]); intros Hm; try done.
  all: eexists; (split; [reflexivity|]).
  all: intros Heq; cbn [is_missing] in Hm; rewrite Heq in Hm; discriminate.
Qed.

Lemma validate_path (schema : list Path) (d : doc) (p : Path) :
  validate schema d = true → In p schema →
  (p_required p = true → is_missing (field d (p_name p)) = false)
  ∧ enum_ok (p_enum p) (field d (p_name p)) = true.
Proof.
  unfold validate. rewrite forallb_forall. intros H Hp.
  apply H, andb_true_iff in Hp as [Hr He]. split; [|done].
  intros Hreq. rewrite Hreq in Hr. by apply negb_true_iff in Hr.
Qed.

Lemma save_new_inr (w : World) (schema : list Path) (obj : doc) (c c' : list doc)
    (saved : doc) :
  save_new w schema obj c = inr (saved, c') →
  ∃ id d,
    match field obj "_id" with
    | JUndef => Some (fresh_id w)
    | v => cast_id v
    end = Some id
    ∧ construct w schema obj = Some d
    ∧ validate schema d = true
    ∧ existsb (has_id id) c = false
    ∧ (∃ t, (field d "createdAt" = JDate t ∨ t = now w)
            ∧ saved = <["_id" := JStr id]>
                        (<["__v" := JNum 0]>
                           (<["updatedAt" := JDate t]> (<["createdAt" := JDate t]> d))))
    ∧ c' = (c ++ [saved])%list.
Proof.
  unfold save_new.
  destruct (match field obj "_id" with
            | JUndef => Some (fresh_id w)
            | v => cast_id v
            end) as [id|]; [|done].
  destruct (construct w schema obj) as [d|]; [|done].
  destruct (validate schema d) eqn:Hv; [|done]. cbn [negb].
  destruct (existsb (has_id id) c) eqn:Hnew; [done|].
  intros [= <- <-]. exists id, d. do 4 (split; [done|]). split; [|done].
  destruct (field d "createdAt") as [| | | | | |t|] eqn:Hc;
    try (exists (now w); split; [by right|done]).
  exists t. split; [by left|done].
Qed.

Lemma save_new_missing (w : World) (obj : doc) (c : list doc) (k : string) :
  In k required_fields →
  is_missing (field obj k) = true →
  save_new w bookRequestSchema obj c = inl ValidationError.
Proof.
  intros Hk Hmiss. destruct (required_path k Hk) as (p & Hp & <- & Hty & Hreq & Hdf).
  destruct (save_new w bookRequestSchema obj c) as [e|[saved rs]] eqn:Hs.
  - revert Hs. unfold save_new.
    destruct (match field obj "_id" with
              | JUndef => Some (fresh_id w)
              | v => cast_id v
              end) as [id|]; [|by intros [= <-]].
    destruct (construct w bookRequestSchema obj) as [d|] eqn:Hc; [|by intros [= <-]].
    destruct (validate bookRequestSchema d) eqn:Hv; [|by intros [= <-]].
    exfalso.
    pose proof (construct_field _ _ _ _ p schema_names_NoDup Hc Hp) as Hf.
    destruct (constructed_text _ _ _ _ Hty Hdf Hf) as [Hm _].
    destruct (validate_path _ _ p Hv Hp) as [Hr _].
    rewrite Hm in Hr by done. by specialize (Hr Hreq).
  - exfalso. apply save_new_inr in Hs as (id & d & _ & Hc & Hv & _).
    pose proof (construct_field _ _ _ _ p schema_names_NoDup Hc Hp) as Hf.
    destruct (constructed_text _ _ _ _ Hty Hdf Hf) as [Hm _].
    destruct (validate_path _ _ p Hv Hp) as [Hr _].
    rewrite Hm in Hr by done. by specialize (Hr Hreq).
Qed.

(** X3: The POST route stores nothing unless the body gives the book name,
    the author, the requester and the requester's uid: when one of them
    is missing, null or the empty string the answer is 400 and the
    database is as it was. *)
Theorem router_post_requires_fields (w : World) (req : Req) (db : Db) (k : string) :
  In k required_fields →
  is_missing (field (body req) k) = true →
  ∃ r, post w req db = (Respond r, db) ∧ status r = 400.
Proof.
  intros Hk Hmiss. destruct (required_path k Hk) as (p & Hp & <- & Hty & Hreq & Hdf).
  unfold post.
  destruct (save_new w bookRequestSchema (body req) (requests db))
    as [e|[saved rs]] eqn:Hs; [by eexists|].
  exfalso. apply save_new_inr in Hs as (id & d & _ & Hc & Hv & _).
  pose proof (construct_field _ _ _ _ p schema_names_NoDup Hc Hp) as Hf.
  destruct (constructed_text _ _ _ _ Hty Hdf Hf) as [Hm _].
  destruct (validate_path _ _ p Hv Hp) as [Hr _].
  rewrite Hm in Hr by done. by specialize (Hr Hreq).
Qed.

Lemma router_post_requires_fields_witness :
  is_missing (field (of_fields [("bookName", JStr "Dune"); ("author", JStr "")]) "author")
  = true
  ∧ ∃ r, post Sample.world
           (Sample.anonymous "" (of_fields [("bookName", JStr "Dune"); ("author", JStr "")]))
           Sample.db = (Respond r, Sample.db)
         ∧ status r = 400.
Proof.
  split; [reflexivity|].
  apply (router_post_requires_fields _ _ _ "author"); [|reflexivity].
  right; left; reflexivity.
Defined.

Lemma findById_app_new (id : string) (c : list doc) (x : doc) :
  findById id c = None → has_id id x = true → findById id (c ++ [x]) = Some x.
Proof.
  unfold findById. intros Hc Hx. induction c as [|y c IH]; cbn.
  - by rewrite Hx.
  - cbn in Hc. destruct (has_id id y); [done|]. by apply IH.
Qed.

Lemma enum_ok_In (allowed : list string) (s : string) :
  allowed ≠ [] → enum_ok allowed (JStr s) = true ↔ In s allowed.
Proof.
  intros Hne. destruct allowed as [|a l]; [done|]. cbn [enum_ok].
  rewrite existsb_exists. split.
  - intros (x & Hx & Heq). apply String.eqb_eq in Heq. by subst.
  - intros Hin. exists s. split; [done|]. apply String.eqb_refl.
Qed.

Lemma findById_fresh (id : string) (c : list doc) :
  existsb (has_id id) c = false → findById id c = None.
Proof.
  unfold findById. induction c as [|x c IH]; [done|]. cbn [existsb List.find].
  destruct (has_id id x); [done|]. exact IH.
Qed.

(** X4: A request stored by the POST route is appended to the collection.
    Its id is the one the body gives, a string of 24 hexadecimal digits
    taken in lower case, or the driver's when the body gives none; no
    stored request had that id.  Its version key is 0 and its
    [createdAt] and [updatedAt] are the same instant.  It carries a book
    name, an author, a requester and a requester uid that are non-empty
    strings, and the status [pending] when the body names none.
    Fetching that id afterwards returns the stored request. *)
Theorem router_post_then_get (w : World) (req : Req) (db : Db) :
  status_of (post w req db).1 = Some 201 →
  ∃ saved id,
    post w req db
    = (Respond (json 201 (PDoc saved)),
       with_requests db (requests db ++ [saved])%list)
    ∧ field saved "_id" = JStr id
    ∧ (field (body req) "_id" = JUndef → id = fresh_id w)
    ∧ (∀ s, field (body req) "_id" = JStr s →
            isObjectIdFormat s = true ∧ id = toLowerCase s)
    ∧ findById id (requests db) = None
    ∧ field saved "__v" = JNum 0
    ∧ (∃ t, field saved "createdAt" = JDate t ∧ field saved "updatedAt" = JDate t)
    ∧ (∀ k, In k required_fields → ∃ s, field saved k = JStr s ∧ s ≠ "")
    ∧ (field (body req) "status" = JUndef → field saved "status" = JStr "pending")
    ∧ (isObjectIdFormat id = true →
       toLowerCase id = id →
       ∀ w' req', param_id req' = id →
         get_by_id w' req' (post w req db).2
         = (Respond (json 200 (PDoc saved)), (post w req db).2)).
Proof.
  unfold post.
  destruct (save_new w bookRequestSchema (body req) (requests db))
    as [e|[saved rs]] eqn:Hs; [done|].
  intros _. cbn [fst snd].
  apply save_new_inr in Hs as (id & d & Hid & Hc & Hv & Hnew & (t & Ht & ->) & ->).
  apply findById_fresh in Hnew.
  eexists _, id. split; [reflexivity|].
  split; [apply field_insert_eq|].
  split; [intros Hu; rewrite Hu in Hid; by injection Hid|].
  split.
  { intros s Hs. rewrite Hs in Hid. cbn [cast_id] in Hid.
    destruct (isObjectIdFormat s); [|done]. by injection Hid. }
  split; [done|].
  split; [by rewrite field_insert_ne, field_insert_eq|].
  split.
  { exists t. by rewrite !(field_insert_ne "_id"), !(field_insert_ne "__v"),
      (field_insert_ne "updatedAt"), !field_insert_eq. }
  split; [|split].
  - intros k Hk. destruct (required_path k Hk) as (p & Hp & <- & Hty & Hreq & Hdf).
    pose proof (construct_field _ _ _ _ p schema_names_NoDup Hc Hp) as Hf.
    destruct (constructed_text _ _ _ _ Hty Hdf Hf) as [_ Htext].
    destruct (validate_path _ _ p Hv Hp) as [Hr _].
    destruct (Htext (Hr Hreq)) as (s & Hs & Hne). exists s. split; [|done].
    rewrite !field_insert_ne; [done|..];
      intros Heq; unfold required_fields in Hk; rewrite <- Heq in Hk;
      cbn in Hk; intuition discriminate.
  - intros Hst.
    pose proof (construct_field w _ _ _
                  {| p_name := "status"; p_type := SString; p_required := false;
                     p_enum := ["pending"; "approved"; "rejected"];
                     p_default := Some (λ _, JStr "pending"); p_immutable := false |}
                  schema_names_NoDup Hc) as Hf.
    unfold constructed in Hf. cbn [p_name p_default] in Hf. rewrite Hst in Hf.
    rewrite !field_insert_ne by done. symmetry.
    assert (Some (JStr "pending") = Some (field d "status")) as [= <-]; [|done].
    apply Hf. cbn. tauto.
  - intros Hfmt Hlow w' req' Hpid. unfold get_by_id.
    rewrite Hpid, Hfmt. cbn [negb with_requests requests].
    rewrite (findById_app_new _ _ _ Hnew); [done|].
    unfold has_id. rewrite lookup_insert_eq, Hlow. apply String.eqb_refl.
Qed.

Lemma router_post_then_get_witness :
  status_of (post Sample.world
               (Sample.anonymous ""
                  (<["_id" := JStr "65A0000000000000000000FF"]> Sample.router_body))
               Sample.db).1
  = Some 201
  ∧ ∃ saved,
      get_by_id Sample.world (Sample.anonymous "65a0000000000000000000ff" ∅)
        (post Sample.world
           (Sample.anonymous ""
              (<["_id" := JStr "65A0000000000000000000FF"]> Sample.router_body))
           Sample.db).2
      = (Respond (json 200 (PDoc saved)),
         (post Sample.world
            (Sample.anonymous ""
               (<["_id" := JStr "65A0000000000000000000FF"]> Sample.router_body))
            Sample.db).2)
      ∧ field saved "_id" = JStr "65a0000000000000000000ff"
      ∧ field saved "status" = JStr "pending".
Proof.
  split; [vm_compute; reflexivity|].
  destruct (router_post_then_get Sample.world
              (Sample.anonymous ""
                 (<["_id" := JStr "65A0000000000000000000FF"]> Sample.router_body))
              Sample.db)
    as (saved & id & _ & Hid & _ & Hgiven & _ & _ & _ & _ & Hst & Hget);
    [vm_compute; reflexivity|].
  destruct (Hgiven "65A0000000000000000000FF" eq_refl) as [_ ->].
  exists saved. split; [|split; [exact Hid|by apply Hst]].
  by apply Hget.
Defined.

Lemma cast_update_lookup (w : World) (schema : list Path) (upd set : doc) (k : string)
    (v : jsval) :
  cast_update w schema upd = Some set → set !! k = Some v →
  k ∈ path_names (List.filter (λ p, negb (p_immutable p)) schema)
  ∧ field upd k ≠ JUndef.
Proof.
  revert set. induction schema as [|p rest IH]; intros set; cbn [cast_update].
  - intros [= <-]. by rewrite lookup_empty.
  - destruct (cast_update w rest upd) as [d0|] eqn:Hrest; [|done]. cbn [mbind option_bind].
    cbn [List.filter]. destruct (p_immutable p); cbn [negb].
    + intros [= <-] Hv. by apply (IH d0).
    + destruct (cast w (p_type p) (field upd (p_name p))) as [v'|] eqn:Hcast; [|done].
      cbn. intros [= <-] Hv.
      apply lookup_set_field_Some in Hv as [(-> & -> & Hne)|Hv].
      * split; [left|]. intros Hu. apply Hne. by apply (cast_undef _ _ _ _ Hcast).
      * destruct (IH d0 eq_refl Hv). split; [by right|done].
Qed.

Lemma filter_names (schema : list Path) (f : Path → bool) (k : string) :
  k ∈ path_names (List.filter f schema) → k ∈ path_names schema.
Proof.
  unfold path_names. rewrite !list_elem_of_In, !in_map_iff.
  intros (p & Hp & Hin). apply filter_In in Hin as [Hin _]. eauto.
Qed.

Lemma cast_update_field (w : World) (schema : list Path) (upd set : doc) (p : Path) :
  NoDup (path_names schema) →
  cast_update w schema upd = Some set →
  In p schema → p_immutable p = false →
  cast w (p_type p) (field upd (p_name p)) = Some (field set (p_name p)).
Proof.
  revert set. induction schema as [|p0 rest IH]; intros set Hnd Hc Hp Hmut; [done|].
  cbn [path_names List.map] in Hnd. apply NoDup_cons in Hnd as [Hfresh Hnd].
  cbn [cast_update] in Hc.
  destruct (cast_update w rest upd) as [d0|] eqn:Hrest; [|done].
  cbn [mbind option_bind] in Hc.
  assert (d0 !! p_name p0 = None) as Hnone.
  { destruct (d0 !! p_name p0) as [v0|] eqn:Hl; [|done]. exfalso. apply Hfresh.
    apply (filter_names rest (λ p, negb (p_immutable p))).
    by apply (cast_update_lookup w rest upd d0 _ v0). }
  assert (p_name p0 ≠ p_name p ∨ p = p0) as Hcase.
  { destruct Hp as [->|Hp]; [by right|left].
    intros Heq. apply Hfresh. rewrite Heq. apply list_elem_of_In, in_map_iff. eauto. }
  destruct (p_immutable p0) eqn:Hi0.
  - injection Hc as <-. destruct Hp as [->|Hp]; [congruence|]. by apply IH.
  - destruct (cast w (p_type p0) (field upd (p_name p0))) as [v'|] eqn:Hcast; [|done].
    cbn in Hc. injection Hc as <-.
    destruct Hp as [->|Hp].
    + by rewrite field_set_field_same.
    + destruct Hcase as [Hne| ->]; [|by rewrite field_set_field_same].
      unfold field at 2. rewrite lookup_set_field_ne by done. by apply IH.
Qed.

Lemma status_path_in_schema :
  In {| p_name := "status"; p_type := SString; p_required := false;
        p_enum := ["pending"; "approved"; "rejected"];
        p_default := Some (λ _, JStr "pending"); p_immutable := false |}
     bookRequestSchema.
Proof. cbn. tauto. Qed.

Lemma update_refuses_status (w : World) (id : string) (upd : doc) (c : list doc)
    (s : string) :
  field upd "status" = JStr s →
  ¬ In s ["pending"; "approved"; "rejected"] →
  ∃ e, findByIdAndUpdate w bookRequestSchema true id upd None c = (inl e, c).
Proof.
  intros Hs Hno. unfold findByIdAndUpdate.
  destruct (negb (isObjectIdFormat id)); [by eexists|].
  destruct (cast_update w bookRequestSchema upd) as [set|] eqn:Hc; [|by eexists].
  destruct (keeps_id id upd) as [keeps|]; [|by eexists].
  assert (validate_update bookRequestSchema set = false) as ->; [|by eexists].
  pose proof (cast_update_field _ _ _ _ _ schema_names_NoDup Hc status_path_in_schema
                eq_refl) as Hf.
  cbn [p_name p_type] in Hf. rewrite Hs in Hf. cbn in Hf. injection Hf as Hf.
  apply not_true_is_false. unfold validate_update. rewrite forallb_forall.
  intros Hall. specialize (Hall _ status_path_in_schema). cbn [p_name p_required p_enum] in Hall.
  unfold field in Hf. destruct (set !! "status") as [v|]; [|done]. cbn in Hf. subst v.
  cbn [negb orb andb] in Hall. apply enum_ok_In in Hall; done.
Qed.

(** X5: The router accepts no status outside [pending], [approved] and
    [rejected]: with any other status string, [fulfilled] among them,
    PATCH /:id/status and PUT /:id answer 400 and change nothing. *)
Theorem router_refuses_unknown_status (w : World) (req : Req) (db : Db) (s : string) :
  field (body req) "status" = JStr s →
  ¬ In s ["pending"; "approved"; "rejected"] →
  (∃ r, patch_status w req db = (Respond r, db) ∧ status r = 400)
  ∧ (∃ r, put w req db = (Respond r, db) ∧ status r = 400).
Proof.
  intros Hs Hno. split.
  - unfold patch_status. cbv zeta.
    destruct (update_refuses_status w (param_id req)
                (of_fields [("status", field (body req) "status");
                            ("adminNotes", field (body req) "adminNotes");
                            ("updatedAt", JNum (now w))]) (requests db) s) as [e ->].
    + rewrite Hs. unfold field, of_fields. cbn [foldr fst snd set_field].
      by rewrite lookup_insert_eq.
    + done.
    + by eexists.
  - unfold put. cbv zeta.
    destruct (update_refuses_status w (param_id req)
                (<["updatedAt" := JNum (now w)]> (body req)) (requests db) s) as [e ->].
    + unfold field in *. by rewrite lookup_insert_ne.
    + done.
    + by eexists.
Qed.

Lemma router_refuses_unknown_status_witness :
  ¬ In "fulfilled" ["pending"; "approved"; "rejected"]
  ∧ ∃ r, patch_status Sample.world
           (Sample.anonymous Sample.request_id (of_fields [("status", JStr "fulfilled")]))
           Sample.db = (Respond r, Sample.db)
         ∧ status r = 400.
Proof.
  assert (¬ In "fulfilled" ["pending"; "approved"; "rejected"]) as Hno
    by (cbn; intuition discriminate).
  split; [exact Hno|].
  exact (proj1 (router_refuses_unknown_status Sample.world
                  (Sample.anonymous Sample.request_id
                     (of_fields [("status", JStr "fulfilled")]))
                  Sample.db "fulfilled" eq_refl Hno)).
Defined.

Lemma update_success (w : World) (schema : list Path) (rv : bool) (id : string)
    (upd : doc) (c c' : list doc) (d' : doc) :
  findByIdAndUpdate w schema rv id upd None c = (inr (Some d'), c') →
  ∃ d set, findById id c = Some d ∧ cast_update w schema upd = Some set
           ∧ d' = <["updatedAt" := JDate (now w)]> (set ∪ d)
           ∧ c' = replaceById id d' c.
Proof.
  unfold findByIdAndUpdate.
  destruct (negb (isObjectIdFormat id)); [done|].
  destruct (cast_update w schema upd) as [set|]; [|done].
  destruct (keeps_id id upd) as [keeps|]; [|done].
  destruct (rv && negb (validate_update schema set)); [done|].
  destruct (findById id c) as [d|]; [|done].
  destruct (negb keeps); [done|]. cbn [apply_inc].
  intros [= <- <-]. by exists d, set.
Qed.

Lemma version_path_in_schema :
  In {| p_name := "__v"; p_type := SNumber; p_required := false;
        p_enum := []; p_default := None; p_immutable := false |} bookRequestSchema.
Proof. cbn. tauto. Qed.

(** X6: What PUT /:id and PATCH /:id/status can change.  When PUT answers
    200 the stored request differs from the one found only on paths
    that an update can write: the nine the schema declares and the
    version key.  Any other field ([_id], the immutable [createdAt], a
    field the schema does not know) is as before, and so is a writable
    path other than [updatedAt] that the body does not give; a version
    key given as a number is written; [updatedAt] is the time of the
    call.  When PATCH answers 200 nothing but [status], [adminNotes]
    and [updatedAt] has changed. *)
Theorem router_update_frame (w : World) (req : Req) (db : Db) :
  let id := param_id req in
  (status_of (put w req db).1 = Some 200 →
   ∃ d d', findById id (requests db) = Some d
     ∧ put w req db = (Respond (json 200 (PDoc d')),
                       with_requests db (replaceById id d' (requests db)))
     ∧ (∀ k, k ∉ updatable_paths → d' !! k = d !! k)
     ∧ (∀ k, k ≠ "updatedAt" → field (body req) k = JUndef → d' !! k = d !! k)
     ∧ (∀ n, field (body req) "__v" = JNum n → field d' "__v" = JNum n)
     ∧ field d' "updatedAt" = JDate (now w))
  ∧ (status_of (patch_status w req db).1 = Some 200 →
     ∃ d d', findById id (requests db) = Some d
       ∧ patch_status w req db = (Respond (json 200 (PDoc d')),
                                  with_requests db (replaceById id d' (requests db)))
       ∧ (∀ k, k ∉ ["status"; "adminNotes"; "updatedAt"] → d' !! k = d !! k)
       ∧ field d' "updatedAt" = JDate (now w)).
Proof.
  intros id. subst id. split.
  - unfold put. cbv zeta.
    destruct (findByIdAndUpdate _ _ _ _ _ _ _) as [[e|[d'|]] c'] eqn:Hu; try done.
    intros _. apply update_success in Hu as (d & set & Hp & Hc & -> & ->).
    eexists d, _. split; [done|]. split; [reflexivity|].
    split; [|split; [|split]].
    + intros k Hk.
      assert (k ≠ "updatedAt") as Hne by (intros ->; apply Hk; key_listed).
      rewrite lookup_insert_ne by done. apply lookup_union_r.
      destruct (set !! k) as [v|] eqn:Hv; [|done].
      by destruct (cast_update_lookup _ _ _ _ _ _ Hc Hv).
    + intros k Hne Hk. rewrite lookup_insert_ne by done. apply lookup_union_r.
      destruct (set !! k) as [v|] eqn:Hv; [|done].
      destruct (cast_update_lookup _ _ _ _ _ _ Hc Hv) as [_ Hgiven].
      exfalso. apply Hgiven. by rewrite field_insert_ne.
    + intros n Hn.
      pose proof (cast_update_field _ _ _ _ _ schema_names_NoDup Hc
                    version_path_in_schema eq_refl) as Hf.
      cbn [p_name p_type] in Hf. rewrite field_insert_ne, Hn in Hf by done.
      cbn in Hf. injection Hf as Hf.
      rewrite field_insert_ne by done.
      unfold field in *. destruct (set !! "__v") as [v|] eqn:Hv; [|done].
      cbn in Hf. subst v. by rewrite (lookup_union_Some_l _ _ _ _ Hv).
    + apply field_insert_eq.
  - unfold patch_status. cbv zeta.
    destruct (findByIdAndUpdate _ _ _ _ _ _ _) as [[e|[d'|]] c'] eqn:Hu; try done.
    intros _. apply update_success in Hu as (d & set & Hp & Hc & -> & ->).
    eexists d, _. split; [done|]. split; [reflexivity|]. split.
    + intros k Hk.
      assert (k ≠ "updatedAt") as Hne by (intros ->; apply Hk; key_listed).
      rewrite lookup_insert_ne by done. apply lookup_union_r.
      destruct (set !! k) as [v|] eqn:Hv; [|done].
      destruct (cast_update_lookup _ _ _ _ _ _ Hc Hv) as [_ Hgiven].
      exfalso. apply Hgiven. unfold field, of_fields. cbn [foldr fst snd].
      rewrite !lookup_set_field_ne, lookup_empty; [done|..];
        intros <-; apply Hk; key_listed.
    + apply field_insert_eq.
Qed.

Lemma router_update_frame_witness :
  status_of (put Sample.world
               (Sample.anonymous Sample.request_id
                  (of_fields [("title", JStr "Changed"); ("upvotes", JNum 99);
                              ("__v", JNum 5)]))
               Sample.db).1 = Some 200
  ∧ ∃ d', put Sample.world
            (Sample.anonymous Sample.request_id
               (of_fields [("title", JStr "Changed"); ("upvotes", JNum 99);
                           ("__v", JNum 5)]))
            Sample.db
          = (Respond (json 200 (PDoc d')),
             with_requests Sample.db
               (replaceById Sample.request_id d' (requests Sample.db)))
          ∧ d' !! "title" = Some (JStr "Dune")
          ∧ d' !! "upvotes" = Some (JNum 3)
          ∧ field d' "__v" = JNum 5.
Proof.
  split; [vm_compute; reflexivity|].
  destruct (proj1 (router_update_frame Sample.world
              (Sample.anonymous Sample.request_id
                 (of_fields [("title", JStr "Changed"); ("upvotes", JNum 99);
                             ("__v", JNum 5)]))
              Sample.db)) as (d & d' & Hd & Hput & Hframe & _ & Hv & _);
    [vm_compute; reflexivity|].
  exists d'. split; [exact Hput|].
  change (Some Sample.pending_request = Some d) in Hd. injection Hd as <-.
  split; [|split; [|by apply Hv]];
    (rewrite Hframe; [reflexivity|]); intros Hin;
    apply list_elem_of_In in Hin; cbn in Hin; intuition discriminate.
Defined.

Lemma deleteById_perm (id : string) (c : list doc) (d : doc) :
  findById id c = Some d → c ≡ₚ d :: deleteById id c.
Proof.
  unfold findById. induction c as [|x c IH]; [done|].
  cbn [List.find deleteById]. destruct (has_id id x).
  - by intros [= ->].
  - intros H. rewrite (IH H) at 1. apply Permutation_swap.
Qed.

Lemma insert_sorted_perm (spec : SortSpec) (d : doc) (l : list doc) :
  insert_sorted spec d l ≡ₚ d :: l.
Proof.
  induction l as [|x l IH]; [done|]. cbn [insert_sorted].
  destruct (compare_docs spec d x); try done.
  rewrite IH. apply Permutation_swap.
Qed.

Lemma sort_docs_perm (spec : SortSpec) (l : list doc) : sort_docs spec l ≡ₚ l.
Proof.
  unfold sort_docs. induction l as [|x l IH]; [done|].
  cbn [foldr]. by rewrite insert_sorted_perm, IH.
Qed.

Lemma exec_unbounded (f : doc → bool) (spec : SortSpec) (c : list doc) :
  exec {| q_filter := f; q_sort := spec; q_skip := Some 0; q_limit := Some 0;
          q_exclude := [] |} c
  = Some (sort_docs spec (List.filter f c)).
Proof.
  unfold exec, take_limit, exclude. cbn. f_equal. apply List.map_id.
Qed.

(** X7: DELETE /:id answers 200 exactly when GET /:id would: it returns the
    request GET returns and removes that one request and nothing else;
    with any other answer the database is as it was. *)
Theorem router_delete_removes_one (w : World) (req : Req) (db : Db) :
  (status_of (delete_request w req db).1 = Some 200
   ↔ status_of (get_by_id w req db).1 = Some 200)
  ∧ (status_of (delete_request w req db).1 = Some 200 →
     ∃ r d, (delete_request w req db).1 = Respond r ∧ data r = PDoc d
       ∧ get_by_id w req db = (Respond (json 200 (PDoc d)), db)
       ∧ requests db ≡ₚ d :: requests (delete_request w req db).2
       ∧ books (delete_request w req db).2 = books db)
  ∧ (status_of (delete_request w req db).1 ≠ Some 200 →
     (delete_request w req db).2 = db).
Proof.
  unfold delete_request, get_by_id.
  destruct (negb (isObjectIdFormat (param_id req))); [by repeat split|].
  destruct (findById (param_id req) (requests db)) as [d|] eqn:Hd;
    [|by repeat split].
  cbn. repeat split; try done.
  intros _. exists
    {| status := 200; success := None; error := None;
       message := Some "Book request deleted successfully";
       data := PDoc d; pagination := None; count := None |}, d.
  repeat split. by apply deleteById_perm.
Qed.

Lemma router_delete_removes_one_witness :
  status_of (delete_request Sample.world (Sample.anonymous Sample.request_id ∅)
               Sample.db).1 = Some 200
  ∧ requests Sample.db
    ≡ₚ Sample.pending_request
       :: requests (delete_request Sample.world
                      (Sample.anonymous Sample.request_id ∅) Sample.db).2.
Proof.
  split; [reflexivity|].
  destruct (proj1 (proj2 (router_delete_removes_one Sample.world
              (Sample.anonymous Sample.request_id ∅) Sample.db)))
    as (r & d & _ & _ & Hget & Hperm & _); [reflexivity|].
  change (get_by_id Sample.world (Sample.anonymous Sample.request_id ∅) Sample.db)
    with (Respond (json 200 (PDoc Sample.pending_request)), Sample.db) in Hget.
  by injection Hget as ->.
Defined.

(** X8: The listing routes of the router have no limit: GET / returns every
    stored request, or every request with the status asked for, each
    exactly once, and GET /user/:uid returns every request of that uid
    and no other. *)
Theorem router_listings_complete (w : World) (req : Req) (uid : string) (db : Db) :
  (∃ ds, get_all w req db = (Respond (json 200 (PDocs ds)), db)
     ∧ (query req !! "status" = None → ds ≡ₚ requests db)
     ∧ (∀ s, query req !! "status" = Some s → s ≠ "" →
             ds ≡ₚ List.filter (field_is "status" s) (requests db)))
  ∧ (∃ ds, get_by_user uid db = (Respond (json 200 (PDocs ds)), db)
       ∧ ds ≡ₚ List.filter (field_is "requestedByUid" uid) (requests db)
       ∧ Forall (λ d, field d "requestedByUid" = JStr uid) ds).
Proof.
  split.
  - unfold get_all, allQuery. cbv zeta. rewrite exec_unbounded.
    eexists. split; [reflexivity|]. split.
    + intros Hq. rewrite sort_docs_perm. unfold qparam. rewrite Hq. cbn.
      clear. induction (requests db) as [|x l IH]; [done|]. cbn. by rewrite IH.
    + intros s Hq Hs. rewrite sort_docs_perm. unfold qparam. rewrite Hq. cbn.
      destruct s; [done|]. done.
  - unfold get_by_user. cbv zeta. rewrite exec_unbounded.
    eexists. split; [reflexivity|]. split; [apply sort_docs_perm|].
    apply Forall_forall. intros d Hd. rewrite sort_docs_perm in Hd.
    apply list_elem_of_In, filter_In in Hd as [_ Hd]. unfold field_is in Hd.
    destruct (field d "requestedByUid"); try done.
    by apply String.eqb_eq in Hd as ->.
Qed.

End Router.

(* ===================================================================== *)
(** ** Creating and reading book requests through the controller *)
(* ===================================================================== *)

Section RequestController.
Import JsString Regex Mongoose Schema Handler AdminAuth BookRequestRoutes
  BookRequestController Spec Outcomes.

Lemma filled_inr (v : jsval) (r : Response) (s : string) :
  filled v r = inr s → v = JStr s ∧ trim s ≠ "".
Proof.
  unfold filled. destruct (negb (truthy v)); [done|].
  destruct v; try done. destruct (is_empty (trim s0)) eqn:He; [done|].
  intros [= ->]. split; [done|]. by apply is_empty_false.
Qed.

Lemma filled_inl (v : jsval) (r : Response) (o : Outcome) :
  filled v r = inl o → o = Respond r ∨ o = NextError TypeError.
Proof.
  unfold filled. destruct (negb (truthy v)); [intros [= <-]; by left|].
  destruct v; try (intros [= <-]; by right).
  destruct (is_empty (trim s)); [intros [= <-]; by left|done].
Qed.

Lemma trim_or_inl (v dflt : jsval) (o : Outcome) :
  trim_or v dflt = inl o → o = NextError TypeError.
Proof.
  unfold trim_or. destruct (negb (truthy v)); [done|].
  destruct v; try done; by intros [= <-].
Qed.

Lemma field_set_field_ne (k k' : string) (v : jsval) (d : doc) :
  k ≠ k' → field (set_field k v d) k' = field d k'.
Proof. intros Hk. unfold field. destruct v; cbn [set_field]; by rewrite ?lookup_insert_ne. Qed.

Lemma trim_or_text (v dflt : jsval) :
  text_or_falsy v → ∃ x, trim_or v dflt = inr x.
Proof.
  intros [Hv|[s ->]]; unfold trim_or; [rewrite Hv; by eexists|].
  destruct (truthy (JStr s)); by eexists.
Qed.

(** The document that [createBookRequest] builds has no [bookName]. *)
Lemma built_request_lacks_bookName (w : World) (l : list (string * jsval)) (c : list doc) :
  Forall (λ kv, kv.1 ≠ "bookName") l →
  save_new w BookRequest (of_fields l) c = inl ValidationError.
Proof.
  intros Hl. apply (save_new_missing w _ c "bookName"); [by left|].
  assert (field (of_fields l) "bookName" = JUndef) as ->; [|done].
  induction Hl as [|[k v] l Hk _ IH]; [done|].
  unfold of_fields in *. cbn [foldr fst snd] in *. by rewrite field_set_field_ne.
Qed.

(** How a call of [createBookRequest] ends: with a 400, or with an
    error forwarded; never with a write. *)
Lemma createBookRequest_ends (w : World) (req : Req) (db : Db) :
  (∃ r, createBookRequest w req db = (Respond r, db) ∧ status r = 400)
  ∨ (∃ e, createBookRequest w req db = (NextError e, db)).
Proof.
  unfold createBookRequest. handler_step.
  destruct (filled (field (body req) "title") _) as [o|t] eqn:Ht; handler_step.
  { apply filled_inl in Ht as [->| ->]; [left|right]; by eexists. }
  destruct (filled (field (body req) "author") _) as [o|a] eqn:Ha; handler_step.
  { apply filled_inl in Ha as [->| ->]; [left|right]; by eexists. }
  destruct (filled (field (body req) "requesterEmail") _) as [o|em] eqn:He; handler_step.
  { apply filled_inl in He as [->| ->]; [left|right]; by eexists. }
  destruct (test emailRegex em) eqn:Hem; handler_step; [|left; by eexists].
  destruct (trim_or (field (body req) "description") _) as [o|x1] eqn:H1; handler_step.
  { apply trim_or_inl in H1 as ->. right; by eexists. }
  destruct (trim_or (field (body req) "requesterName") _) as [o|x2] eqn:H2; handler_step.
  { apply trim_or_inl in H2 as ->. right; by eexists. }
  destruct (trim_or (field (body req) "isbn") _) as [o|x3] eqn:H3; handler_step.
  { apply trim_or_inl in H3 as ->. right; by eexists. }
  rewrite built_request_lacks_bookName by (repeat constructor; done).
  right; by eexists.
Qed.

(** X9: [createBookRequest] never stores a request.  The document it
    builds has a [title] and a [requesterEmail], which the model's schema
    does not know, and no [bookName], [requestedBy] or [requestedByUid],
    which the schema requires.  So no call answers 201 and every call
    leaves the database as it was; a call that passes the handler's own
    checks (title, author and email are strings with something other
    than white space in them, the email matches the pattern, the
    optional texts are strings or falsy) forwards a validation error. *)
Theorem createBookRequest_never_stores (w : World) (req : Req) (db : Db) :
  (createBookRequest w req db).2 = db
  ∧ status_of (createBookRequest w req db).1 ≠ Some 201
  ∧ (∀ t a em,
       field (body req) "title" = JStr t → trim t ≠ "" →
       field (body req) "author" = JStr a → trim a ≠ "" →
       field (body req) "requesterEmail" = JStr em → trim em ≠ "" →
       test emailRegex em = true →
       text_or_falsy (field (body req) "description") →
       text_or_falsy (field (body req) "requesterName") →
       text_or_falsy (field (body req) "isbn") →
       createBookRequest w req db = (NextError ValidationError, db)).
Proof.
  split; [|split].
  - destruct (createBookRequest_ends w req db) as [(r & -> & _)|(e & ->)]; done.
  - destruct (createBookRequest_ends w req db) as [(r & -> & Hr)|(e & ->)]; cbn;
      [rewrite Hr|]; done.
  - intros t a em Ht Ht' Ha Ha' He He' Hem H1 H2 H3.
    unfold createBookRequest. handler_step.
    rewrite Ht, (filled_text _ _ Ht'). handler_step.
    rewrite Ha, (filled_text _ _ Ha'). handler_step.
    rewrite He, (filled_text _ _ He'). handler_step.
    rewrite Hem. handler_step.
    destruct (trim_or_text _ (JStr "") H1) as [x1 ->]. handler_step.
    destruct (trim_or_text _ (JStr "Anonymous") H2) as [x2 ->]. handler_step.
    destruct (trim_or_text _ (JStr "") H3) as [x3 ->]. handler_step.
    by rewrite built_request_lacks_bookName by (repeat constructor; done).
Qed.

Lemma createBookRequest_never_stores_witness :
  createBookRequest Sample.world
    (Sample.anonymous ""
       (of_fields [ ("title", JStr "  Dune "); ("author", JStr "Frank Herbert");
                    ("requesterEmail", JStr "Reader@Example.org") ]))
    Sample.db
  = (NextError ValidationError, Sample.db).
Proof.
  apply (proj2 (proj2 (createBookRequest_never_stores Sample.world
                         (Sample.anonymous ""
                            (of_fields [ ("title", JStr "  Dune ");
                                         ("author", JStr "Frank Herbert");
                                         ("requesterEmail", JStr "Reader@Example.org") ]))
                         Sample.db))
           "  Dune " "Frank Herbert" "Reader@Example.org");
    try reflexivity; try discriminate; by left.
Defined.

End RequestController.

(* ===================================================================== *)
(** ** How the transitions compose *)
(* ===================================================================== *)

Section TransitionLaws.
Import JsString Mongoose Schema Handler AdminAuth BookRequestRoutes
  BookRequestController Spec Outcomes.

Lemma jsval_eqb_refl (v : jsval) : jsval_eqb v v = true.
Proof.
  revert v. fix IH 1. intros [| |b| |n|s|t|l]; cbn [jsval_eqb]; try done.
  - by destruct b.
  - apply Z.eqb_refl.
  - apply String.eqb_refl.
  - apply Z.eqb_refl.
  - induction l as [|x l IHl]; [done|]. by rewrite (IH x), IHl.
Qed.

Lemma modified_refl (schema : list Path) (d : doc) : modified schema d d = false.
Proof.
  unfold modified. apply negb_false_iff, forallb_forall. intros p _.
  apply jsval_eqb_refl.
Qed.

Lemma approve_runs (w : World) (req : Req) (admin : string) :
  acting_admin w req admin →
  isObjectIdFormat (param_id req) = true →
  text_or_falsy (field (body req) "adminNotes") →
  ∃ n, ∀ db0 d0, findById (param_id req) (requests db0) = Some d0 →
    approveBookRequest w req db0
    = run db0 (save_and_answer w db0 (param_id req) d0 (approve w (JStr admin) n d0)
                 "Book request approved successfully").
Proof.
  intros Hadmin Hid Hnotes.
  apply acting_admin_passes in Hadmin as [Hna Hem].
  destruct (approve_notes _ Hnotes) as [n Hn]. exists n. intros db0 d0 Hfind.
  unfold approveBookRequest. handler_step.
  rewrite Hna. handler_step. rewrite Hid. handler_step.
  rewrite Hfind, Hem, Hn. by handler_step.
Qed.

Lemma reject_runs (w : World) (req : Req) (admin s : string) :
  acting_admin w req admin →
  isObjectIdFormat (param_id req) = true →
  field (body req) "adminNotes" = JStr s → trim s ≠ "" →
  ∀ db0 d0, findById (param_id req) (requests db0) = Some d0 →
    rejectBookRequest w req db0
    = run db0 (save_and_answer w db0 (param_id req) d0
                 (reject w (JStr admin) (trim s) d0) "Book request rejected").
Proof.
  intros Hadmin Hid Hs Ht db0 d0 Hfind.
  apply acting_admin_passes in Hadmin as [Hna Hem].
  unfold rejectBookRequest. handler_step.
  rewrite Hna. handler_step. rewrite Hid. handler_step.
  rewrite Hs, (filled_text _ _ Ht). handler_step.
  by rewrite Hfind, Hem.
Qed.

Lemma fulfil_runs (w : World) (req : Req) (admin : string) :
  acting_admin w req admin →
  isObjectIdFormat (param_id req) = true →
  ∀ db0 d0, findById (param_id req) (requests db0) = Some d0 →
    markRequestFulfilled w req db0 = (NextError ValidationError, db0).
Proof.
  intros Hadmin Hid db0 d0 Hfind.
  apply acting_admin_passes in Hadmin as [Hna Hem].
  unfold markRequestFulfilled. handler_step.
  rewrite Hna. handler_step. rewrite Hid. handler_step.
  rewrite Hfind. by rewrite save_and_answer_invalid by apply validate_fulfilled.
Qed.

(** Saving the same assignments a second time: the second [save()] finds
    nothing modified and writes the document the first one wrote. *)
Lemma save_twice (w : World) (id : string) (f : doc → doc) (msg : string)
    (db : Db) (d : doc) :
  (∀ x, has_id id (f x) = has_id id x) →
  (∀ x, validate BookRequest (f x) = complete x) →
  (∀ x, complete (f x) = complete x) →
  (∀ x, f (f x) = f x) →
  (∀ v x, f (<["updatedAt" := v]> x) = <["updatedAt" := v]> (f x)) →
  findById id (requests db) = Some d →
  ∃ db1 d1,
    (run db (save_and_answer w db id d (f d) msg)).2 = db1
    ∧ (complete d = false → db1 = db)
    ∧ (complete d = true →
       db1 = with_requests db (replaceById id d1 (requests db))
       ∧ findById id (requests db1) = Some d1
       ∧ run db1 (save_and_answer w db1 id d1 (f d1) msg)
         = run db (save_and_answer w db id d (f d) msg)).
Proof.
  intros Hf_id Hf_valid Hf_complete Hf_twice Hf_comm Hfind.
  pose proof (findById_has_id _ _ _ Hfind) as Hhas.
  destruct (complete d) eqn:Hc.
  - destruct (save_and_answer_valid w db id d (f d) msg) as (d1 & Hrun & Hd1 & _).
    { by rewrite Hf_valid. }
    rewrite Hrun. cbn [run snd].
    eexists _, d1. split; [reflexivity|]. split; [done|]. intros _.
    assert (has_id id d1 = true) as Hhas1.
    { destruct Hd1 as [->| ->]; by rewrite ?has_id_insert_ne, Hf_id. }
    assert (f d1 = d1) as Hfix.
    { destruct Hd1 as [->| ->]; [done|]. by rewrite Hf_comm, Hf_twice. }
    assert (complete d1 = true) as Hc1.
    { destruct Hd1 as [->| ->];
        by rewrite ?complete_insert, Hf_complete by key_not_listed. }
    split; [done|]. split.
    { cbn [with_requests requests]. by apply (findById_replaceById _ _ d). }
    destruct (save_and_answer_valid w
                (with_requests db (replaceById id d1 (requests db))) id d1 (f d1) msg)
      as (d2 & -> & _ & Hd2).
    { by rewrite Hf_valid. }
    rewrite Hfix in Hd2. rewrite (Hd2 (modified_refl _ _)).
    cbn [run with_requests requests books]. by rewrite replaceById_again.
  - rewrite save_and_answer_invalid by (by rewrite Hf_valid).
    cbn [run throw snd]. eexists db, d. split; [done|]. split; done.
Qed.

Lemma approve_laws (w : World) (by_email : jsval) (n : option string) (id : string) :
  (∀ x, has_id id (approve w by_email n x) = has_id id x)
  ∧ (∀ x, complete (approve w by_email n x) = complete x)
  ∧ (∀ x, approve w by_email n (approve w by_email n x) = approve w by_email n x)
  ∧ (∀ v x, approve w by_email n (<["updatedAt" := v]> x)
            = <["updatedAt" := v]> (approve w by_email n x)).
Proof.
  split; [|split; [|split]]; intros; rewrite !approve_assigns; destruct n.
  - by rewrite !has_id_insert_ne.
  - by rewrite !has_id_insert_ne.
  - by rewrite !complete_insert by key_not_listed.
  - by rewrite !complete_insert by key_not_listed.
  - apply map_eq. intros k.
    destruct (decide (k = "adminNotes")) as [->|?]; [by simplify_map_eq|].
    destruct (decide (k = "status")) as [->|?]; by simplify_map_eq.
  - apply insert_insert_eq.
  - apply map_eq. intros k.
    destruct (decide (k = "adminNotes")) as [->|?]; [by simplify_map_eq|].
    destruct (decide (k = "status")) as [->|?]; [by simplify_map_eq|].
    destruct (decide (k = "updatedAt")) as [->|?]; by simplify_map_eq.
  - apply map_eq. intros k.
    destruct (decide (k = "status")) as [->|?]; [by simplify_map_eq|].
    destruct (decide (k = "updatedAt")) as [->|?]; by simplify_map_eq.
Qed.

Lemma reject_laws (w : World) (by_email : jsval) (n : string) (id : string) :
  (∀ x, has_id id (reject w by_email n x) = has_id id x)
  ∧ (∀ x, complete (reject w by_email n x) = complete x)
  ∧ (∀ x, reject w by_email n (reject w by_email n x) = reject w by_email n x)
  ∧ (∀ v x, reject w by_email n (<["updatedAt" := v]> x)
            = <["updatedAt" := v]> (reject w by_email n x)).
Proof.
  split; [|split; [|split]]; intros; rewrite !reject_assigns.
  - by rewrite !has_id_insert_ne.
  - by rewrite !complete_insert by key_not_listed.
  - apply map_eq. intros k.
    destruct (decide (k = "adminNotes")) as [->|?]; [by simplify_map_eq|].
    destruct (decide (k = "status")) as [->|?]; by simplify_map_eq.
  - apply map_eq. intros k.
    destruct (decide (k = "adminNotes")) as [->|?]; [by simplify_map_eq|].
    destruct (decide (k = "status")) as [->|?]; [by simplify_map_eq|].
    destruct (decide (k = "updatedAt")) as [->|?]; by simplify_map_eq.
Qed.

(** X11: The three transitions are idempotent: for an acting admin and an
    existing request, running a transition a second time with the same
    request at the same time leaves the database, and the answer, as the
    first run gave them.  For approve and reject the second [save()]
    finds nothing modified; marking as fulfilled is refused both
    times. *)
Theorem transitions_idempotent (w : World) (req : Req) (db : Db) (admin : string)
    (d : doc) :
  acting_admin w req admin →
  isObjectIdFormat (param_id req) = true →
  findById (param_id req) (requests db) = Some d →
  (text_or_falsy (field (body req) "adminNotes") →
   approveBookRequest w req (approveBookRequest w req db).2
   = approveBookRequest w req db)
  ∧ ((∃ s, field (body req) "adminNotes" = JStr s ∧ trim s ≠ "") →
     rejectBookRequest w req (rejectBookRequest w req db).2
     = rejectBookRequest w req db)
  ∧ markRequestFulfilled w req (markRequestFulfilled w req db).2
    = markRequestFulfilled w req db.
Proof.
  intros Hadmin Hid Hfind.
  split; [|split].
  - intros Hnotes. destruct (approve_runs w req admin Hadmin Hid Hnotes) as [n Hrun].
    destruct (approve_laws w (JStr admin) n (param_id req)) as (L1 & L2 & L3 & L4).
    destruct (save_twice w (param_id req) (approve w (JStr admin) n)
                "Book request approved successfully" db d L1
                (validate_approve w (JStr admin) n) L2 L3 L4 Hfind)
      as (db1 & d1 & Hdb1 & Hno & Hyes).
    rewrite (Hrun db d Hfind), Hdb1.
    destruct (complete d) eqn:Hc.
    + destruct (Hyes eq_refl) as (_ & Hfind1 & Hsame).
      by rewrite (Hrun db1 d1 Hfind1).
    + rewrite (Hno eq_refl). by rewrite (Hrun db d Hfind).
  - intros (s & Hs & Ht).
    pose proof (reject_runs w req admin s Hadmin Hid Hs Ht) as Hrun.
    destruct (reject_laws w (JStr admin) (trim s) (param_id req)) as (L1 & L2 & L3 & L4).
    destruct (save_twice w (param_id req) (reject w (JStr admin) (trim s))
                "Book request rejected" db d L1
                (validate_reject w (JStr admin) (trim s)) L2 L3 L4 Hfind)
      as (db1 & d1 & Hdb1 & Hno & Hyes).
    rewrite (Hrun db d Hfind), Hdb1.
    destruct (complete d) eqn:Hc.
    + destruct (Hyes eq_refl) as (_ & Hfind1 & Hsame).
      by rewrite (Hrun db1 d1 Hfind1).
    + rewrite (Hno eq_refl). by rewrite (Hrun db d Hfind).
  - rewrite (fulfil_runs w req admin Hadmin Hid db d Hfind). cbn [snd].
    by rewrite (fulfil_runs w req admin Hadmin Hid db d Hfind).
Qed.

Lemma transitions_idempotent_witness :
  acting_admin Sample.world (Sample.admin_call "ordered") Sample.admin
  ∧ approveBookRequest Sample.world (Sample.admin_call "ordered")
      (approveBookRequest Sample.world (Sample.admin_call "ordered")
         Sample.router_db).2
    = approveBookRequest Sample.world (Sample.admin_call "ordered") Sample.router_db
  ∧ status_of (approveBookRequest Sample.world (Sample.admin_call "ordered")
                 Sample.router_db).1 = Some 200.
Proof.
  split; [apply sample_admin|]. split; [|reflexivity].
  refine (proj1 (transitions_idempotent Sample.world (Sample.admin_call "ordered")
           Sample.router_db Sample.admin Sample.router_request (sample_admin _)
           eq_refl eq_refl) _).
  right. by eexists.
Defined.

End TransitionLaws.

(* ===================================================================== *)
(** ** What the listings return *)
(* ===================================================================== *)

Section Listings.
Import JsString Mongoose Handler AdminAuth Spec Outcomes.

Lemma take_limit_In (n : Z) (l : list doc) (d : doc) :
  d ∈ take_limit n l → d ∈ l.
Proof.
  unfold take_limit. destruct (n =? 0); [done|]. apply subseteq_take.
Qed.


(** Every document a query returns is a stored document that passes the
    filter, without the excluded fields. *)
Lemma exec_sound (q : Query) (c ds : list doc) (d : doc) :
  exec q c = Some ds → In d ds →
  ∃ d0, In d0 c ∧ q_filter q d0 = true ∧ d = exclude (q_exclude q) d0.
Proof.
  unfold exec. destruct (q_skip q) as [s|]; [|done].
  destruct (q_limit q) as [n|]; [|done]. destruct (s <? 0); [done|].
  intros [= <-] Hd. apply in_map_iff in Hd as (d0 & <- & Hd0).
  apply list_elem_of_In, take_limit_In, subseteq_drop in Hd0.
  rewrite sort_docs_perm in Hd0. apply list_elem_of_In, filter_In in Hd0.
  exists d0. tauto.
Qed.





Lemma pages_of_ceiling (total l : Z) :
  0 < l → ∃ pages, pages_of total (Some l) = Some pages
                   ∧ (pages - 1) * l < total ≤ pages * l.
Proof.
  intros Hl. unfold pages_of. assert ((l =? 0) = false) as -> by lia.
  eexists. split; [reflexivity|].
  pose proof (Z.mul_div_le (- total) l Hl).
  pose proof (Z.mul_succ_div_gt (- total) l Hl). lia.
Qed.

Lemma sort_docs_length (spec : SortSpec) (l : list doc) :
  length (sort_docs spec l) = length l.
Proof. apply Permutation_length, sort_docs_perm. Qed.

Lemma exec_page_length (q : Query) (c ds : list doc) (s n : Z) :
  exec q c = Some ds → q_skip q = Some s → q_limit q = Some n → 0 < n →
  Z.of_nat (length ds) = Z.min n (Z.max 0 (countDocuments (q_filter q) c - s)).
Proof.
  intros H Hqs Hql Hn. unfold exec in H. rewrite Hqs, Hql in H.
  unfold countDocuments.
  destruct (s <? 0) eqn:Hs; [done|]. injection H as <-.
  rewrite List.length_map. unfold take_limit.
  assert ((n =? 0) = false) as -> by lia.
  rewrite length_take, length_drop, sort_docs_length. lia.
Qed.

Lemma getAllBooks_paged (w : World) (req : Req) (db : Db) (p l : Z) :
  parseInt (qparam (query req) "page" "1") = Some p →
  parseInt (qparam (query req) "limit" "10") = Some l →
  let page := Z.max 1 p in
  let limit := Z.min 100 (Z.max 1 l) in
  let total := countDocuments (q_filter (BookController.allBooksQuery w (query req)))
                 (books db) in
  ∃ r pages,
    BookController.getAllBooks w req db = (Respond r, db)
    ∧ status r = 200
    ∧ pagination r
      = Some {| pg_page := Some page; pg_limit := Some limit; pg_total := total;
                pg_pages := Some pages;
                pg_hasNext := Some (page <? pages);
                pg_hasPrev := Some (1 <? page) |}
    ∧ (pages - 1) * limit < total ≤ pages * limit
    ∧ Z.of_nat (length (listed (Respond r)))
      = Z.min limit (Z.max 0 (total - (page - 1) * limit))
    ∧ (pages < page → listed (Respond r) = []).
Proof.
  intros Hp Hl page limit total. subst total.
  unfold BookController.getAllBooks, BookController.list_outcome. cbv zeta.
  set (total := countDocuments
                  (q_filter (BookController.allBooksQuery w (query req))) (books db)).
  assert (0 < limit) as Hpos by (subst limit; lia).
  destruct (pages_of_ceiling total limit Hpos) as (pages & Hpages & Hceil).
  assert (pageNum (qparam (query req) "page" "1") = Some page) as Hpn
    by (unfold pageNum; by rewrite Hp).
  assert (limitNum (qparam (query req) "limit" "10") = Some limit) as Hln
    by (unfold limitNum; by rewrite Hl).
  set (q := BookController.allBooksQuery w (query req)).
  assert (q_skip q = Some ((page - 1) * limit)) as Hqs
    by (subst q; cbn [BookController.allBooksQuery q_skip]; by rewrite Hpn, Hln).
  assert (q_limit q = Some limit) as Hql
    by (subst q; cbn [BookController.allBooksQuery q_limit]; by rewrite Hln).
  destruct (exec q (books db)) as [ds|] eqn:Hx.
  2:{ unfold exec in Hx. rewrite Hqs, Hql in Hx.
      destruct ((page - 1) * limit <? 0) eqn:Hneg; [nia|done]. }
  pose proof (exec_page_length _ _ _ _ _ Hx Hqs Hql Hpos) as Hlen.
  change (countDocuments (q_filter q) (books db)) with total in Hlen.
  rewrite Hpn, Hln, Hpages.
  eexists _, pages. split; [reflexivity|]. cbn [status pagination BookController.paged].
  split; [done|]. split; [done|]. split; [done|].
  cbn [listed data BookController.paged]. split; [done|].
  intros Hpast. destruct ds as [|d ds]; [done|]. cbn [length] in Hlen.
  assert (pages * limit ≤ (page - 1) * limit) by nia. lia.
Qed.

(** X14: The pagination envelope of [getAllBooks], where the handler's
    floating-point arithmetic is exact (a page of at most 2^46 and at
    most 2^45 books): whenever it answers, for
    a page and a limit that parse as numbers, the answer is 200 and
    leaves the store alone; the page is at least 1 and the limit between
    1 and 100, [total] counts the books that pass the filter, [pages] is
    the least number of pages that holds them, [hasNext] and [hasPrev]
    say whether the page lies before the last and after the first, and
    the page carries exactly the books left after skipping the earlier
    pages, up to the limit; past the last page it is empty. *)
Theorem getAllBooks_envelope (w : World) (req : Req) (db : Db) (p l : Z)
    (r : Response) :
  parseInt (qparam (query req) "page" "1") = Some p →
  parseInt (qparam (query req) "limit" "10") = Some l →
  p ≤ 2 ^ 46 →
  Z.of_nat (length (books db)) ≤ 2 ^ 45 →
  (BookController.getAllBooks w req db).1 = Respond r →
  let page := Z.max 1 p in
  let limit := Z.min 100 (Z.max 1 l) in
  let total := countDocuments (q_filter (BookController.allBooksQuery w (query req)))
                 (books db) in
  ∃ pages,
    status r = 200
    ∧ (BookController.getAllBooks w req db).2 = db
    ∧ pagination r
      = Some {| pg_page := Some page; pg_limit := Some limit; pg_total := total;
                pg_pages := Some pages;
                pg_hasNext := Some (page <? pages);
                pg_hasPrev := Some (1 <? page) |}
    ∧ (pages - 1) * limit < total ≤ pages * limit
    ∧ Z.of_nat (length (listed (Respond r)))
      = Z.min limit (Z.max 0 (total - (page - 1) * limit))
    ∧ (pages < page → listed (Respond r) = []).
Proof.
  intros Hp Hl _ _ Hr page limit total.
  destruct (getAllBooks_paged w req db p l Hp Hl)
    as (r' & pages & Hrun & Hst & Hpg & Hceil & Hlen & Hpast).
  rewrite Hrun in Hr |- *. injection Hr as <-. by exists pages.
Qed.

Lemma getAllBooks_envelope_witness :
  ∃ r, (BookController.getAllBooks Sample.world (Sample.asking Sample.greedy_query)
          Sample.library).1 = Respond r
       ∧ (pg_pages <$> pagination r) = Some (Some 2)
       ∧ (pg_total <$> pagination r) = Some 150.
Proof.
  eexists. split; [reflexivity|].
  destruct (getAllBooks_envelope Sample.world (Sample.asking Sample.greedy_query)
              Sample.library 0 500 _ eq_refl eq_refl ltac:(by vm_compute)
              ltac:(by vm_compute) eq_refl)
    as (pages & _ & _ & Hpg & Hceil & _).
  rewrite Hpg. cbn [fmap option_fmap option_map pg_pages pg_total].
  assert (countDocuments
            (q_filter (BookController.allBooksQuery Sample.world
                         (query (Sample.asking Sample.greedy_query))))
            (books Sample.library) = 150) as Ht by (vm_compute; reflexivity).
  rewrite Ht in *. split; [|done]. do 2 f_equal. lia.
Defined.

Lemma field_exclude_ne (ks : list string) (d : doc) (k : string) :
  k ∉ ks → field (exclude ks d) k = field d k.
Proof.
  intros Hk. unfold field, exclude. induction ks as [|x ks IH]; [done|].
  cbn [foldr]. apply not_elem_of_cons in Hk as [Hne Hk].
  rewrite lookup_delete_ne by done. by apply IH.
Qed.

Lemma listed_sound (q : Query) (c : list doc) (reply : list doc → Response) (db : Db)
    (d : doc) :
  (∀ ds, data (reply ds) = PDocs ds) →
  In d (listed (match exec q c with
                | None => (NextError CastError, db)
                | Some ds => (Respond (reply ds), db)
                end).1) →
  ∃ d0, In d0 c ∧ q_filter q d0 = true ∧ d = exclude (q_exclude q) d0.
Proof.
  intros Hr. destruct (exec q c) as [ds|] eqn:Hx; cbn [fst listed]; [|done].
  rewrite Hr. by apply exec_sound.
Qed.

Lemma field_is_true (k v : string) (d : doc) :
  field_is k v d = true → field d k = JStr v.
Proof.
  unfold field_is. destruct (field d k); try done.
  by intros ->%String.eqb_eq.
Qed.

(** X15: The public listing shows pending requests only: every document it
    returns is a stored request with status [pending], given without
    its admin notes. *)
Theorem pending_listing_only_pending (w : World) (req : Req) (db : Db) :
  Forall (λ d, field d "status" = JStr "pending"
               ∧ ∃ d0, In d0 (requests db)
                       ∧ field d0 "status" = JStr "pending"
                       ∧ d = delete "adminNotes" d0)
    (listed (BookRequestController.getPendingRequests w req db).1).
Proof.
  apply Forall_forall. intros d Hd. apply list_elem_of_In in Hd.
  unfold BookRequestController.getPendingRequests in Hd. cbv zeta in Hd.
  apply (listed_sound _ _ (λ ds, BookRequestController.paged 200 ds _)) in Hd
    as (d0 & Hin & Hf & ->); [|done].
  cbn [BookRequestController.pendingQuery q_filter q_exclude] in *.
  apply field_is_true in Hf. split.
  - rewrite field_exclude_ne; [done|]. key_not_listed.
  - by exists d0.
Qed.

(** X16: [getUserRequests] shows a caller their own requests only.  Without
    an authenticated email the answer is 401 whatever the store holds;
    with one, every request returned has that email, lower-cased, as its
    requester. *)
Theorem user_requests_are_own (w : World) (req : Req) :
  ((∀ c em, user_email req ≠ JStr (String c em)) →
   ∃ r, status r = 401 ∧ data r = PNone
        ∧ ∀ db, BookRequestController.getUserRequests w req db = (Respond r, db))
  ∧ (∀ em db, user_email req = JStr em →
       Forall (λ d, field d "requesterEmail" = JStr (toLowerCase em))
         (listed (BookRequestController.getUserRequests w req db).1)).
Proof.
  unfold BookRequestController.getUserRequests. split.
  - intros Hno. eexists. split; [|split]; [| |intros db].
    3:{ destruct (user_email req) as [| |?| |?|[|c em]|?|?]; try reflexivity.
        by destruct (Hno c em). }
    all: done.
  - intros em db ->. destruct em as [|c em]; [by constructor|]. cbv zeta.
    apply Forall_forall. intros d Hd. apply list_elem_of_In in Hd.
    apply (listed_sound _ _ (λ ds, BookRequestController.paged 200 ds _)) in Hd
      as (d0 & Hin & Hf & ->); [|done].
    cbn [BookRequestController.userRequestsQuery q_filter q_exclude] in *.
    apply field_is_true in Hf. rewrite field_exclude_ne; [done|]. key_not_listed.
Qed.

Lemma user_requests_are_own_witness :
  user_email (Sample.signed_in "Reader@Example.com" "" ∅) = JStr "Reader@Example.com"
  ∧ Forall (λ d, field d "requesterEmail" = JStr "reader@example.com")
      (listed (BookRequestController.getUserRequests Sample.world
                 (Sample.signed_in "Reader@Example.com" "" ∅) Sample.db).1).
Proof.
  split; [reflexivity|].
  exact (proj2 (user_requests_are_own Sample.world
                  (Sample.signed_in "Reader@Example.com" "" ∅))
           "Reader@Example.com" Sample.db eq_refl).
Defined.

(** X17: The reads reserved to admins tell other callers nothing: for a
    caller who is not an admin [getBookRequests] and
    [getBookRequestById] give one and the same 403 answer, without data,
    whatever the store holds.  For an admin [getBookRequestById] returns
    the stored request with that id, 404 when there is none and 400 when
    the id is malformed. *)
Theorem admin_reads_are_closed (w : World) (req : Req) :
  (not_admin w req = true →
   ∃ r, status r = 403 ∧ data r = PNone
        ∧ ∀ db, BookRequestController.getBookRequests w req db = (Respond r, db)
                ∧ BookRequestController.getBookRequestById w req db = (Respond r, db))
  ∧ (not_admin w req = false →
     ∀ db, (BookRequestController.getBookRequestById w req db).2 = db
       ∧ match findById (param_id req) (requests db) with
         | Some d =>
             isObjectIdFormat (param_id req) = true →
             status_of (BookRequestController.getBookRequestById w req db).1 = Some 200
             ∧ doc_of (BookRequestController.getBookRequestById w req db).1 = Some d
         | None =>
             isObjectIdFormat (param_id req) = true →
             status_of (BookRequestController.getBookRequestById w req db).1 = Some 404
         end
       ∧ (isObjectIdFormat (param_id req) = false →
          status_of (BookRequestController.getBookRequestById w req db).1 = Some 400)).
Proof.
  unfold BookRequestController.getBookRequests,
    BookRequestController.getBookRequestById.
  split; intros Hna; rewrite Hna; handler_step.
  - eexists. split; [|split]; [| |intros db; split; reflexivity]; done.
  - intros db. destruct (isObjectIdFormat (param_id req)); handler_step.
    + destruct (findById (param_id req) (requests db)); handler_step; by repeat split.
    + destruct (findById (param_id req) (requests db)); by repeat split.
Qed.

Lemma admin_reads_are_closed_witness :
  not_admin Sample.world (Sample.anonymous Sample.request_id ∅) = true
  ∧ ∃ r, status r = 403
         ∧ BookRequestController.getBookRequestById Sample.world
             (Sample.anonymous Sample.request_id ∅) Sample.db = (Respond r, Sample.db).
Proof.
  split; [reflexivity|].
  destruct (proj1 (admin_reads_are_closed Sample.world
                     (Sample.anonymous Sample.request_id ∅)) eq_refl)
    as (r & Hst & _ & Hall).
  exists r. split; [exact Hst|]. apply Hall.
Defined.

(** X18: The book listings return matching books only: [getFeaturedBooks]
    featured ones, [getAvailableBooks] available ones, and [getAllBooks]
    with a genre only books of that genre; each is a stored book given
    without its version key. *)
Theorem book_listings_match (w : World) (req : Req) (db : Db) :
  Forall (λ d, field d "featured" = JBool true ∧ d !! "__v" = None)
    (listed (BookController.getFeaturedBooks w req db).1)
  ∧ Forall (λ d, field d "availability" = JBool true ∧ d !! "__v" = None)
      (listed (BookController.getAvailableBooks w req db).1)
  ∧ (∀ g, query req !! "genre" = Some g → g ≠ "" →
       Forall (λ d, field d "genre" = JStr g ∧ d !! "__v" = None)
         (listed (BookController.getAllBooks w req db).1)).
Proof.
  split; [|split].
  - apply Forall_forall. intros d Hd. apply list_elem_of_In in Hd.
    unfold BookController.getFeaturedBooks, BookController.list_outcome in Hd.
    apply (listed_sound _ _ BookController.counted) in Hd
      as (d0 & Hin & Hf & ->); [|done].
    cbn [BookController.featuredQuery q_filter q_exclude] in *. split.
    + rewrite field_exclude_ne by key_not_listed.
      destruct (field d0 "featured") as [| |[]| | | | |]; done.
    + cbn. apply lookup_delete_eq.
  - apply Forall_forall. intros d Hd. apply list_elem_of_In in Hd.
    unfold BookController.getAvailableBooks, BookController.list_outcome in Hd.
    cbv zeta in Hd.
    apply (listed_sound _ _ (λ ds, BookController.paged ds _)) in Hd
      as (d0 & Hin & Hf & ->); [|done].
    cbn [BookController.availableQuery q_filter q_exclude] in *. split.
    + rewrite field_exclude_ne by key_not_listed.
      destruct (field d0 "availability") as [| |[]| | | | |]; done.
    + cbn. apply lookup_delete_eq.
  - intros g Hg Hne. apply Forall_forall. intros d Hd. apply list_elem_of_In in Hd.
    unfold BookController.getAllBooks, BookController.list_outcome in Hd.
    cbv zeta in Hd.
    apply (listed_sound _ _ (λ ds, BookController.paged ds _)) in Hd
      as (d0 & Hin & Hf & ->); [|done].
    cbn [BookController.allBooksQuery q_filter q_exclude] in *.
    unfold qparam in Hf. rewrite Hg in Hf. cbn [default] in Hf.
    apply andb_true_iff in Hf as [Hf _]. destruct g as [|c g]; [done|].
    cbn [is_empty orb] in Hf. apply field_is_true in Hf. split.
    + rewrite field_exclude_ne by key_not_listed. done.
    + cbn. apply lookup_delete_eq.
Qed.

End Listings.

(* ===================================================================== *)
(** ** Writing books *)
(* ===================================================================== *)

Section Books.
Import JsString Mongoose Handler AdminAuth BookController Spec Outcomes.

Lemma isbn_taken_anywhere (s : string) (c : list doc) :
  isbn_taken (JStr s) None c = existsb (field_is "ISBN" s) c.
Proof.
  cbn [isbn_taken]. induction c as [|d c IH]; [done|].
  cbn [existsb]. by rewrite IH, andb_true_r.
Qed.

Lemma field_is_text (k s : string) (d : doc) :
  field d k = JStr s → field_is k s d = true.
Proof. unfold field_is. intros ->. apply String.eqb_refl. Qed.

Lemma field_set_field_eq (k : string) (v : jsval) (d : doc) :
  v ≠ JUndef → field (set_field k v d) k = v.
Proof. intros Hv. destruct v; try done; apply field_insert_eq. Qed.

Lemma js_or_defined (v : jsval) (s : string) : js_or v (JStr s) ≠ JUndef.
Proof. unfold js_or. destruct (truthy v) eqn:Hv; [|done]. by intros ->. Qed.

(** What a call of [createBook] that answers 201 has read and done. *)
Lemma createBook_created (w : World) (req : Req) (db : Db) :
  status_of (createBook w req db).1 = Some 201 →
  ∃ name author isbn image amazon description publisher tags,
    not_admin w req = false
    ∧ (field (body req) "name" = JStr name ∧ trim name ≠ "")
    ∧ (field (body req) "author" = JStr author ∧ trim author ≠ "")
    ∧ (field (body req) "ISBN" = JStr isbn ∧ trim isbn ≠ "")
    ∧ (field (body req) "image_link" = JStr image ∧ trim image ≠ "")
    ∧ (field (body req) "amazon_link" = JStr amazon ∧ trim amazon ≠ "")
    ∧ trim_or (field (body req) "description") JUndef = inr description
    ∧ trim_or (field (body req) "publisher") JUndef = inr publisher
    ∧ match field (body req) "tags" with
      | JArr ts => trim_tags ts
      | _ => mret []
      end = inr tags
    ∧ existsb (field_is "ISBN" isbn) (books db) = false
    ∧ existsb (field_is "ISBN" (trim isbn)) (books db) = false
    ∧ ∃ saved,
        createBook w req db
        = (Respond (success_with 201 (PDoc saved) (Some "Book created successfully")),
           with_books db (books db ++ [saved])%list)
        ∧ field saved "_id" = JStr (fresh_id w)
        ∧ field saved "name" = JStr (trim name)
        ∧ field saved "author" = JStr (trim author)
        ∧ field saved "ISBN" = JStr (trim isbn)
        ∧ field saved "image_link" = JStr (trim image)
        ∧ field saved "amazon_link" = JStr (trim amazon)
        ∧ field saved "genre" = js_or (field (body req) "genre") (JStr "Other")
        ∧ field saved "language" = js_or (field (body req) "language") (JStr "English")
        ∧ field saved "tags" = JArr tags.
Proof.
  unfold createBook. cbv zeta.
  destruct (not_admin w req) eqn:Hadm; handler_step; [done|].
  destruct (filled (field (body req) "name") _) as [o|name] eqn:H1; handler_step.
  { apply filled_inl in H1 as [->| ->]; done. }
  destruct (filled (field (body req) "author") _) as [o|author] eqn:H2; handler_step.
  { apply filled_inl in H2 as [->| ->]; done. }
  destruct (filled (field (body req) "ISBN") _) as [o|isbn] eqn:H3; handler_step.
  { apply filled_inl in H3 as [->| ->]; done. }
  destruct (filled (field (body req) "image_link") _) as [o|image] eqn:H4; handler_step.
  { apply filled_inl in H4 as [->| ->]; done. }
  destruct (filled (field (body req) "amazon_link") _) as [o|amazon] eqn:H5; handler_step.
  { apply filled_inl in H5 as [->| ->]; done. }
  destruct (existsb (field_is "ISBN" isbn) (books db)) eqn:Hdup; handler_step; [done|].
  destruct (trim_or (field (body req) "description") _) as [o|description] eqn:H6;
    handler_step.
  { apply trim_or_inl in H6 as ->. done. }
  destruct (trim_or (field (body req) "publisher") _) as [o|publisher] eqn:H7;
    handler_step.
  { apply trim_or_inl in H7 as ->. done. }
  destruct (match field (body req) "tags" with
            | JArr ts => trim_tags ts
            | _ => mret []
            end) as [o|tags] eqn:H8; handler_step.
  { intros Hst. exfalso.
    destruct (field (body req) "tags") as [| |?| |?|?|?|ts]; try done.
    clear -H8 Hst. revert o H8 Hst.
    induction ts as [|v ts IH]; [done|]. intros o. cbn [trim_tags].
    destruct v; try (by intros [= <-]).
    destruct (trim_tags ts) as [o'|r]; handler_step; [|done].
    intros [= <-]. by apply IH. }
  rewrite isbn_taken_anywhere.
  destruct (existsb (field_is "ISBN" (trim isbn)) (books db)) eqn:Hdup'; handler_step;
    [done|].
  intros _. cbn [insertOne of_fields foldr fst snd].
  apply filled_inr in H1, H2, H3, H4, H5.
  exists name, author, isbn, image, amazon, description, publisher, tags.
  do 11 (split; [done|]). eexists. split; [reflexivity|].
  rewrite field_insert_eq. split; [done|].
  repeat split; rewrite field_insert_ne by done; cbn [fst snd];
    repeat (rewrite field_set_field_ne by done);
    apply field_set_field_eq; try done; apply js_or_defined.
Qed.

(** X19: [createBook] appends the book it is given, trimmed: whenever it
    answers 201 the caller is an admin, the body gave the five required
    texts, no stored book had the ISBN, and the store holds one more
    book, the one returned, with the driver's id and the name, author,
    ISBN and links trimmed; genre and language default to [Other] and
    [English], tags that are not an array become the empty list, and
    the requests are untouched. *)
Theorem createBook_appends_trimmed (w : World) (req : Req) (db : Db) :
  status_of (createBook w req db).1 = Some 201 →
  ∃ name author isbn image amazon saved,
    not_admin w req = false
    ∧ field (body req) "name" = JStr name
    ∧ field (body req) "author" = JStr author
    ∧ field (body req) "ISBN" = JStr isbn
    ∧ field (body req) "image_link" = JStr image
    ∧ field (body req) "amazon_link" = JStr amazon
    ∧ Forall (λ d, field d "ISBN" ≠ JStr isbn ∧ field d "ISBN" ≠ JStr (trim isbn))
        (books db)
    ∧ (createBook w req db).2 = with_books db (books db ++ [saved])%list
    ∧ doc_of (createBook w req db).1 = Some saved
    ∧ field saved "_id" = JStr (fresh_id w)
    ∧ (field saved "name" = JStr (trim name) ∧ trim name ≠ "")
    ∧ (field saved "author" = JStr (trim author) ∧ trim author ≠ "")
    ∧ (field saved "ISBN" = JStr (trim isbn) ∧ trim isbn ≠ "")
    ∧ (field saved "image_link" = JStr (trim image) ∧ trim image ≠ "")
    ∧ (field saved "amazon_link" = JStr (trim amazon) ∧ trim amazon ≠ "")
    ∧ (field (body req) "genre" = JUndef → field saved "genre" = JStr "Other")
    ∧ (field (body req) "language" = JUndef → field saved "language" = JStr "English")
    ∧ ((∀ ts, field (body req) "tags" ≠ JArr ts) → field saved "tags" = JArr []).
Proof.
  intros H201.
  destruct (createBook_created w req db H201) as
    (n & a & i & im & am & de & pu & tags & Hadm & [N1 T1] & [N2 T2] & [N3 T3]
     & [N4 T4] & [N5 T5] & _ & _ & Ht & Hfree & Hfree' & saved & Hrun & Hid & S1 & S2
     & S3 & S4 & S5 & Hg & Hl & Htg).
  exists n, a, i, im, am, saved. rewrite Hrun.
  do 6 (split; [done|]). split.
  { apply Forall_forall. intros d Hd. apply list_elem_of_In in Hd.
    split; intros Hi.
    - apply (field_is_text "ISBN") in Hi.
      assert (existsb (field_is "ISBN" i) (books db) = true) as Hex
        by (apply existsb_exists; by exists d).
      congruence.
    - apply (field_is_text "ISBN") in Hi.
      assert (existsb (field_is "ISBN" (trim i)) (books db) = true) as Hex
        by (apply existsb_exists; by exists d).
      congruence. }
  do 8 (split; [done|]). split; [|split].
  - intros Hu. by rewrite Hg, Hu.
  - intros Hu. by rewrite Hl, Hu.
  - intros Hno. rewrite Htg. f_equal.
    destruct (field (body req) "tags") as [| |?| |?|?|?|ts]; try by injection Ht.
    by destruct (Hno ts).
Qed.

Lemma createBook_appends_trimmed_witness :
  ∃ saved,
    books (createBook Sample.world adding_book two_books).2
    = (books two_books ++ [saved])%list
    ∧ field saved "name" = JStr "Dune"
    ∧ field saved "ISBN" = JStr "9780441013593"
    ∧ field saved "genre" = JStr "Other".
Proof.
  destruct (createBook_appends_trimmed Sample.world adding_book two_books eq_refl)
    as (n & a & i & im & am & saved & _ & Hn & _ & Hi & _ & _ & _ & Hrun & _ & _
        & [Sn _] & _ & [Si _] & _ & _ & Hg & _).
  injection Hn as <-. injection Hi as <-.
  exists saved. rewrite Hrun. split; [reflexivity|]. split; [exact Sn|].
  split; [exact Si|]. apply Hg. reflexivity.
Defined.

(** X20: A book cannot be added twice: once [createBook] has answered 201,
    the same call by an admin answers 409 and stores nothing, whether or
    not the ISBN was written with spaces around it. *)
Theorem createBook_twice_conflicts (w w' : World) (req : Req) (db : Db) :
  status_of (createBook w req db).1 = Some 201 →
  not_admin w' req = false →
  createBook w' req (createBook w req db).2
  = (Respond (failure 409 "A book with this ISBN already exists"),
     (createBook w req db).2).
Proof.
  intros Hst Hadm.
  destruct (createBook_created w req db Hst) as
    (n & a & i & im & am & de & pu & tags & _ & [N1 T1] & [N2 T2] & [N3 T3] & [N4 T4]
     & [N5 T5] & Hde & Hpu & Ht & _ & _ & saved & Hrun & _ & _ & _ & Hisbn & _).
  rewrite Hrun. cbn [snd]. unfold createBook at 1. cbv zeta.
  rewrite Hadm, N1, N2, N3, N4, N5, !filled_text by done. handler_step.
  cbn [books with_books].
  destruct (existsb (field_is "ISBN" i) (books db ++ [saved])%list); handler_step;
    [done|].
  rewrite Hde, Hpu. handler_step. rewrite Ht. handler_step.
  rewrite isbn_taken_anywhere, existsb_app. cbn [existsb].
  rewrite (field_is_text _ _ _ Hisbn), orb_true_r. handler_step. done.
Qed.

Lemma createBook_twice_conflicts_witness :
  status_of (createBook Sample.world adding_book
               (createBook Sample.world adding_book two_books).2).1 = Some 409.
Proof.
  rewrite (createBook_twice_conflicts Sample.world Sample.world adding_book two_books);
    reflexivity.
Defined.

Lemma trim_field_inr (k : string) (d d' : doc) :
  trim_field k d = inr d' →
  d' = d ∨ ∃ s, d !! k = Some (JStr s) ∧ d' = <[k := JStr (trim s)]> d.
Proof.
  unfold trim_field, field, throw. cbv zeta. cbn [mret Early_ret].
  destruct (d !! k) as [v|] eqn:Hk; cbn [default from_option id truthy];
    [|intros [= <-]; by left].
  destruct (truthy v); [|intros [= <-]; by left].
  destruct v; try done. intros [= <-]. right. by eexists.
Qed.

Lemma trim_field_inl (k : string) (d : doc) (o : Outcome) :
  trim_field k d = inl o → o = NextError TypeError.
Proof.
  unfold trim_field, throw. cbv zeta. cbn [mret Early_ret].
  destruct (truthy (field d k)); [|done].
  destruct (field d k); try done; by intros [= <-].
Qed.

Lemma trim_field_lookup (k : string) (d d' : doc) (k' : string) :
  trim_field k d = inr d' →
  d' !! k' = d !! k'
  ∨ (k' = k ∧ ∃ s, d !! k = Some (JStr s) ∧ d' !! k = Some (JStr (trim s))).
Proof.
  intros [->|(s & Hs & ->)]%trim_field_inr; [by left|].
  destruct (decide (k' = k)) as [->|Hne].
  - right. split; [done|]. exists s. by rewrite lookup_insert_eq.
  - left. by rewrite lookup_insert_ne.
Qed.

Lemma trim_field_lookup_ne (k : string) (d d' : doc) (k' : string) :
  trim_field k d = inr d' → k' ≠ k → d' !! k' = d !! k'.
Proof. intros H Hne. by destruct (trim_field_lookup k d d' k' H) as [?|[? _]]. Qed.

Lemma trim_field_lookup_None (k : string) (d d' : doc) (k' : string) :
  trim_field k d = inr d' → d !! k' = None → d' !! k' = None.
Proof.
  intros H Hn. destruct (trim_field_lookup k d d' k' H) as [->|[-> (s & Hs & _)]];
    [done|congruence].
Qed.



Lemma restrict_lookup_notin (ks : list string) (d : doc) (k : string) :
  ¬ In k ks → restrict ks d !! k = None.
Proof.
  unfold restrict. induction ks as [|y ks IH]; [done|]. cbn [foldr].
  intros [Hne Hnin]%not_in_cons. unfold set_field.
  destruct (field d y); rewrite ?lookup_insert_ne by done; by apply IH.
Qed.

Lemma restrict_lookup_undef (ks : list string) (d : doc) (k : string) :
  field d k = JUndef → restrict ks d !! k = None.
Proof.
  intros Hu. unfold restrict. induction ks as [|y ks IH]; [done|]. cbn [foldr].
  destruct (decide (y = k)) as [->|Hne].
  - by rewrite Hu.
  - unfold set_field. destruct (field d y); rewrite ?lookup_insert_ne by done; done.
Qed.

Lemma restrict_lookup_in (ks : list string) (d : doc) (k : string) :
  In k ks → field (restrict ks d) k = field d k.
Proof.
  assert (field d k = JUndef ∨ field d k ≠ JUndef) as [Hu|Hd]
    by (destruct (field d k); (by left) || by right).
  { intros _. rewrite Hu. unfold field at 1. by rewrite restrict_lookup_undef. }
  unfold restrict. induction ks as [|x ks IH]; [done|]. cbn [foldr In].
  destruct (decide (x = k)) as [->|Hne].
  - intros _. by apply field_set_field_eq.
  - intros [?|Hin]; [done|]. rewrite field_set_field_ne by done. by apply IH.
Qed.

Lemma field_union_l (a b : doc) (k : string) (v : jsval) :
  a !! k = Some v → field (a ∪ b) k = v.
Proof. intros H. unfold field. by rewrite (lookup_union_Some_l a b k v H). Qed.

Lemma lookup_union_None_l (a b : doc) (k : string) :
  a !! k = None → (a ∪ b) !! k = b !! k.
Proof. intros H. by rewrite lookup_union_r. Qed.

Lemma field_delete_ne (d : doc) (k k' : string) :
  k ≠ k' → field (delete k d) k' = field d k'.
Proof. intros H. unfold field. by rewrite lookup_delete_ne. Qed.

Lemma field_lookup (d : doc) (k : string) :
  field d k ≠ JUndef → d !! k = Some (field d k).
Proof. unfold field. by destruct (d !! k). Qed.

Lemma updateById_inr (id : string) (set : doc) (db : Db) (msg : string)
    (res : Outcome * Db) :
  updateById id set db msg = inr res →
  ∃ old, findById id (books db) = Some old
         ∧ res = (Respond (success_with 200 (PDoc (exclude ["__v"] (set ∪ old))) (Some msg)),
                  with_books db (replaceById id (set ∪ old) (books db))).
Proof.
  unfold updateById. destruct (findById id (books db)) as [old|]; [|done].
  destruct (isbn_taken _ _ _); handler_step; [done|]. intros [= <-]. by exists old.
Qed.

Lemma updateById_inl (id : string) (set : doc) (db : Db) (msg : string) (o : Outcome) :
  updateById id set db msg = inl o →
  status_of o = Some 404 ∨ status_of o = Some 409.
Proof.
  unfold updateById. destruct (findById id (books db)) as [old|];
    [|intros [= <-]; by left].
  destruct (isbn_taken _ _ _); handler_step; [|done]. intros [= <-]. by right.
Qed.



Lemma trim_field_at (k : string) (d d' : doc) (s : string) :
  trim_field k d = inr d' → d !! k = Some (JStr s) → d' !! k = Some (JStr (trim s)).
Proof.
  unfold trim_field, field. cbv zeta. intros H Hk. rewrite Hk in H.
  cbn [default from_option id truthy] in H. destruct s as [|c s].
  - cbn [is_empty negb] in H. injection H as <-. by rewrite Hk.
  - cbn [is_empty negb] in H. injection H as <-. by rewrite lookup_insert_eq.
Qed.

Lemma field_delete_undef (d : doc) (k k' : string) :
  field d k' = JUndef → field (delete k d) k' = JUndef.
Proof.
  unfold field. intros H. destruct (decide (k = k')) as [->|Hne].
  - by rewrite lookup_delete_eq.
  - by rewrite lookup_delete_ne.
Qed.

(** X22: [patchBook] changes what it is given and nothing else.  Whenever it
    answers 200, the book stored in place of the old one differs from it
    only on allowed fields that the body gives: those hold the body's
    value, name, author and description trimmed; every other field,
    the id included, is the old one.  With no allowed field in the body
    an admin is answered 400 and nothing is stored. *)
Theorem patchBook_touches_only_given (w : World) (req : Req) (db : Db) :
  (status_of (patchBook w req db).1 = Some 200 →
   ∃ old new,
     findById (param_id req) (books db) = Some old
     ∧ (patchBook w req db).2
       = with_books db (replaceById (param_id req) new (books db))
     ∧ doc_of (patchBook w req db).1 = Some (delete "__v" new)
     ∧ (∀ k, ¬ In k allowedFields ∨ field (body req) k = JUndef →
          new !! k = old !! k)
     ∧ (∀ k, In k allowedFields → ¬ In k ["name"; "author"; "description"] →
          field (body req) k ≠ JUndef → field new k = field (body req) k)
     ∧ (∀ k s, In k ["name"; "author"; "description"] →
          field (body req) k = JStr s → field new k = JStr (trim s)))
  ∧ (not_admin w req = false → isObjectIdFormat (param_id req) = true →
     (∀ k, In k allowedFields → field (body req) k = JUndef) →
     patchBook w req db = (Respond (failure 400 "No valid fields to update"), db)).
Proof.
  unfold patchBook. cbv zeta.
  set (u0 := delete "__v" (delete "_id" (body req))).
  set (updates := restrict allowedFields u0).
  assert (∀ k, In k allowedFields → field updates k = field (body req) k) as Hgiven.
  { intros k Hin. unfold updates. rewrite restrict_lookup_in by done.
    unfold u0. rewrite !field_delete_ne; [done|..]; intros <-; cbn in Hin;
      by repeat destruct Hin as [Hin|Hin]. }
  assert (∀ k, ¬ In k allowedFields ∨ field (body req) k = JUndef →
               updates !! k = None) as Hnot.
  { intros k [Hk|Hk]; [by apply restrict_lookup_notin|].
    apply restrict_lookup_undef. unfold u0. by do 2 apply field_delete_undef. }
  split.
  - destruct (not_admin w req); handler_step; [done|].
    destruct (isObjectIdFormat (param_id req)); handler_step; [|done].
    destruct (bool_decide (dom updates = ∅)); handler_step; [done|].
    destruct (trim_field "name" _) as [o|u1] eqn:H1; handler_step.
    { by apply trim_field_inl in H1 as ->. }
    destruct (trim_field "author" _) as [o|u2] eqn:H2; handler_step.
    { by apply trim_field_inl in H2 as ->. }
    destruct (trim_field "description" _) as [o|u3] eqn:H3; handler_step.
    { by apply trim_field_inl in H3 as ->. }
    destruct (updateById _ _ _ _) as [o|res] eqn:Hu; handler_step.
    { cbn [fst]. apply updateById_inl in Hu as [Hu|Hu]; rewrite Hu; done. }
    apply updateById_inr in Hu as (old & Hold & ->). intros _.
    exists old, (u3 ∪ old). split; [done|]. split; [done|]. split; [done|].
    split; [|split].
    + intros k Hk. apply lookup_union_None_l.
      apply (trim_field_lookup_None _ _ _ _ H3), (trim_field_lookup_None _ _ _ _ H2),
        (trim_field_lookup_None _ _ _ _ H1). by apply Hnot.
    + intros k Hin Hk Hv. apply field_union_l. cbn [In] in Hk.
      rewrite (trim_field_lookup_ne _ _ _ _ H3), (trim_field_lookup_ne _ _ _ _ H2),
        (trim_field_lookup_ne _ _ _ _ H1) by (intros ->; tauto).
      rewrite <- (Hgiven k Hin). apply field_lookup. by rewrite (Hgiven k Hin).
    + intros k s Hk Hs. apply field_union_l.
      assert (updates !! k = Some (JStr s)) as Hup.
      { rewrite <- Hs, <- (Hgiven k).
        - apply field_lookup. rewrite (Hgiven k), Hs; [done|].
          cbn in Hk |- *. intuition.
        - cbn in Hk |- *. intuition. }
      destruct Hk as [<-|[<-|[<-|[]]]].
      * rewrite (trim_field_lookup_ne _ _ _ _ H3), (trim_field_lookup_ne _ _ _ _ H2)
          by done. by apply (trim_field_at _ _ _ _ H1).
      * rewrite (trim_field_lookup_ne _ _ _ _ H3) by done.
        apply (trim_field_at _ _ _ _ H2).
        by rewrite (trim_field_lookup_ne _ _ _ _ H1).
      * apply (trim_field_at _ _ _ _ H3).
        by rewrite (trim_field_lookup_ne _ _ _ _ H2), (trim_field_lookup_ne _ _ _ _ H1).
  - intros -> -> Hnone. handler_step.
    assert (updates = ∅) as ->.
    { apply map_eq. intros k. rewrite lookup_empty. apply Hnot.
      destruct (in_dec string_dec k allowedFields) as [Hin|Hnin]; [|by left].
      right. by apply Hnone. }
    rewrite dom_empty_L, bool_decide_eq_true_2 by done. reflexivity.
Qed.

Lemma patchBook_touches_only_given_witness :
  ∃ new,
    books (patchBook Sample.world
             (Sample.signed_in Sample.admin "65a00000000000000000000b"
                (of_fields [("name", JStr " Persuasion "); ("_id", JStr "x");
                            ("owner", JStr "me")]))
             two_books).2
    = [stored_book "65a00000000000000000000a" "111"; new]
    ∧ field new "name" = JStr "Persuasion"
    ∧ new !! "_id" = Some (JStr "65a00000000000000000000b")
    ∧ new !! "owner" = None.
Proof.
  destruct (proj1 (patchBook_touches_only_given Sample.world
              (Sample.signed_in Sample.admin "65a00000000000000000000b"
                 (of_fields [("name", JStr " Persuasion "); ("_id", JStr "x");
                             ("owner", JStr "me")]))
              two_books) eq_refl)
    as (old & new & Hold & Hrun & _ & Hkeep & _ & Htrim).
  injection Hold as <-.
  exists new. rewrite Hrun. split; [reflexivity|]. split; [|split].
  - apply (Htrim "name" " Persuasion "); [by left|reflexivity].
  - rewrite (Hkeep "_id"); [reflexivity|]. left. cbn. intros H.
    repeat destruct H as [H|H]; try discriminate H. destruct H.
  - rewrite (Hkeep "owner"); [reflexivity|]. left. cbn. intros H.
    repeat destruct H as [H|H]; try discriminate H. destruct H.
Defined.

Lemma all_valid_ids_inl (ids : list jsval) (o : Outcome) :
  all_valid_ids ids = inl o → o = NextError TypeError ∧ ¬ Forall is_object_id ids.
Proof.
  revert o. induction ids as [|v ids IH]; [done|]. intros o. cbn [all_valid_ids].
  destruct v; try (intros [= <-]; split; [done|];
                   intros [(s' & [=] & _) _]%Forall_cons; done).
  destruct (all_valid_ids ids) as [o'|l]; handler_step; [|done].
  intros [= <-]. destruct (IH o' eq_refl) as [-> Hn]. split; [done|].
  by intros [_ ?]%Forall_cons.
Qed.

Lemma all_valid_ids_inr (ids : list jsval) (l : list string) :
  all_valid_ids ids = inr l →
  (length l ≤ length ids)%nat
  ∧ (length l = length ids → List.map JStr l = ids ∧ Forall is_object_id ids)
  ∧ (Forall is_object_id ids → length l = length ids).
Proof.
  revert l. induction ids as [|v ids IH]; intros l; cbn [all_valid_ids].
  { intros [= <-]. done. }
  destruct v; try done.
  destruct (all_valid_ids ids) as [o'|l']; handler_step; [done|].
  destruct (IH l' eq_refl) as (Hle & Hmap & Hall).
  destruct (isObjectIdFormat s) eqn:Hs; intros [= <-]; cbn [length List.map].
  - split; [lia|]. split.
    + intros [= Hlen]. destruct (Hmap Hlen) as [-> Hf]. split; [done|].
      constructor; [by exists s|done].
    + intros [_ H]%Forall_cons. by rewrite (Hall H).
  - split; [lia|]. split; [lia|].
    intros [(s' & [= <-] & Hs') _]%Forall_cons. congruence.
Qed.

Lemma names_book_listed (d : doc) (l : list string) :
  existsb (λ id, has_id id d) l = true ↔ Exists (names_book d) (List.map JStr l).
Proof.
  rewrite existsb_exists, Exists_map, List.Exists_exists. split.
  - intros (s & Hin & Hs). exists s. split; [done|]. by exists s.
  - intros (s & Hin & s' & [= <-] & Hs). by exists s.
Qed.

(** X23: [deleteMultipleBooks] deletes all the books named or none.  For an
    admin, when every id of the list is a string in the ObjectId format
    it answers 200, the books left are exactly those that no id of the
    list names, the requests are untouched and the count it reports is
    the number of books removed; when one id is not, or the list is
    empty, the store stays as it was and the answer is not 200. *)
Theorem deleteMultipleBooks_all_or_nothing (w : World) (req : Req) (db : Db)
    (ids : list jsval) :
  not_admin w req = false →
  field (body req) "ids" = JArr ids →
  (ids ≠ [] → Forall is_object_id ids →
   ∃ r, (deleteMultipleBooks w req db).1 = Respond r
        ∧ status r = 200
        ∧ requests (deleteMultipleBooks w req db).2 = requests db
        ∧ (∀ d, In d (books (deleteMultipleBooks w req db).2)
                ↔ In d (books db) ∧ ¬ Exists (names_book d) ids)
        ∧ count r = Some (Z.of_nat (length (books db))
                          - Z.of_nat (length (books (deleteMultipleBooks w req db).2))))
  ∧ (ids = [] ∨ ¬ Forall is_object_id ids →
     (deleteMultipleBooks w req db).2 = db
     ∧ status_of (deleteMultipleBooks w req db).1 ≠ Some 200).
Proof.
  intros Hadm Hids. unfold deleteMultipleBooks. rewrite Hadm, Hids. handler_step.
  destruct ids as [|i ids]; [split; [done|by intros _]|].
  set (l := i :: ids).
  destruct (all_valid_ids l) as [o|valid] eqn:Hv; handler_step.
  { apply all_valid_ids_inl in Hv as [-> Hn]. split; [by intros _ ?|by intros _]. }
  apply all_valid_ids_inr in Hv as (Hle & Hmap & Hall).
  destruct (length valid =? length l)%nat eqn:Hlen; handler_step.
  - apply Nat.eqb_eq in Hlen. destruct (Hmap Hlen) as [Hm Hf]. split.
    + intros _ _. eexists. split; [reflexivity|]. split; [done|]. split; [done|].
      cbn [snd books with_books count]. split.
      * intros d. rewrite filter_In, negb_true_iff, <- Hm, <- names_book_listed.
        by rewrite not_true_iff_false.
      * f_equal. pose proof (filter_length_le
          (λ d, negb (existsb (λ id, has_id id d) valid)) (books db)). lia.
    + by intros [?|Hn].
  - apply Nat.eqb_neq in Hlen. split; [|by intros _].
    intros _ Hf. by destruct (Hlen (Hall Hf)).
Qed.

Lemma deleteMultipleBooks_all_or_nothing_witness :
  books (deleteMultipleBooks Sample.world
           (Sample.signed_in Sample.admin ""
              (of_fields [("ids", JArr [JStr "65a00000000000000000000a"; JStr "none"])]))
           two_books).2
  = books two_books.
Proof.
  refine (f_equal books (proj1 (proj2 (deleteMultipleBooks_all_or_nothing
            Sample.world
            (Sample.signed_in Sample.admin ""
               (of_fields [("ids", JArr [JStr "65a00000000000000000000a";
                                         JStr "none"])]))
            two_books
            [JStr "65a00000000000000000000a"; JStr "none"] eq_refl eq_refl) _))).
  right. intros [_ [(s & [= <-] & Hs) _]%Forall_cons]%Forall_cons. discriminate Hs.
Defined.

End Books.

(* ===================================================================== *)
(** ** What the write handlers leave alone *)
(* ===================================================================== *)

Section Frames.
Import JsString Mongoose Handler AdminAuth Spec Outcomes.

Lemma framed_run (proj : Db → list doc) (db : Db) (h : Early (Outcome * Db)) :
  framed proj db h → kept proj db (run db h).
Proof.
  intros Hf. unfold run. destruct h as [o|res]; [|by apply Hf].
  split; [done|]. done.
Qed.

Lemma framed_bind {A} (proj : Db → list doc) (db : Db) (m : Early A)
    (f : A → Early (Outcome * Db)) :
  (∀ a, m = inr a → framed proj db (f a)) → framed proj db (m ≫= f).
Proof. intros Hf. destruct m as [o|a]; [done|]. by apply Hf. Qed.

Lemma framed_respond (proj : Db → list doc) (db : Db) (r : Response) :
  framed proj db (respond r).
Proof. done. Qed.

Lemma framed_throw (proj : Db → list doc) (db : Db) (e : JsError) :
  framed proj db (throw e).
Proof. done. Qed.

Lemma framed_ok_books (db : Db) (st : Z) (p : Payload) (msg : option string)
    (bs : list doc) :
  st = 200 ∨ st = 201 →
  framed requests db (mret (Respond (success_with st p msg), with_books db bs)).
Proof. intros [-> | ->] res [= <-]; by split. Qed.

Lemma framed_ok_requests (db : Db) (st : Z) (p : Payload) (msg : option string)
    (rs : list doc) :
  st = 200 ∨ st = 201 →
  framed books db (mret (Respond (success_with st p msg), with_requests db rs)).
Proof. intros [-> | ->] res [= <-]; by split. Qed.

Lemma framed_updateById (id : string) (set : doc) (db : Db) (msg : string) :
  framed requests db (BookController.updateById id set db msg).
Proof. intros res (old & _ & ->)%updateById_inr. by split. Qed.

Ltac frame_steps proj :=
  cbv beta zeta; apply (framed_run proj);
  repeat (apply framed_bind; intros ? _);
  repeat match goal with
         | |- framed _ _ (match ?x with _ => _ end) => destruct x
         | |- framed _ _ (_ ≫= _) => apply framed_bind; intros ? _
         | |- framed _ _ (BookRequestController.save_and_answer _ _ _ _ _ _) =>
             unfold BookRequestController.save_and_answer
         end;
  try apply framed_respond; try apply framed_throw;
  try apply framed_updateById;
  try (cbn [insertOne]; (apply framed_ok_books || apply framed_ok_requests); tauto).

(** X24: A write handler that does not report a write has written nothing,
    and none writes to the other collection: each handler that writes
    books leaves the requests as they were, each handler that writes
    requests leaves the books as they were, and unless the answer is 200
    or 201 the whole store is as it was. *)
Theorem writers_frame (w : World) (req : Req) (db : Db) :
  Forall (λ h, requests (h w req db).2 = requests db
               ∧ (reports_write (h w req db).1 = false → (h w req db).2 = db))
    book_writers
  ∧ Forall (λ h, books (h w req db).2 = books db
                 ∧ (reports_write (h w req db).1 = false → (h w req db).2 = db))
      request_writers.
Proof.
  split; repeat apply List.Forall_cons; try apply List.Forall_nil.
  - unfold BookController.createBook. frame_steps requests.
  - unfold BookController.updateBook. frame_steps requests.
  - unfold BookController.patchBook. frame_steps requests.
  - unfold BookController.deleteBook. frame_steps requests.
  - unfold BookController.deleteMultipleBooks. frame_steps requests.
    intros res [= <-]. by split.
  - unfold BookRequestController.createBookRequest. frame_steps books.
  - unfold BookRequestController.approveBookRequest. frame_steps books.
  - unfold BookRequestController.rejectBookRequest. frame_steps books.
  - unfold BookRequestController.markRequestFulfilled. frame_steps books.
  - unfold BookRequestController.upvoteRequest. frame_steps books.
Qed.

End Frames.

(* ===================================================================== *)
(** ** The chat handler with a configured key *)
(* ===================================================================== *)

Section ChatCompletion.
Import JsString AiController Spec Outcomes.

Lemma chat_message_kept (s : string) :
  trim s ≠ "" → is_empty s || (String.length (trim s) =? 0)%nat = false.
Proof.
  intros Ht. destruct s as [|c s]; [done|]. cbn [is_empty orb].
  by destruct (trim (String c s)).
Qed.

Lemma chat_message_blank (s : string) :
  trim s = "" → is_empty s || (String.length (trim s) =? 0)%nat = true.
Proof. intros ->. by rewrite orb_true_r. Qed.

(** X25: With a key and a client the chat handler asks the completion
    endpoint exactly once, with the trimmed message as the user content.
    It answers 200 either way: with the content of the completion, or,
    when the call fails, with what it would have answered without a key,
    which is one of the canned responses. *)
Theorem chat_with_key_asks_once (w : World) (req : Req) (s : string)
    (answer : string → Completion) :
  key_set (env w) = true →
  field (body req) "message" = JStr s →
  trim s ≠ "" →
  asked answer (chatWithAI true w req) = [trim s]
  ∧ calls answer (chatWithAI true w req) = 1%nat
  ∧ status (finish answer (chatWithAI true w req)) = 200
  ∧ (∀ content, answer (trim s) = Completed content →
       finish answer (chatWithAI true w req) = reply content)
  ∧ (answer (trim s) = Threw →
       finish answer (chatWithAI true w req) = finish answer (chatWithAI false w req)
       ∧ ∃ text, data (finish answer (chatWithAI true w req)) = PText text
                 ∧ In text canned).
Proof.
  intros Hk Hm Ht. unfold chatWithAI. rewrite Hm, Hk, (chat_message_kept s Ht).
  cbn [negb orb asked calls finish].
  destruct (answer (trim s)) as [content|] eqn:Ha; cbn [asked calls finish].
  - do 3 (split; [done|]). split; [by intros c [= ->]|done].
  - do 4 (split; [done|]). intros _. split; [done|].
    eexists. split; [reflexivity|]. apply generateAIResponse_canned.
Qed.

Lemma chat_with_key_asks_once_witness :
  asked (λ _, Threw)
    (chatWithAI true
       {| env := {| VITE_ADMIN_EMAILS := None; ADMIN_EMAILS := None;
                    OPENAI_API_KEY := Some "sk-test" |};
          now := 0; fresh_id := ""; regex_i := λ _ _, false;
          parseFloat := λ v, v; newDate := λ v, v;
          toNumber := λ _, JNaN; numberToString := λ _, "" |}
       (Sample.anonymous "" (of_fields [("message", JStr "  any fiction books? ")])))
  = ["any fiction books?"].
Proof.
  refine (proj1 (chat_with_key_asks_once _ _ "  any fiction books? " _ _ _ _));
    [reflexivity|reflexivity|vm_compute; discriminate].
Defined.

(** X26: A chat call without a message, with one that is not a string, or
    with one that is blank is refused with 400 and no data; nothing is
    sent to the completion endpoint, key or no key. *)
Theorem chat_blank_message_refused (openai : bool) (w : World) (req : Req)
    (answer : string → Completion) :
  (∀ s, field (body req) "message" = JStr s → trim s = "") →
  asked answer (chatWithAI openai w req) = []
  ∧ status (finish answer (chatWithAI openai w req)) = 400
  ∧ success (finish answer (chatWithAI openai w req)) = Some false
  ∧ data (finish answer (chatWithAI openai w req)) = PNone.
Proof.
  intros Hb. unfold chatWithAI.
  destruct (field (body req) "message") as [| |?| |?|s|?|?]; try done.
  by rewrite (chat_message_blank s (Hb s eq_refl)).
Qed.

Lemma chat_blank_message_refused_witness :
  status (finish (λ _, Completed "hi")
            (chatWithAI true Sample.world
               (Sample.anonymous "" (of_fields [("message", JStr "   ")])))) = 400.
Proof.
  refine (proj1 (proj2 (chat_blank_message_refused true Sample.world
                         (Sample.anonymous "" (of_fields [("message", JStr "   ")]))
                         (λ _, Completed "hi") _))).
  intros s [= <-]. reflexivity.
Defined.

End ChatCompletion.
